(** * The tooltip coordinator of the portfolio front end

    A shallow embedding of [scripts/tooltips.js] (class [TooltipManager]) and
    of the helpers of [scripts/main.js] it calls ([utils.isTouchDevice],
    [utils.getViewportSize], [utils.debounce], [window.projectData]), with
    [utils.throttle] on its own.

    The manager object, the two DOM elements it mutates (the tooltip and
    the hotspots) and the parts of the browser it talks to (listener table,
    timer queue, animation-frame queue, console, clock) are the fields of one
    [state] record which every method threads through.  A hotspot element is
    referred to by its index in [this.hotspots]; the elements are shared, so
    [classList] updates are updates of that one store.  Numbers are
    binary64 floating-point values, as in the language; the operations on
    them are the primitive ones, rounding to nearest. *)

From Stdlib Require Import ZArith PrimFloat.
From stdpp Require Import base option list strings gmap pretty.

Local Open Scope string_scope.
Local Open Scope list_scope.
Local Open Scope nat_scope.
Local Set Warnings "-clear-no-such-hyp".

(** ** DOM fragments *)

Module ClassList.

(** [element.classList] / [element.className] as the list of its tokens. *)
Definition contains (c : string) (l : list string) : bool := bool_decide (c ∈ l).

Definition add (c : string) (l : list string) : list string :=
  if contains c l then l else l ++ [c].

Definition remove (c : string) (l : list string) : list string :=
  filter (λ x, x ≠ c) l.

End ClassList.

(** [Math.max] of two numbers: [NaN] when either is, and [+0] above [-0]. *)
Definition Math_max (x y : float) : float :=
  if is_nan x || is_nan y then nan
  else if (x <? y)%float then y
  else if (y <? x)%float then x
  else if get_sign x then y else x.

(** A [DOMRect]: [right] and [bottom] are derived, as in the DOM, where they
    are the larger of the coordinate and the coordinate plus the extent. *)
Record rect := Rect {
  r_left : float;
  r_top : float;
  r_width : float;
  r_height : float
}.

Definition r_right (r : rect) : float :=
  Math_max (r_left r) (r_left r + r_width r)%float.
Definition r_bottom (r : rect) : float :=
  Math_max (r_top r) (r_top r + r_height r)%float.

(** Values of the inline style properties the manager assigns. *)
Inductive css_length :=
| px (x : float)      (* `${x}px`, for the number [x] *)
| percent (n : nat)   (* '50%' *)
| auto.               (* 'auto' *)

Inductive css_transform :=
| translateX_minus50   (* 'translateX(-50%)' *)
| translateY_minus50   (* 'translateY(-50%)' *)
| transform_none.      (* 'none' *)

Inductive css_display := inline_block | display_none.

Record style := Style {
  st_left : option css_length;
  st_top : option css_length;
  st_bottom : option css_length;
  st_transform : option css_transform
}.

(** One of the two anchors of the tooltip ([.tooltip-link.live],
    [.tooltip-link.github]); [a_href = None] is the assignment of
    [undefined]. *)
Record anchor := Anchor {
  a_href : option string;
  a_display : option css_display
}.

(** The element [#projectTooltip].  A child that [querySelector] does not
    find is [None]; a found child carries the content the manager writes. *)
Record tooltip_el := TooltipEl {
  className : list string;
  tstyle : style;
  titleEl : option string;         (* .tooltip-title, its textContent *)
  descriptionEl : option string;   (* .tooltip-description, its textContent *)
  techEl : option string;          (* .tooltip-tech, its innerHTML *)
  liveLink : option anchor;
  githubLink : option anchor
}.

(** An element of class [.project-hotspot]. *)
Record hotspot_el := HotspotEl {
  dataset_project : option string;  (* data-project; [None] when the attribute is absent *)
  classList : list string
}.

(** An entry of [window.projectData] (main.js). *)
Record ProjectInfo := {
  title : string;
  description : string;
  tech : list string;
  liveUrl : option string;
  githubUrl : option string
}.

(** What the methods read from the event object: the pointer position and,
    for [handleDocumentClick], where [event.target] lies. *)
Record dom_event := DomEvent {
  clientX : float;
  clientY : float;
  target_in_tooltip : bool;   (* this.tooltip.contains(event.target) *)
  target_in_hotspot : bool    (* event.target.closest('.project-hotspot') is not null *)
}.

(** What layout and device queries answer at the moment they are asked. *)
Record layout := Layout {
  ontouchstart_in_window : bool;
  maxTouchPoints : nat;
  clientWidth : option float;     (* document.documentElement.clientWidth *)
  innerWidth : option float;      (* window.innerWidth *)
  clientHeight : option float;
  innerHeight : option float;
  tooltipRect : rect;         (* this.tooltip.getBoundingClientRect() *)
  hotspotRect : nat → rect    (* hotspot.getBoundingClientRect() *)
}.

(** ** Browser machinery *)

(** The three functions the code hands to [setTimeout]. *)
Inductive callback :=
| ShowCb (hotspot : nat) (event : dom_event)  (* () => this.showTooltip(hotspot, event) *)
| HideCb                                      (* () => this.hideTooltip() *)
| LaterCb.                                    (* [later] of utils.debounce *)

Record timer := Timer {
  tid : nat;      (* the handle setTimeout returned *)
  due : nat;      (* the millisecond at which it fires *)
  cb : callback
}.

Inductive target := Hotspot (i : nat) | Document | Window.

Inductive event_type :=
| mouseenter | mouseleave | mousemove | touchstart | click | scroll | resize.

(** Bodies of the arrow functions created by [bindEvents]. *)
Inductive arrow_body :=
| CallMouseEnter (hotspot : nat)
| CallMouseLeave (hotspot : nat)
| CallMouseMove (hotspot : nat)
| CallTouchStart (hotspot : nat)
| CallClick (hotspot : nat)
| CallDocumentClick
| CallHideTooltip
| Debounced.     (* utils.debounce(() => this.updateTooltipPosition(), 250) *)

(** The methods [destroy] names as function objects. *)
Inductive method :=
| m_handleMouseEnter | m_handleMouseLeave | m_handleMouseMove
| m_handleTouchStart | m_handleClick | m_handleDocumentClick
| m_hideTooltip | m_updateTooltipPosition.

(** A function object.  Every evaluation of an arrow expression allocates a
    new object ([fn_id]); a method of the prototype is one object. *)
Inductive fn :=
| Arrow (fn_id : nat) (body : arrow_body)
| Method (m : method).

Record listener := Listener {
  l_target : target;
  l_type : event_type;
  l_fn : fn
}.

Global Instance target_eq_dec : EqDecision target.
Proof. solve_decision. Defined.
Global Instance event_type_eq_dec : EqDecision event_type.
Proof. solve_decision. Defined.
Global Instance arrow_body_eq_dec : EqDecision arrow_body.
Proof. solve_decision. Defined.
Global Instance method_eq_dec : EqDecision method.
Proof. solve_decision. Defined.
Global Instance fn_eq_dec : EqDecision fn.
Proof. solve_decision. Defined.
Global Instance listener_eq_dec : EqDecision listener.
Proof. solve_decision. Defined.

(** ** The state *)

Record state := State {
  (* the TooltipManager instance *)
  tooltip : option tooltip_el;     (* this.tooltip, null when the element is missing *)
  hotspots : list hotspot_el;      (* this.hotspots *)
  activeHotspot : option nat;      (* this.activeHotspot *)
  hideTimeout : option nat;        (* this.hideTimeout *)
  showTimeout : option nat;        (* this.showTimeout, undefined until first set *)
  (* the browser *)
  listeners : list listener;
  nextFn : nat;
  timers : list timer;             (* outstanding timers, oldest first *)
  nextTimer : nat;
  now : nat;                       (* milliseconds *)
  rafQueue : nat;                  (* queued () => this.tooltip.classList.add('visible') *)
  debounceTimeout : option nat;    (* [timeout] in the closure of utils.debounce *)
  console : list string;
  (* window *)
  projectData : gmap string ProjectInfo;   (* the own entries of window.projectData *)
  page : layout
}.

Definition showDelay : nat := 300.
Definition hideDelay : nat := 150.

(** Field updates. *)
Definition set_tooltip (v : option tooltip_el) (s : state) : state :=
  State v (hotspots s) (activeHotspot s) (hideTimeout s) (showTimeout s)
        (listeners s) (nextFn s) (timers s) (nextTimer s) (now s) (rafQueue s)
        (debounceTimeout s) (console s) (projectData s) (page s).
Definition set_hotspots (v : list hotspot_el) (s : state) : state :=
  State (tooltip s) v (activeHotspot s) (hideTimeout s) (showTimeout s)
        (listeners s) (nextFn s) (timers s) (nextTimer s) (now s) (rafQueue s)
        (debounceTimeout s) (console s) (projectData s) (page s).
Definition set_activeHotspot (v : option nat) (s : state) : state :=
  State (tooltip s) (hotspots s) v (hideTimeout s) (showTimeout s)
        (listeners s) (nextFn s) (timers s) (nextTimer s) (now s) (rafQueue s)
        (debounceTimeout s) (console s) (projectData s) (page s).
Definition set_hideTimeout (v : option nat) (s : state) : state :=
  State (tooltip s) (hotspots s) (activeHotspot s) v (showTimeout s)
        (listeners s) (nextFn s) (timers s) (nextTimer s) (now s) (rafQueue s)
        (debounceTimeout s) (console s) (projectData s) (page s).
Definition set_showTimeout (v : option nat) (s : state) : state :=
  State (tooltip s) (hotspots s) (activeHotspot s) (hideTimeout s) v
        (listeners s) (nextFn s) (timers s) (nextTimer s) (now s) (rafQueue s)
        (debounceTimeout s) (console s) (projectData s) (page s).
Definition set_listeners (v : list listener) (n : nat) (s : state) : state :=
  State (tooltip s) (hotspots s) (activeHotspot s) (hideTimeout s) (showTimeout s)
        v n (timers s) (nextTimer s) (now s) (rafQueue s)
        (debounceTimeout s) (console s) (projectData s) (page s).
Definition set_timers (v : list timer) (n : nat) (s : state) : state :=
  State (tooltip s) (hotspots s) (activeHotspot s) (hideTimeout s) (showTimeout s)
        (listeners s) (nextFn s) v n (now s) (rafQueue s)
        (debounceTimeout s) (console s) (projectData s) (page s).
Definition set_now (v : nat) (s : state) : state :=
  State (tooltip s) (hotspots s) (activeHotspot s) (hideTimeout s) (showTimeout s)
        (listeners s) (nextFn s) (timers s) (nextTimer s) v (rafQueue s)
        (debounceTimeout s) (console s) (projectData s) (page s).
Definition set_rafQueue (v : nat) (s : state) : state :=
  State (tooltip s) (hotspots s) (activeHotspot s) (hideTimeout s) (showTimeout s)
        (listeners s) (nextFn s) (timers s) (nextTimer s) (now s) v
        (debounceTimeout s) (console s) (projectData s) (page s).
Definition set_debounceTimeout (v : option nat) (s : state) : state :=
  State (tooltip s) (hotspots s) (activeHotspot s) (hideTimeout s) (showTimeout s)
        (listeners s) (nextFn s) (timers s) (nextTimer s) (now s) (rafQueue s)
        v (console s) (projectData s) (page s).
Definition set_console (v : list string) (s : state) : state :=
  State (tooltip s) (hotspots s) (activeHotspot s) (hideTimeout s) (showTimeout s)
        (listeners s) (nextFn s) (timers s) (nextTimer s) (now s) (rafQueue s)
        (debounceTimeout s) v (projectData s) (page s).
Definition set_page (v : layout) (s : state) : state :=
  State (tooltip s) (hotspots s) (activeHotspot s) (hideTimeout s) (showTimeout s)
        (listeners s) (nextFn s) (timers s) (nextTimer s) (now s) (rafQueue s)
        (debounceTimeout s) (console s) (projectData s) v.

(** A call either returns or throws; what it changed before throwing stays
    changed. *)
Inductive outcome :=
| Done (s : state)
| Threw (s : state) (error : string).

Definition state_of (o : outcome) : state :=
  match o with Done s | Threw s _ => s end.

Definition and_then (o : outcome) (k : state → outcome) : outcome :=
  match o with
  | Done s => k s
  | Threw s e => Threw s e
  end.

Definition TypeError : string := "TypeError: Cannot read properties of null".

Definition TypeError_undefined : string :=
  "TypeError: Cannot read properties of undefined".

(** ** Browser primitives *)

Definition console_log (msg : string) (s : state) : state :=
  set_console (console s ++ [msg]) s.

(** [clearTimeout(handle)]: [None] is [null] or [undefined], a handle that
    is no longer outstanding cancels nothing. *)
Definition clearTimeout (handle : option nat) (s : state) : state :=
  match handle with
  | None => s
  | Some id => set_timers (filter (λ t, tid t ≠ id) (timers s)) (nextTimer s) s
  end.

(** [setTimeout(cb, delay)]: the new handle and the state with the timer
    queued. *)
Definition setTimeout (c : callback) (delay : nat) (s : state) : nat * state :=
  (nextTimer s,
   set_timers (timers s ++ [Timer (nextTimer s) (now s + delay) c])
              (S (nextTimer s)) s).

Definition requestAnimationFrame (s : state) : state :=
  set_rafQueue (S (rafQueue s)) s.

Definition addEventListener (tg : target) (ty : event_type) (body : arrow_body)
    (s : state) : state :=
  set_listeners (listeners s ++ [Listener tg ty (Arrow (nextFn s) body)])
                (S (nextFn s)) s.

(** [removeEventListener(type, f)] removes the registration of the very
    function object [f] for that target and type, if there is one. *)
Definition removeEventListener (tg : target) (ty : event_type) (f : fn)
    (s : state) : state :=
  set_listeners (filter (λ l, l ≠ Listener tg ty f) (listeners s)) (nextFn s) s.

(** ** utils (main.js) *)

(** [x || 0]: [undefined], [NaN] and the two zeros are falsy. *)
Definition or0 (x : option float) : float :=
  match x with
  | Some v => if is_nan v || is_zero v then 0%float else v
  | None => 0%float
  end.

Definition isTouchDevice (l : layout) : bool :=
  ontouchstart_in_window l || bool_decide (0 < maxTouchPoints l).

Record viewport_size := Viewport { vp_width : float; vp_height : float }.

Definition getViewportSize (l : layout) : viewport_size :=
  Viewport (Math_max (or0 (clientWidth l)) (or0 (innerWidth l)))
           (Math_max (or0 (clientHeight l)) (or0 (innerHeight l))).

(** ** TooltipManager *)

Definition spacing : float := 15%float.

Definition dquote : string := String (Ascii.ascii_of_nat 34) EmptyString.

(** [`<span class="tech-tag">${tech}</span>`] *)
Definition tech_tag (t : string) : string :=
  ("<span class=" ++ dquote ++ "tech-tag" ++ dquote ++ ">" ++ t ++ "</span>")%string.

(** [projectInfo.tech.map(...).join('')] *)
Definition tech_html (tags : list string) : string :=
  String.concat "" (map tech_tag tags).

(** Truthiness of an optional string: [undefined] and [''] are falsy. *)
Definition truthy (u : option string) : bool :=
  match u with
  | None => false
  | Some x => negb (String.eqb x "")
  end.

Definition set_link (url : option string) (a : anchor) : anchor :=
  Anchor url (Some (if truthy url then inline_block else display_none)).

(** The key [window.projectData[projectId]] looks up: an absent attribute
    reads as [undefined], which indexes under the name "undefined". *)
Definition project_key (el : hotspot_el) : string :=
  default "undefined" (dataset_project el).

Definition visible (s : state) : bool :=
  match tooltip s with
  | Some t => ClassList.contains "visible" (className t)
  | None => false
  end.

Definition set_hotspot_classList (f : list string → list string) (hotspot : nat)
    (s : state) : state :=
  set_hotspots
    (alter (λ el, HotspotEl (dataset_project el) (f (classList el))) hotspot (hotspots s)) s.

(** The names [Object.prototype] defines.  [window.projectData] is an
    object literal, so a property read finds them as well. *)
Definition Object_prototype : list string :=
  ["constructor"; "__defineGetter__"; "__defineSetter__"; "hasOwnProperty";
   "__lookupGetter__"; "__lookupSetter__"; "isPrototypeOf"; "propertyIsEnumerable";
   "toString"; "valueOf"; "__proto__"; "toLocaleString"].

(** What [window.projectData[projectId]] evaluates to when it is not
    [undefined]: an entry of the registry, or a member of
    [Object.prototype], which is truthy and has none of the properties of an
    entry. *)
Inductive project_value :=
| Entry (info : ProjectInfo)
| Inherited.

Definition registry_get (data : gmap string ProjectInfo) (key : string)
    : option project_value :=
  match data !! key with
  | Some info => Some (Entry info)
  | None => if bool_decide (key ∈ Object_prototype) then Some Inherited else None
  end.

(** With an inherited member every property read gives [undefined]:
    [textContent] becomes the empty string and [projectInfo.tech.map]
    throws; when there is no [.tooltip-tech] the links get [undefined]. *)
Definition populateTooltip (projectInfo : project_value) (s : state) : outcome :=
  match tooltip s with
  | None => Threw s TypeError
  | Some t =>
      match projectInfo with
      | Entry projectInfo =>
          Done (set_tooltip (Some
            (TooltipEl (className t) (tstyle t)
               (titleEl t ≫= λ _, Some (title projectInfo))
               (descriptionEl t ≫= λ _, Some (description projectInfo))
               (techEl t ≫= λ _, Some (tech_html (tech projectInfo)))
               (set_link (liveUrl projectInfo) <$> liveLink t)
               (set_link (githubUrl projectInfo) <$> githubLink t))) s)
      | Inherited =>
          match techEl t with
          | Some _ =>
              Threw (set_tooltip (Some
                (TooltipEl (className t) (tstyle t)
                   (titleEl t ≫= λ _, Some "") (descriptionEl t ≫= λ _, Some "")
                   (techEl t) (liveLink t) (githubLink t))) s) TypeError_undefined
          | None =>
              Done (set_tooltip (Some
                (TooltipEl (className t) (tstyle t)
                   (titleEl t ≫= λ _, Some "") (descriptionEl t ≫= λ _, Some "")
                   None
                   (set_link None <$> liveLink t)
                   (set_link None <$> githubLink t))) s)
          end
      end
  end.

Definition restyle (cls : list string) (st : style) (t : tooltip_el) : tooltip_el :=
  TooltipEl cls st (titleEl t) (descriptionEl t) (techEl t) (liveLink t) (githubLink t).

(** [style.left = `${x}px`] with the value the property had before: a
    number prints as a CSS length unless it is [NaN] or an infinity, and the
    style object ignores a declaration that does not parse. *)
Definition assign_px (x : float) (old : option css_length) : option css_length :=
  if is_finite x then Some (px x) else old.

(** The desktop branch of [positionTooltip]: the pixel offsets and the
    placement tag, from the three successive adjustments. *)
Definition desktop_placement (viewport : viewport_size) (tooltipRect hotspotRect : rect)
    : float * float * string :=
  let left_ := (r_left hotspotRect + r_width hotspotRect / 2)%float in
  let top_ := (r_top hotspotRect - r_height tooltipRect - spacing)%float in
  let position := "top" in
  let '(top_, position) :=
    if (top_ <? spacing)%float
    then ((r_bottom hotspotRect + spacing)%float, "bottom")
    else (top_, position) in
  let '(left_, top_, position) :=
    if (vp_width viewport - spacing <? left_ + r_width tooltipRect / 2)%float
    then ((r_right hotspotRect + spacing)%float,
          (r_top hotspotRect + r_height hotspotRect / 2 - r_height tooltipRect / 2)%float,
          "left")
    else (left_, top_, position) in
  let '(left_, top_, position) :=
    if (left_ - r_width tooltipRect / 2 <? spacing)%float
    then ((r_left hotspotRect - spacing)%float,
          (r_top hotspotRect + r_height hotspotRect / 2 - r_height tooltipRect / 2)%float,
          "right")
    else (left_, top_, position) in
  (left_, top_, position).

Definition positionTooltip (hotspot : nat) (event : dom_event) (s : state) : state :=
  match tooltip s with
  | None => s
  | Some t =>
      let viewport := getViewportSize (page s) in
      let tooltipRect := tooltipRect (page s) in
      let hotspotRect := hotspotRect (page s) hotspot in
      if isTouchDevice (page s) || (vp_width viewport <? 768)%float then
        set_tooltip (Some
          (restyle ["tooltip"; "visible"; "bottom"]
             (Style (Some (percent 50)) (Some auto) (Some (px 20)) (Some translateX_minus50))
             t)) s
      else
        let '(left_, top_, position) := desktop_placement viewport tooltipRect hotspotRect in
        set_tooltip (Some
          (restyle ["tooltip"; "visible"; position]
             (Style (assign_px left_ (st_left (tstyle t)))
                (assign_px top_ (st_top (tstyle t))) (st_bottom (tstyle t))
                (Some (if String.eqb position "top" || String.eqb position "bottom"
                       then translateX_minus50 else translateY_minus50)))
             t)) s
  end.

Definition showTooltip (hotspot : nat) (event : dom_event) (s : state) : outcome :=
  match hotspots s !! hotspot with
  | None => Threw s TypeError
  | Some el =>
      let projectId := project_key el in
      match registry_get (projectData s) projectId with
      | None => Done (console_log ("Project data not found for: " ++ projectId)%string s)
      | Some projectInfo =>
          let s := set_activeHotspot (Some hotspot) s in
          and_then (populateTooltip projectInfo s) (λ s,
            let s := positionTooltip hotspot event s in
            let s := requestAnimationFrame s in
            Done (set_hotspot_classList (ClassList.add "active") hotspot s))
      end
  end.

Definition hideTooltip (s : state) : state :=
  match tooltip s with
  | None => s
  | Some t =>
      let s := set_tooltip
                 (Some (restyle (ClassList.remove "visible" (className t)) (tstyle t) t)) s in
      let s := match activeHotspot s with
               | Some h => set_activeHotspot None
                             (set_hotspot_classList (ClassList.remove "active") h s)
               | None => s
               end in
      let s := clearTimeout (showTimeout s) s in
      clearTimeout (hideTimeout s) s
  end.

(** The offsets pointer-follow mode assigns to [style.left] and [style.top]. *)
Definition follow_position (event : dom_event) (tooltipRect : rect)
    (viewport : viewport_size) : float * float :=
  let left_ := clientX event in
  let top_ := (clientY event - r_height tooltipRect - spacing)%float in
  let left_ := if (vp_width viewport - spacing <? left_ + r_width tooltipRect)%float
              then (vp_width viewport - r_width tooltipRect - spacing)%float
              else left_ in
  let left_ := if (left_ <? spacing)%float then spacing else left_ in
  let top_ := if (top_ <? spacing)%float then (clientY event + spacing)%float else top_ in
  (left_, top_).

Definition updateTooltipPosition (event : option dom_event) (s : state) : outcome :=
  match activeHotspot s with
  | None => Done s
  | Some _ =>
      match tooltip s with
      | None => Threw s TypeError
      | Some t =>
          if negb (ClassList.contains "visible" (className t)) then Done s
          else match event with
               | Some e =>
                   if negb (isTouchDevice (page s)) then
                     let '(left_, top_) :=
                       follow_position e (tooltipRect (page s)) (getViewportSize (page s)) in
                     Done (set_tooltip (Some
                       (restyle (className t)
                          (Style (assign_px left_ (st_left (tstyle t)))
                             (assign_px top_ (st_top (tstyle t))) (st_bottom (tstyle t))
                             (Some transform_none)) t)) s)
                   else Done s
               | None => Done s
               end
      end
  end.

Definition handleMouseEnter (event : dom_event) (hotspot : nat) (s : state) : state :=
  let s := clearTimeout (hideTimeout s) s in
  let '(id, s) := setTimeout (ShowCb hotspot event) showDelay s in
  set_showTimeout (Some id) s.

Definition handleMouseLeave (event : dom_event) (hotspot : nat) (s : state) : state :=
  let s := clearTimeout (showTimeout s) s in
  let '(id, s) := setTimeout HideCb hideDelay s in
  set_hideTimeout (Some id) s.

(** [this.activeHotspot === hotspot && this.tooltip.classList.contains('visible')];
    the second operand, evaluated only when the first holds, dereferences
    [this.tooltip]. *)
Definition active_and_visible (hotspot : nat) (s : state) : option bool :=
  if bool_decide (activeHotspot s = Some hotspot) then
    match tooltip s with
    | None => None
    | Some t => Some (ClassList.contains "visible" (className t))
    end
  else Some false.

Definition handleMouseMove (event : dom_event) (hotspot : nat) (s : state) : outcome :=
  match active_and_visible hotspot s with
  | None => Threw s TypeError
  | Some true => updateTooltipPosition (Some event) s
  | Some false => Done s
  end.

Definition handleTouchStart (event : dom_event) (hotspot : nat) (s : state) : outcome :=
  showTooltip hotspot event s.

Definition handleClick (event : dom_event) (hotspot : nat) (s : state) : outcome :=
  match active_and_visible hotspot s with
  | None => Threw s TypeError
  | Some true => Done (hideTooltip s)
  | Some false => showTooltip hotspot event s
  end.

Definition handleDocumentClick (event : dom_event) (s : state) : outcome :=
  match tooltip s with
  | None => Threw s TypeError
  | Some _ =>
      if negb (target_in_tooltip event) && negb (target_in_hotspot event)
      then Done (hideTooltip s)
      else Done s
  end.

(** ** Listeners, timers and frames *)

(** [executedFunction] of [utils.debounce(func, 250)], called on resize. *)
Definition debounced_call (s : state) : state :=
  let s := clearTimeout (debounceTimeout s) s in
  let '(id, s) := setTimeout LaterCb 250 s in
  set_debounceTimeout (Some id) s.

Definition run_callback (c : callback) (s : state) : outcome :=
  match c with
  | ShowCb hotspot event => showTooltip hotspot event s
  | HideCb => Done (hideTooltip s)
  | LaterCb => updateTooltipPosition None (clearTimeout (debounceTimeout s) s)
  end.

(** Calling a registered function object with the event.  Only arrow
    functions are ever registered; a bare method has no manager to act on. *)
Definition call (f : fn) (event : dom_event) (s : state) : outcome :=
  match f with
  | Arrow _ (CallMouseEnter hotspot) => Done (handleMouseEnter event hotspot s)
  | Arrow _ (CallMouseLeave hotspot) => Done (handleMouseLeave event hotspot s)
  | Arrow _ (CallMouseMove hotspot) => handleMouseMove event hotspot s
  | Arrow _ (CallTouchStart hotspot) => handleTouchStart event hotspot s
  | Arrow _ (CallClick hotspot) => handleClick event hotspot s
  | Arrow _ CallDocumentClick => handleDocumentClick event s
  | Arrow _ CallHideTooltip => Done (hideTooltip s)
  | Arrow _ Debounced => Done (debounced_call s)
  | Method _ => Done s
  end.

Definition stops_propagation (f : fn) : bool :=
  match f with
  | Arrow _ (CallClick _) => true
  | _ => false
  end.

Definition listeners_for (tg : target) (ty : event_type) (s : state) : list listener :=
  filter (λ l, l_target l = tg ∧ l_type l = ty) (listeners s).

Fixpoint call_all (ls : list listener) (event : dom_event) (s : state) : state :=
  match ls with
  | [] => s
  | l :: ls => call_all ls event (state_of (call (l_fn l) event s))
  end.

(** The listeners of one target run in registration order; an exception in
    one is reported by the browser and does not keep the others from running. *)
Definition dispatch (tg : target) (ty : event_type) (event : dom_event) (s : state) : state :=
  call_all (listeners_for tg ty s) event s.

(** A click on a hotspot reaches the document unless a listener on the way
    stopped its propagation. *)
Definition dispatch_click (hotspot : nat) (event : dom_event) (s : state) : state :=
  let ls := listeners_for (Hotspot hotspot) click s in
  let s' := call_all ls event s in
  if existsb (λ l, stops_propagation (l_fn l)) ls then s'
  else dispatch Document click event s'.

Definition outstanding (id : nat) (s : state) : bool :=
  bool_decide (id ∈ map tid (timers s)).

(** A due timer that was not cancelled in the meantime leaves the queue and
    its callback runs. *)
Definition fire (t : timer) (s : state) : state :=
  if outstanding (tid t) s
  then state_of (run_callback (cb t) (clearTimeout (Some (tid t)) s))
  else s.

Fixpoint fire_all (ready : list timer) (s : state) : state :=
  match ready with
  | [] => s
  | t :: ready => fire_all ready (fire t s)
  end.

(** One millisecond passes: the timers that are due fire, oldest first. *)
Definition tick (s : state) : state :=
  let s := set_now (S (now s)) s in
  fire_all (filter (λ t, due t ≤ now s) (timers s)) s.

(** An animation frame: the queued callbacks run, each adding [visible]. *)
Definition frame (s : state) : state :=
  match rafQueue s with
  | 0 => s
  | S _ =>
      set_rafQueue 0
        match tooltip s with
        | Some t => set_tooltip
                      (Some (restyle (ClassList.add "visible" (className t)) (tstyle t) t)) s
        | None => s
        end
  end.

(** ** Construction and teardown *)

Definition bind_hotspot (s : state) (hotspot : nat) : state :=
  let s := addEventListener (Hotspot hotspot) mouseenter (CallMouseEnter hotspot) s in
  let s := addEventListener (Hotspot hotspot) mouseleave (CallMouseLeave hotspot) s in
  let s := addEventListener (Hotspot hotspot) mousemove (CallMouseMove hotspot) s in
  let s := addEventListener (Hotspot hotspot) touchstart (CallTouchStart hotspot) s in
  addEventListener (Hotspot hotspot) click (CallClick hotspot) s.

Definition bindEvents (s : state) : state :=
  let s := fold_left bind_hotspot (seq 0 (length (hotspots s))) s in
  let s := addEventListener Document click CallDocumentClick s in
  let s := addEventListener Window scroll CallHideTooltip s in
  addEventListener Window resize Debounced s.

(** [init()], reading the two queries of the document. *)
Definition init (projectTooltip : option tooltip_el) (project_hotspots : list hotspot_el)
    (s : state) : state :=
  let s := set_hotspots project_hotspots (set_tooltip projectTooltip s) in
  match tooltip s with
  | None => console_log "Tooltip element not found" s
  | Some _ =>
      let s := bindEvents s in
      console_log ("Tooltip manager initialized with "
                   ++ pretty (length (hotspots s)) ++ " hotspots")%string s
  end.

(** [new TooltipManager()] in a browser with nothing registered or queued:
    the constructor's assignments, then [init()]. *)
Definition new_TooltipManager (projectTooltip : option tooltip_el)
    (project_hotspots : list hotspot_el) (data : gmap string ProjectInfo)
    (l : layout) : state :=
  init projectTooltip project_hotspots
    (State None [] None None None [] 0 [] 1 0 0 None [] data l).

Definition unbind_hotspot (s : state) (hotspot : nat) : state :=
  let s := removeEventListener (Hotspot hotspot) mouseenter (Method m_handleMouseEnter) s in
  let s := removeEventListener (Hotspot hotspot) mouseleave (Method m_handleMouseLeave) s in
  let s := removeEventListener (Hotspot hotspot) mousemove (Method m_handleMouseMove) s in
  let s := removeEventListener (Hotspot hotspot) touchstart (Method m_handleTouchStart) s in
  removeEventListener (Hotspot hotspot) click (Method m_handleClick) s.

Definition destroy (s : state) : state :=
  let s := hideTooltip s in
  let s := fold_left unbind_hotspot (seq 0 (length (hotspots s))) s in
  let s := removeEventListener Document click (Method m_handleDocumentClick) s in
  let s := removeEventListener Window scroll (Method m_hideTooltip) s in
  removeEventListener Window resize (Method m_updateTooltipPosition) s.

(** ** What the environment can do *)

Inductive input :=
| MouseEnter (hotspot : nat) (e : dom_event)
| MouseLeave (hotspot : nat) (e : dom_event)
| MouseMove (hotspot : nat) (e : dom_event)
| TouchStart (hotspot : nat) (e : dom_event)
| Click (hotspot : nat) (e : dom_event)    (* a click whose target is the hotspot *)
| ClickElsewhere (e : dom_event)           (* a click on the rest of the document *)
| Scroll
| Resize
| Tick
| Frame
| Relayout (l : layout)                    (* the page is laid out anew *)
| Destroy.                                 (* destroyTooltips() *)

Definition no_event : dom_event := DomEvent 0 0 false false.

Definition step (i : input) (s : state) : state :=
  match i with
  | MouseEnter h e => dispatch (Hotspot h) mouseenter e s
  | MouseLeave h e => dispatch (Hotspot h) mouseleave e s
  | MouseMove h e => dispatch (Hotspot h) mousemove e s
  | TouchStart h e => dispatch (Hotspot h) touchstart e s
  | Click h e => dispatch_click h e s
  | ClickElsewhere e => dispatch Document click e s
  | Scroll => dispatch Window scroll no_event s
  | Resize => dispatch Window resize no_event s
  | Tick => tick s
  | Frame => frame s
  | Relayout l => set_page l s
  | Destroy => destroy s
  end.

Fixpoint run (tr : list input) (s : state) : state :=
  match tr with
  | [] => s
  | i :: tr => run tr (step i s)
  end.

(** ** The registry of main.js and a sample page *)

Definition project1 : ProjectInfo :=
  Build_ProjectInfo "E-Commerce Platform"
    "Full-stack online shopping platform with payment integration, user authentication, and admin dashboard."
    ["React"; "Node.js"; "MongoDB"; "Stripe"]
    (Some "https://example.com") (Some "https://github.com/username/project1").

Definition project2 : ProjectInfo :=
  Build_ProjectInfo "Weather Dashboard"
    "Real-time weather application with geolocation, forecasts, and interactive maps."
    ["Vue.js"; "API Integration"; "Chart.js"]
    (Some "https://example.com") (Some "https://github.com/username/project2").

Definition project3 : ProjectInfo :=
  Build_ProjectInfo "Task Management App"
    "Collaborative project management tool with real-time updates, file sharing, and team chat."
    ["Angular"; "Firebase"; "WebSocket"]
    (Some "https://example.com") (Some "https://github.com/username/project3").

Definition project4 : ProjectInfo :=
  Build_ProjectInfo "AI Image Generator"
    "Machine learning powered image generation tool with custom training models."
    ["Python"; "TensorFlow"; "Flask"; "AWS"]
    (Some "https://example.com") (Some "https://github.com/username/project4").

Definition project5 : ProjectInfo :=
  Build_ProjectInfo "Social Media Analytics"
    "Data visualization platform for social media metrics with predictive analytics."
    ["D3.js"; "Python"; "PostgreSQL"; "Docker"]
    (Some "https://example.com") (Some "https://github.com/username/project5").

Definition main_projectData : gmap string ProjectInfo :=
  list_to_map
    [("project1", project1); ("project2", project2); ("project3", project3);
     ("project4", project4); ("project5", project5)].

(** A tooltip element with all five children, nothing written to it yet. *)
Definition sample_tooltip : tooltip_el :=
  TooltipEl ["tooltip"] (Style None None None None)
            (Some "") (Some "") (Some "")
            (Some (Anchor None None)) (Some (Anchor None None)).

(** Three hotspots: two registered projects and one unknown identifier. *)
Definition sample_hotspots : list hotspot_el :=
  [HotspotEl (Some "project1") ["project-hotspot"];
   HotspotEl (Some "project2") ["project-hotspot"];
   HotspotEl (Some "project9") ["project-hotspot"]].

(** A desktop window of 1280 by 400 pixels, a tooltip of 300 by 250. *)
Definition sample_layout : layout :=
  Layout false 0 (Some 1280%float) (Some 1280%float) (Some 400%float) (Some 400%float)
         (Rect 0 0 300 250)
         (λ i, Rect (match i with 0 => 100 | 1 => 300 | _ => 500 end) 120 40 40).

(** The same page on a phone. *)
Definition sample_phone : layout :=
  Layout true 5 (Some 500%float) (Some 500%float) (Some 800%float) (Some 800%float)
         (Rect 0 0 300 250)
         (λ i, Rect (match i with 0 => 100 | 1 => 300 | _ => 500 end) 120 40 40).

Definition sample_state : state :=
  new_TooltipManager (Some sample_tooltip) sample_hotspots main_projectData sample_layout.

(** The sample page with one hotspot, whose [data-project] is no project
    of the registry but the name of a member of [Object.prototype]. *)
Definition sample_inherited : state :=
  new_TooltipManager (Some sample_tooltip)
    [HotspotEl (Some "constructor") ["project-hotspot"]] main_projectData sample_layout.

(** The sample page with the tooltip showing hotspot 0 after a click. *)
Definition sample_shown : state := run [Click 0 no_event] sample_state.

(** [n] milliseconds in which nothing happens. *)
Definition ticks (n : nat) : list input := replicate n Tick.

(** The pointer enters hotspot 0 and rests for 300 ms. *)
Definition sample_hover : list input := [MouseEnter 0 no_event] ++ ticks 300.

(** ** Notions the properties are stated with *)

(** The two delays of the coordinator. *)
Inductive timer_kind := show_delay | hide_delay.

Definition is_kind (k : timer_kind) (t : timer) : bool :=
  match k, cb t with
  | show_delay, ShowCb _ _ => true
  | hide_delay, HideCb => true
  | _, _ => false
  end.

Definition outstanding_of (k : timer_kind) (s : state) : list timer :=
  filter (λ t, is_kind k t = true) (timers s).

Definition at_most_one_per_kind (s : state) : Prop :=
  ∀ k, length (outstanding_of k s) ≤ 1.

(** No show-delay or hide-delay timer is outstanding (a debounced resize may
    still be). *)
Definition no_delay_pending (s : state) : Prop :=
  ∀ t, t ∈ timers s → cb t = LaterCb.

(** Hotspot [h] carries the class [active]. *)
Definition is_active (h : nat) (s : state) : bool :=
  match hotspots s !! h with
  | Some el => ClassList.contains "active" (classList el)
  | None => false
  end.

(** Hidden, as in the specification's machine: there is a tooltip, it is
    not visible, no frame callback is queued and no delay is pending. *)
Definition Hidden (s : state) : Prop :=
  is_Some (tooltip s) ∧ visible s = false ∧ rafQueue s = 0 ∧ no_delay_pending s.

(** Every outstanding timer is a debounced resize or satisfies [Φ]. *)
Definition timers_are (Φ : timer → Prop) (s : state) : Prop :=
  ∀ t, t ∈ timers s → cb t = LaterCb ∨ Φ t.

(** Visible for [h]: the tooltip is visible, [h] is the associated hotspot
    and no hide delay is pending.  A show delay for [h] itself may be: the
    code starts one on every pointer-enter, also when [h] is shown already. *)
Definition VisibleFor (h : nat) (s : state) : Prop :=
  visible s = true ∧ activeHotspot s = Some h
  ∧ timers_are (λ t, ∃ e, cb t = ShowCb h e) s.

(** The handles in use are below the next one the browser will hand out. *)
Definition handles_fresh (s : state) : Prop :=
  (∀ t, t ∈ timers s → tid t < nextTimer s) ∧
  (∀ id, debounceTimeout s = Some id → id < nextTimer s).

(** Stretches of time in which no event arrives: only ticks and frames. *)
Definition idle (tr : list input) : Prop :=
  Forall (λ i, i = Tick ∨ i = Frame) tr.

Fixpoint elapsed (tr : list input) : nat :=
  match tr with
  | [] => 0
  | Tick :: tr => S (elapsed tr)
  | _ :: tr => elapsed tr
  end.

(** Stretches of time in which the pointer may move and the window may be
    resized or laid out anew, and nothing else happens. *)
Definition calm_input (i : input) : Prop :=
  match i with
  | Tick | Frame | MouseMove _ _ | Resize | Relayout _ => True
  | _ => False
  end.

Definition calm (tr : list input) : Prop := Forall calm_input tr.

(** The content the tooltip shows for a project: its title, its
    description, and one [span] of class [tech-tag] for each of its
    technology tags, in their order. *)
Definition shows (info : ProjectInfo) (s : state) : Prop :=
  ∃ t, tooltip s = Some t ∧
       titleEl t = Some (title info) ∧
       descriptionEl t = Some (description info) ∧
       techEl t
       = Some (String.concat ""
                 (map (λ tag, "<span class=" ++ dquote ++ "tech-tag" ++ dquote ++ ">"
                              ++ tag ++ "</span>")%string
                      (tech info))).

(** The tooltip has the three content children. *)
Definition has_content_slots (s : state) : Prop :=
  ∃ t, tooltip s = Some t ∧ is_Some (titleEl t) ∧ is_Some (descriptionEl t) ∧
       is_Some (techEl t).





(** Input sequences in which pointer-enter and pointer-leave take turns, on
    hotspots of a page that has [n] of them. *)
Inductive pointer := Unknown | Inside | Outside.

Fixpoint alternates (n : nat) (p : pointer) (tr : list input) : bool :=
  match tr with
  | [] => true
  | MouseEnter h _ :: tr =>
      match p with
      | Inside => false
      | _ => bool_decide (h < n) && alternates n Inside tr
      end
  | MouseLeave h _ :: tr =>
      match p with
      | Outside => false
      | _ => bool_decide (h < n) && alternates n Outside tr
      end
  | _ :: tr => alternates n p tr
  end.

(** The same page with its hotspots somewhere else. *)
Definition move_hotspots (g : nat → rect) (l : layout) : layout :=
  Layout (ontouchstart_in_window l) (maxTouchPoints l) (clientWidth l) (innerWidth l)
         (clientHeight l) (innerHeight l) (tooltipRect l) g.

(** The bottom sheet of the mobile branch. *)
Definition bottom_sheet (t : tooltip_el) : tooltip_el :=
  restyle ["tooltip"; "visible"; "bottom"]
    (Style (Some (percent 50)) (Some auto) (Some (px 20)) (Some translateX_minus50)) t.

(** The state [showTooltip] leaves when the project is registered and the
    tooltip, populated and positioned, has become [t]. *)
Definition shown (hotspot : nat) (t : tooltip_el) (s : state) : state :=
  set_hotspot_classList (ClassList.add "active") hotspot
    (requestAnimationFrame (set_tooltip (Some t) (set_activeHotspot (Some hotspot) s))).

(** The state [hideTooltip] leaves when there is a tooltip [t]. *)
Definition hidden (t : tooltip_el) (s : state) : state :=
  let s := set_tooltip
             (Some (restyle (ClassList.remove "visible" (className t)) (tstyle t) t)) s in
  let s := match activeHotspot s with
           | Some h => set_activeHotspot None
                         (set_hotspot_classList (ClassList.remove "active") h s)
           | None => s
           end in
  let s := clearTimeout (showTimeout s) s in
  clearTimeout (hideTimeout s) s.

(** The listener is an arrow function. *)
Definition is_arrow (l : listener) : Prop := ∃ i b, l_fn l = Arrow i b.

(** A pointer event at the given position of the viewport. *)
Definition pointer_at (x y : float) : dom_event := DomEvent x y false false.

(** ** Predicates the proofs go through *)

(** The state with the timers of the given handles cancelled. *)
Definition cancel (ids : list nat) (s : state) : state :=
  set_timers (filter (λ t, tid t ∉ ids) (timers s)) (nextTimer s) s.

(** What the tooltip displays: the five children the manager populates. *)
Definition tooltip_content : Type :=
  option string * option string * option string * option anchor * option anchor.

Definition content (s : state) : option tooltip_content :=
  (λ t, (titleEl t, descriptionEl t, techEl t, liveLink t, githubLink t)) <$> tooltip s.

(** Pending hide for [h]: visible, with hide timer [n] due at [D] and no
    other delay pending. *)
Definition PendingHide (h n D : nat) (s : state) : Prop :=
  visible s = true ∧ activeHotspot s = Some h ∧ hideTimeout s = Some n
  ∧ timers_are (λ t, tid t = n ∧ D ≤ due t) s.

(** Visible for [h] with hide timer [n] due at [D]; show requests for [h]
    may be pending too. *)
Definition Leaving (h n D : nat) (s : state) : Prop :=
  visible s = true ∧ activeHotspot s = Some h ∧ hideTimeout s = Some n
  ∧ timers_are (λ t, (∃ e, cb t = ShowCb h e) ∨ (tid t = n ∧ D ≤ due t)) s.

(** Visible for [a] with content [c], whatever is pending being due at [D]
    or later. *)
Definition Lingering (a : nat) (c : option tooltip_content) (D : nat) (s : state) : Prop :=
  visible s = true ∧ activeHotspot s = Some a ∧ content s = c
  ∧ timers_are (λ t, D ≤ due t) s.

(** Pending show: hidden, nothing queued for the next frame, show timer [n]
    due at [D]. *)
Definition PendingShow (n D : nat) (s : state) : Prop :=
  visible s = false ∧ rafQueue s = 0 ∧ showTimeout s = Some n
  ∧ timers_are (λ t, tid t = n ∧ D ≤ due t) s.

(** Hidden with at most hide requests pending. *)
Definition StayingHidden (s : state) : Prop :=
  visible s = false ∧ rafQueue s = 0 ∧ timers_are (λ t, cb t = HideCb) s.

(** The show timer [n] for [h] is outstanding among debounced resizes, no
    other timer has its handle, which the browser has handed out and the
    debounce closure does not hold; [h] is registered with [info] and the
    tooltip has its content children. *)
Definition Armed (h : nat) (e : dom_event) (n D : nat) (info : ProjectInfo)
    (s : state) : Prop :=
  (∃ ts1 ts2, timers s = ts1 ++ Timer n D (ShowCb h e) :: ts2
              ∧ Forall (λ t, cb t = LaterCb ∧ tid t ≠ n) (ts1 ++ ts2))
  ∧ n < nextTimer s
  ∧ debounceTimeout s ≠ Some n
  ∧ (∃ el, hotspots s !! h = Some el ∧ projectData s !! project_key el = Some info)
  ∧ has_content_slots s.

(** Shown for [h] with the content of [info], no delay pending. *)
Definition ShownFor (h : nat) (info : ProjectInfo) (s : state) : Prop :=
  visible s = true ∧ activeHotspot s = Some h ∧ shows info s ∧ no_delay_pending s.

(** [s'] is [s] after calls that start no timer and bind no listener: the
    handles, the listener table and the number of hotspots are the same, a
    tooltip that was there still is, and the outstanding timers are some of
    those of [s], in the same order. *)
Definition shrinks (s s' : state) : Prop :=
  showTimeout s' = showTimeout s ∧ hideTimeout s' = hideTimeout s
  ∧ nextTimer s' = nextTimer s ∧ debounceTimeout s' = debounceTimeout s
  ∧ listeners s' = listeners s ∧ length (hotspots s') = length (hotspots s)
  ∧ (is_Some (tooltip s) → is_Some (tooltip s'))
  ∧ timers s' `sublist_of` timers s.

(** The body of a registered arrow function. *)
Definition body_of (l : listener) : option arrow_body :=
  match l_fn l with
  | Arrow _ b => Some b
  | Method _ => None
  end.

(** The arrow functions registered for a target and a type, in order. *)
Definition bodies_for (tg : target) (ty : event_type) (ls : list listener)
    : list arrow_body :=
  omap body_of (filter (λ l, l_target l = tg ∧ l_type l = ty) ls).

(** What [bindEvents] registers for a target and a type on a page of [n]
    hotspots: per hotspot, and on the document and the window. *)
Definition hotspot_bodies (n : nat) (tg : target) (ty : event_type) : list arrow_body :=
  match tg with
  | Hotspot h =>
      if bool_decide (h < n) then
        match ty with
        | mouseenter => [CallMouseEnter h]
        | mouseleave => [CallMouseLeave h]
        | mousemove => [CallMouseMove h]
        | touchstart => [CallTouchStart h]
        | click => [CallClick h]
        | _ => []
        end
      else []
  | _ => []
  end.

Definition global_bodies (tg : target) (ty : event_type) : list arrow_body :=
  match tg, ty with
  | Document, click => [CallDocumentClick]
  | Window, scroll => [CallHideTooltip]
  | Window, resize => [Debounced]
  | _, _ => []
  end.

(** The listener table is the one [bindEvents] builds, once, for [n]
    hotspots. *)
Definition wired (n : nat) (s : state) : Prop :=
  Forall is_arrow (listeners s)
  ∧ ∀ tg ty, bodies_for tg ty (listeners s) = hotspot_bodies n tg ty ++ global_bodies tg ty.

Fixpoint call_bodies (bs : list arrow_body) (e : dom_event) (s : state) : state :=
  match bs with
  | [] => s
  | b :: bs => call_bodies bs e (state_of (call (Arrow 0 b) e s))
  end.

(** Every outstanding show-delay (hide-delay) timer is the one whose
    handle is in [this.showTimeout] ([this.hideTimeout]). *)
Definition tracked (s : state) : Prop :=
  ∀ t, t ∈ timers s →
    (is_kind show_delay t = true → showTimeout s = Some (tid t))
    ∧ (is_kind hide_delay t = true → hideTimeout s = Some (tid t)).

Definition none_of (k : timer_kind) (s : state) : Prop :=
  ∀ t, t ∈ timers s → is_kind k t = false.

(** What the last pointer event leaves pending: after an enter no hide
    delay, after a leave no show delay, before either neither. *)
Definition phase_ok (p : pointer) (s : state) : Prop :=
  match p with
  | Unknown => none_of show_delay s ∧ none_of hide_delay s
  | Inside => none_of hide_delay s
  | Outside => none_of show_delay s
  end.

Definition Inv (n : nat) (p : pointer) (s : state) : Prop :=
  wired n s ∧ length (hotspots s) = n ∧ tracked s
  ∧ NoDup (tid <$> timers s) ∧ (∀ t, t ∈ timers s → tid t < nextTimer s)
  ∧ phase_ok p s.

(** The arrow functions that start no timer. *)
Definition benign (b : arrow_body) : Prop :=
  match b with
  | CallMouseEnter _ | CallMouseLeave _ | Debounced => False
  | _ => True
  end.

(** ** Notions of the further properties *)

(** The manager that found no tooltip element: nothing bound, nothing
    queued, the hotspots [hs] untouched. *)
Definition Inert (hs : list hotspot_el) (s : state) : Prop :=
  tooltip s = None ∧ listeners s = [] ∧ timers s = [] ∧ rafQueue s = 0
  ∧ activeHotspot s = None ∧ hotspots s = hs
  ∧ console s = ["Tooltip element not found"].

(** The timer is the [later] of the debounce. *)
Definition is_later (t : timer) : bool :=
  match cb t with
  | LaterCb => true
  | _ => false
  end.

(** Handles are unique and fresh, and the only debounce timer outstanding
    is the one the closure of [utils.debounce] holds. *)
Definition Tidy (s : state) : Prop :=
  NoDup (tid <$> timers s)
  ∧ (∀ t, t ∈ timers s → tid t < nextTimer s)
  ∧ (∀ t, t ∈ timers s → is_later t = true → debounceTimeout s = Some (tid t)).

(** The hide timer [n] is the youngest timer and nothing can cancel it by
    accident; [h] is associated and no frame callback is queued. *)
Definition ArmedHide (h n D : nat) (s : state) : Prop :=
  (∃ ts, timers s = ts ++ [Timer n D HideCb]
         ∧ Forall (λ t, cb t = LaterCb ∧ tid t ≠ n) ts)
  ∧ debounceTimeout s ≠ Some n
  ∧ is_Some (tooltip s) ∧ activeHotspot s = Some h ∧ rafQueue s = 0.

(** Hidden after the hide delay: nothing associated, [h] not active, no
    delay pending, no frame callback queued. *)
Definition HiddenAfter (h : nat) (s : state) : Prop :=
  visible s = false ∧ rafQueue s = 0 ∧ activeHotspot s = None
  ∧ is_active h s = false ∧ no_delay_pending s.

(** ** utils.throttle (main.js) on its own *)

Module Throttle.
Section Throttle.

(** The arguments of a call, whether [func] throws on them, and [limit],
    an integer.  [func] itself does not call the throttled function. *)
Context {A : Type}.
Variable throws : A → bool.
Variable limit : Z.

(** The delay [setTimeout(f, limit)] waits, in milliseconds: its second
    argument is converted to a signed 32-bit integer, and what is negative
    after that counts as 0. *)
Definition delay : nat :=
  Z.to_nat (Z.max 0 ((limit + 2 ^ 31) mod 2 ^ 32 - 2 ^ 31)).

(** The closure of [utils.throttle(func, limit)] and what it queued:
    [inThrottle], the due times of the outstanding
    [setTimeout(() => inThrottle = false, limit)], the clock, and the calls
    of [func] so far with their times. *)
Record closure := Closure {
  inThrottle : bool;
  resets : list nat;
  clock : nat;
  ran : list (nat * A)
}.

Definition fresh : closure := Closure false [] 0 [].

(** A call of the returned function.  When [func.apply] throws, the
    statements after it do not run. *)
Definition call (a : A) (s : closure) : closure :=
  if inThrottle s then s
  else if throws a then Closure false (resets s) (clock s) (ran s ++ [(clock s, a)])
  else Closure true (resets s ++ [clock s + delay]) (clock s) (ran s ++ [(clock s, a)]).

(** One millisecond passes; each reset that is due clears the flag. *)
Definition tick (s : closure) : closure :=
  let now := S (clock s) in
  Closure (if bool_decide (Exists (λ d, d ≤ now) (resets s)) then false else inThrottle s)
          (filter (λ d, now < d) (resets s)) now (ran s).

Inductive event := Call (a : A) | Tick.

Definition step (ev : event) (s : closure) : closure :=
  match ev with
  | Call a => call a s
  | Tick => tick s
  end.

Fixpoint run (tr : list event) (s : closure) : closure :=
  match tr with
  | [] => s
  | ev :: tr => run tr (step ev s)
  end.

Fixpoint elapsed (tr : list event) : nat :=
  match tr with
  | [] => 0
  | Tick :: tr => S (elapsed tr)
  | _ :: tr => elapsed tr
  end.

(** Every run of [func] that returned is at least the delay before the
    clock, unless the flag is still set for it. *)
Definition Settled (s : closure) : Prop :=
  (inThrottle s = false → resets s = []
     ∧ ∀ t a, (t, a) ∈ ran s → throws a = false → t + delay ≤ clock s)
  ∧ (inThrottle s = true →
       ∃ d, resets s = [d] ∧ clock s < d + 1 ∧ d ≤ clock s + delay
            ∧ ∀ t a, (t, a) ∈ ran s → throws a = false → t + delay ≤ d)
  ∧ (∀ t a, (t, a) ∈ ran s → t ≤ clock s).


End Throttle.
End Throttle.

(** * Properties *)

(** ** Class lists and comparisons *)

Lemma contains_add c l : ClassList.contains c (ClassList.add c l) = true.
Proof.
  unfold ClassList.add. destruct (ClassList.contains c l) eqn:E; [done|].
  unfold ClassList.contains. apply bool_decide_eq_true. set_solver.
Qed.

Lemma contains_remove c l : ClassList.contains c (ClassList.remove c l) = false.
Proof.
  unfold ClassList.contains, ClassList.remove. apply bool_decide_eq_false.
  rewrite list_elem_of_filter. intros [Hne _]. by apply Hne.
Qed.

Lemma contains_add_mono c d l :
  ClassList.contains c l = true → ClassList.contains c (ClassList.add d l) = true.
Proof.
  unfold ClassList.add. destruct (ClassList.contains d l); [done|].
  unfold ClassList.contains. rewrite !bool_decide_eq_true. set_solver.
Qed.

(** ** A show request for an unregistered identifier *)

(** The guard of [showTooltip]: when the registry read gives [undefined]
    (no entry under the identifier, and no member of [Object.prototype] of
    that name), the call returns normally, having only written the
    diagnostic to the console. *)
Lemma showTooltip_undefined (s : state) (hotspot : nat) (e : dom_event)
    (el : hotspot_el) :
  hotspots s !! hotspot = Some el →
  projectData s !! project_key el = None →
  project_key el ∉ Object_prototype →
  showTooltip hotspot e s
  = Done (console_log ("Project data not found for: " ++ project_key el)%string s).
Proof.
  intros Hel Hmiss Hown. unfold showTooltip. rewrite Hel. cbn zeta.
  unfold registry_get. rewrite Hmiss. by rewrite bool_decide_eq_false_2.
Qed.

(** C4 (what the code does).  On the sample page with a hotspot whose
    [data-project] is "constructor", an identifier with no entry in the
    registry, [showTooltip] passes the guard: the read
    [window.projectData["constructor"]] finds the inherited member, which is
    truthy.  No diagnostic is written, the hotspot becomes the associated
    hotspot, title and description are blanked, and [populateTooltip] throws
    at [projectInfo.tech.map]; a touch on the hotspot leaves the manager in
    that state. *)
Theorem showTooltip_inherited_member :
  hotspots sample_inherited !! 0 = Some (HotspotEl (Some "constructor") ["project-hotspot"])
  ∧ projectData sample_inherited !! "constructor" = None
  ∧ activeHotspot sample_inherited = None
  ∧ (∃ s', showTooltip 0 no_event sample_inherited = Threw s' TypeError_undefined
           ∧ console s' = console sample_inherited
           ∧ activeHotspot s' = Some 0
           ∧ (titleEl <$> tooltip s') = Some (Some "")
           ∧ (descriptionEl <$> tooltip s') = Some (Some "")
           ∧ visible s' = false
           ∧ step (TouchStart 0 no_event) sample_inherited = s').
Proof.
  split; [reflexivity|]. split; [reflexivity|]. split; [reflexivity|].
  eexists. split; [vm_compute; reflexivity|].
  repeat split; vm_compute; reflexivity.
Qed.

(** ** Placement *)

(** C8.  On a touch-capable device, or in a viewport narrower than 768
    pixels, [positionTooltip] changes the tooltip element only and makes it
    the bottom sheet: horizontally centred ([left: 50%] with
    [translateX(-50%)]), a fixed 20 pixels above the bottom edge
    ([top: auto], [bottom: 20px]), class [tooltip visible bottom], its
    content untouched.  Wherever the hotspots are, the result is the same
    element. *)
Theorem positionTooltip_mobile (s : state) (hotspot : nat) (e : dom_event)
    (t : tooltip_el) :
  tooltip s = Some t →
  isTouchDevice (page s) = true
  ∨ (vp_width (getViewportSize (page s)) <? 768)%float = true →
  ∃ t',
    positionTooltip hotspot e s = set_tooltip (Some t') s
    ∧ className t' = ["tooltip"; "visible"; "bottom"]
    ∧ st_left (tstyle t') = Some (percent 50)
    ∧ st_transform (tstyle t') = Some translateX_minus50
    ∧ st_top (tstyle t') = Some auto
    ∧ st_bottom (tstyle t') = Some (px 20)
    ∧ titleEl t' = titleEl t ∧ descriptionEl t' = descriptionEl t
    ∧ techEl t' = techEl t ∧ liveLink t' = liveLink t ∧ githubLink t' = githubLink t
    ∧ ∀ g : nat → rect,
        tooltip (positionTooltip hotspot e (set_page (move_hotspots g (page s)) s))
        = Some t'.
Proof.
  intros Ht Hm.
  assert (Hc : isTouchDevice (page s)
               || (vp_width (getViewportSize (page s)) <? 768)%float = true).
  { destruct Hm as [Hm|Hm]; rewrite Hm; [done|apply orb_true_r]. }
  eexists. split.
  { unfold positionTooltip. rewrite Ht. cbn zeta. rewrite Hc. reflexivity. }
  do 10 (split; [reflexivity|]).
  intros g. unfold positionTooltip. cbn [tooltip set_page page].
  rewrite Ht. cbn zeta.
  change (isTouchDevice (move_hotspots g (page s))) with (isTouchDevice (page s)).
  change (getViewportSize (move_hotspots g (page s))) with (getViewportSize (page s)).
  by rewrite Hc.
Qed.

Lemma positionTooltip_mobile_witness :
  ∃ t',
    tooltip (positionTooltip 1 no_event (set_page sample_phone sample_state)) = Some t'
    ∧ className t' = ["tooltip"; "visible"; "bottom"]
    ∧ st_left (tstyle t') = Some (percent 50)
    ∧ st_bottom (tstyle t') = Some (px 20).
Proof.
  destruct (positionTooltip_mobile (set_page sample_phone sample_state) 1 no_event
              sample_tooltip)
    as (t' & Hp & Hc & Hl & _ & _ & Hb & _).
  - vm_compute. reflexivity.
  - left. vm_compute. reflexivity.
  - exists t'. rewrite Hp. split; [reflexivity|]. exact (conj Hc (conj Hl Hb)).
Defined.

Lemma visible_tooltip (s : state) :
  visible s = true → ∃ t, tooltip s = Some t ∧ ClassList.contains "visible" (className t) = true.
Proof. unfold visible. destruct (tooltip s) as [t|]; [eauto | done]. Qed.





(** ** What showing and hiding change *)

Lemma positionTooltip_spec (hotspot : nat) (e : dom_event) (s : state) (t : tooltip_el) :
  tooltip s = Some t →
  ∃ pos st, positionTooltip hotspot e s
            = set_tooltip (Some (restyle ["tooltip"; "visible"; pos] st t)) s.
Proof.
  intros Ht. unfold positionTooltip. rewrite Ht. cbn zeta.
  destruct (isTouchDevice (page s) || (_ <? _)%float); [by eexists _, _|].
  destruct (desktop_placement _ _ _) as [[l tp] pos]. by eexists _, _.
Qed.

Lemma showTooltip_registered (s : state) (hotspot : nat) (e : dom_event)
    (el : hotspot_el) (info : ProjectInfo) (t : tooltip_el) :
  hotspots s !! hotspot = Some el →
  projectData s !! project_key el = Some info →
  tooltip s = Some t →
  ∃ pos st,
    showTooltip hotspot e s
    = Done (shown hotspot
              (TooltipEl ["tooltip"; "visible"; pos] st
                 (titleEl t ≫= λ _, Some (title info))
                 (descriptionEl t ≫= λ _, Some (description info))
                 (techEl t ≫= λ _, Some (tech_html (tech info)))
                 (set_link (liveUrl info) <$> liveLink t)
                 (set_link (githubUrl info) <$> githubLink t)) s).
Proof.
  intros Hel Hinfo Ht. unfold showTooltip. rewrite Hel. cbn zeta.
  unfold registry_get. rewrite Hinfo.
  unfold populateTooltip. cbn [tooltip set_activeHotspot]. rewrite Ht.
  cbn [and_then].
  edestruct (positionTooltip_spec hotspot e) as (pos & st & ->); [reflexivity|].
  by exists pos, st.
Qed.

Lemma hideTooltip_spec (s : state) (t : tooltip_el) :
  tooltip s = Some t → hideTooltip s = hidden t s.
Proof. intros Ht. unfold hideTooltip, hidden. rewrite Ht. reflexivity. Qed.

Lemma visible_hidden (t : tooltip_el) (s : state) : visible (hidden t s) = false.
Proof.
  unfold hidden, visible. cbn zeta.
  destruct (activeHotspot _), (showTimeout _), (hideTimeout _); cbn;
    apply contains_remove.
Qed.

Lemma is_active_shown_other (a b : nat) (t : tooltip_el) (s : state) :
  a ≠ b → is_active a (shown b t s) = is_active a s.
Proof.
  intros Hne. unfold is_active, shown, set_hotspot_classList. cbn.
  by rewrite list_lookup_alter_ne.
Qed.

Lemma is_active_shown (b : nat) (t : tooltip_el) (s : state) :
  b < length (hotspots s) → is_active b (shown b t s) = true.
Proof.
  intros Hlt. unfold is_active, shown, set_hotspot_classList. cbn.
  rewrite list_lookup_alter_eq.
  destruct (lookup_lt_is_Some_2 (hotspots s) b Hlt) as [el ->]. cbn.
  apply contains_add.
Qed.

(** ** Switching hotspots while visible *)

(** Showing a registered hotspot [b] leaves the class list of every other
    hotspot alone, the previously associated one included. *)
Lemma showTooltip_keeps_other_active (s : state) (a b : nat) (e : dom_event)
    (el : hotspot_el) (info : ProjectInfo) :
  hotspots s !! b = Some el →
  projectData s !! project_key el = Some info →
  is_Some (tooltip s) →
  a ≠ b →
  is_active a (state_of (showTooltip b e s)) = is_active a s
  ∧ is_active b (state_of (showTooltip b e s)) = true
  ∧ activeHotspot (state_of (showTooltip b e s)) = Some b.
Proof.
  intros Hel Hinfo [t Ht] Hne.
  destruct (showTooltip_registered s b e el info t Hel Hinfo Ht) as (pos & st & ->).
  cbn [state_of]. split; [by apply is_active_shown_other|]. split; [|done].
  apply is_active_shown. by eapply lookup_lt_Some.
Qed.

(** C1 (what the code does).  On the sample page, a click on hotspot 0 and
    then a click on hotspot 1 leaves the tooltip visible for hotspot 1 while
    both hotspots carry [active]: [showTooltip] overwrites
    [this.activeHotspot] without removing the class from the hotspot it
    pointed to, and no later call can remove it, since [hideTooltip] only
    clears the hotspot [this.activeHotspot] points to. *)
Theorem click_other_hotspot_keeps_both_active :
  visible (run [Click 0 no_event] sample_state) = true
  ∧ activeHotspot (run [Click 0 no_event] sample_state) = Some 0
  ∧ visible (run [Click 0 no_event; Click 1 no_event] sample_state) = true
  ∧ activeHotspot (run [Click 0 no_event; Click 1 no_event] sample_state) = Some 1
  ∧ is_active 0 (run [Click 0 no_event; Click 1 no_event] sample_state) = true
  ∧ is_active 1 (run [Click 0 no_event; Click 1 no_event] sample_state) = true
  ∧ is_active 0 (run [Click 0 no_event; Click 1 no_event; Scroll] sample_state) = true.
Proof. vm_compute. repeat split. Qed.

(** ** Teardown *)

Lemma state_eta (s : state) :
  State (tooltip s) (hotspots s) (activeHotspot s) (hideTimeout s) (showTimeout s)
        (listeners s) (nextFn s) (timers s) (nextTimer s) (now s) (rafQueue s)
        (debounceTimeout s) (console s) (projectData s) (page s) = s.
Proof. by destruct s. Qed.

Lemma filter_keeps_all {A} (P : A → Prop) `{∀ x, Decision (P x)} (l : list A) :
  Forall P l → filter P l = l.
Proof.
  induction 1 as [|x l Hx _ IH]; [done|].
  rewrite filter_cons_True by done. by rewrite IH.
Qed.

(** [removeEventListener] called with a method finds no registration to
    remove when only arrow functions were registered. *)
Lemma removeEventListener_method (tg : target) (ty : event_type) (m : method) (s : state) :
  Forall is_arrow (listeners s) →
  removeEventListener tg ty (Method m) s = s.
Proof.
  intros Harr. unfold removeEventListener, set_listeners.
  rewrite filter_keeps_all; [apply state_eta|].
  eapply Forall_impl; [exact Harr|].
  intros l (i & b & Hfn) ->. discriminate.
Qed.

Lemma unbind_hotspot_nothing (s : state) (hotspot : nat) :
  Forall is_arrow (listeners s) → unbind_hotspot s hotspot = s.
Proof.
  intros Harr. unfold unbind_hotspot. cbn zeta.
  by repeat rewrite (removeEventListener_method _ _ _ s Harr).
Qed.

Lemma listeners_clearTimeout (h : option nat) (s : state) :
  listeners (clearTimeout h s) = listeners s.
Proof. by destruct h. Qed.

Lemma listeners_hideTooltip (s : state) : listeners (hideTooltip s) = listeners s.
Proof.
  unfold hideTooltip. destruct (tooltip s); [|done]. cbn zeta.
  rewrite !listeners_clearTimeout. by destruct (activeHotspot _).
Qed.

(** Teardown amounts to [hideTooltip]: none of its [removeEventListener]
    calls names a function that was registered. *)
Lemma destroy_removes_nothing (s : state) :
  Forall is_arrow (listeners s) → destroy s = hideTooltip s.
Proof.
  intros Harr. unfold destroy.
  assert (Hh : Forall is_arrow (listeners (hideTooltip s)))
    by by rewrite listeners_hideTooltip.
  revert Hh. generalize (hideTooltip s) as s'. intros s' Harr'.
  assert (Hfold : ∀ l, fold_left unbind_hotspot l s' = s').
  { induction l as [|i l IH]; [done|]. cbn. by rewrite unbind_hotspot_nothing. }
  cbn zeta. rewrite Hfold.
  by repeat rewrite (removeEventListener_method _ _ _ s' Harr').
Qed.

(** C2 (what the code does).  On the sample page [destroy] removes none of
    the eighteen listeners [bindEvents] registered.  After it, a click on a
    hotspot still runs [handleClick] and shows the tooltip, a pointer-enter
    still starts a show-delay timer, and that timer fires 300 ms later and
    shows the tooltip. *)
Theorem destroy_leaves_listeners :
  length (listeners sample_state) = 18
  ∧ listeners (run [Destroy] sample_state) = listeners sample_state
  ∧ visible (run [Destroy; Click 0 no_event] sample_state) = true
  ∧ length (outstanding_of show_delay (run [Destroy; MouseEnter 0 no_event] sample_state)) = 1
  ∧ visible (run (Destroy :: MouseEnter 0 no_event :: repeat Tick 300) sample_state) = true.
Proof. vm_compute. repeat split. Qed.

(** ** Timers, ticks and frames *)

Lemma cancel_nil s : cancel [] s = s.
Proof.
  unfold cancel, set_timers. rewrite filter_keeps_all; [apply state_eta|].
  apply Forall_forall. intros t _. apply not_elem_of_nil.
Qed.

Lemma cancel_cancel ids1 ids2 s : cancel ids2 (cancel ids1 s) = cancel (ids1 ++ ids2) s.
Proof.
  unfold cancel, set_timers. cbn. f_equal.
  rewrite list_filter_filter. apply list_filter_iff. intros t.
  rewrite elem_of_app. tauto.
Qed.

Lemma clearTimeout_cancel h s : clearTimeout h s = cancel (option_list h) s.
Proof.
  destruct h as [id|]; [|by rewrite cancel_nil].
  unfold clearTimeout, cancel. f_equal. apply list_filter_iff. intros t. cbn.
  rewrite list_elem_of_singleton. tauto.
Qed.

Lemma state_of_update_none s : state_of (updateTooltipPosition None s) = s.
Proof.
  unfold updateTooltipPosition. destruct (activeHotspot s); [|done].
  destruct (tooltip s); [|done]. by destruct (negb _).
Qed.

Lemma fire_cases t s :
  fire t s = s ∨ fire t s = state_of (run_callback (cb t) (clearTimeout (Some (tid t)) s)).
Proof. unfold fire. destruct (outstanding _ _); auto. Qed.

Lemma fire_later t s :
  cb t = LaterCb →
  ∃ ids, fire t s = cancel ids s ∧ ∀ id, id ∈ ids → id = tid t ∨ debounceTimeout s = Some id.
Proof.
  intros Hcb. destruct (fire_cases t s) as [->| ->].
  - exists []. rewrite cancel_nil. split; [done|]. intros id Hin. by apply elem_of_nil in Hin.
  - rewrite Hcb. cbn [run_callback]. rewrite state_of_update_none.
    rewrite !clearTimeout_cancel, cancel_cancel. eexists. split; [reflexivity|].
    intros id. rewrite elem_of_app. cbn. rewrite list_elem_of_singleton.
    intros [->|Hin]; [by left|]. right.
    destruct (debounceTimeout s) as [d|]; cbn in Hin.
    + apply list_elem_of_singleton in Hin. by subst.
    + by apply elem_of_nil in Hin.
Qed.

Lemma fire_all_inv (P : state → Prop) (Φ : timer → Prop) ready s :
  Forall Φ ready →
  (∀ t s', Φ t → P s' → P (fire t s')) →
  P s → P (fire_all ready s).
Proof.
  intros Hready Hfire. revert s.
  induction Hready as [|t ready Ht _ IH]; intros s Hs; [done|].
  cbn. apply IH. by apply Hfire.
Qed.

Lemma tick_inv (P : state → Prop) (Φ : timer → Prop) s :
  (∀ t, t ∈ timers s → due t ≤ S (now s) → Φ t) →
  (∀ t s', Φ t → P s' → P (fire t s')) →
  P (set_now (S (now s)) s) → P (tick s).
Proof.
  intros Hready Hfire Hs. unfold tick. cbn zeta.
  apply (fire_all_inv P Φ); [|done|done].
  apply Forall_forall. intros t [Hdue Hin]%list_elem_of_filter. by apply Hready.
Qed.

(** The ways a call of [showTooltip] can end: no such hotspot; the
    diagnostic; no tooltip element; an inherited member, thrown on at
    [tech.map]; shown. *)
Lemma showTooltip_cases (h : nat) (e : dom_event) (s : state) :
  state_of (showTooltip h e s) = s
  ∨ (∃ msg, state_of (showTooltip h e s) = console_log msg s)
  ∨ (tooltip s = None ∧ state_of (showTooltip h e s) = set_activeHotspot (Some h) s)
  ∨ (∃ t t1, tooltip s = Some t ∧ className t1 = className t
             ∧ (is_Some (titleEl t) → is_Some (titleEl t1))
             ∧ (is_Some (descriptionEl t) → is_Some (descriptionEl t1))
             ∧ (is_Some (techEl t) → is_Some (techEl t1))
             ∧ state_of (showTooltip h e s)
               = set_tooltip (Some t1) (set_activeHotspot (Some h) s))
  ∨ (∃ t' pos, className t' = ["tooltip"; "visible"; pos]
               ∧ state_of (showTooltip h e s) = shown h t' s).
Proof.
  destruct (hotspots s !! h) as [el|] eqn:Hel.
  2: { left. unfold showTooltip. by rewrite Hel. }
  destruct (registry_get (projectData s) (project_key el)) as [v|] eqn:Hv.
  2: { right; left. eexists. unfold showTooltip. rewrite Hel. cbn zeta.
       by rewrite Hv. }
  destruct (tooltip s) as [t|] eqn:Ht.
  2: { right; right; left. split; [done|].
       unfold showTooltip. rewrite Hel. cbn zeta. rewrite Hv.
       unfold populateTooltip. cbn [tooltip set_activeHotspot]. by rewrite Ht. }
  unfold showTooltip. rewrite Hel. cbn zeta. rewrite Hv.
  unfold populateTooltip. cbn [tooltip set_activeHotspot]. rewrite Ht.
  destruct v as [info|].
  - right; right; right; right. cbn [and_then].
    edestruct (positionTooltip_spec h e) as (pos & st & ->); [reflexivity|].
    eexists _, pos. split; [|reflexivity]. reflexivity.
  - destruct (techEl t) as [html|] eqn:Htech.
    + right; right; right; left.
      exists t, (TooltipEl (className t) (tstyle t)
                   (titleEl t ≫= λ _, Some ""%string)
                   (descriptionEl t ≫= λ _, Some ""%string)
                   (Some html) (liveLink t) (githubLink t)).
      cbn. repeat split; try done; try (intros [x ->]; by eexists).
    + right; right; right; right. cbn [and_then].
      edestruct (positionTooltip_spec h e) as (pos & st & ->); [reflexivity|].
      eexists _, pos. split; [|reflexivity]. reflexivity.
Qed.

Lemma now_clearTimeout h s : now (clearTimeout h s) = now s.
Proof. by destruct h. Qed.

Lemma now_hideTooltip s : now (hideTooltip s) = now s.
Proof.
  unfold hideTooltip. destruct (tooltip s); [|done]. cbn zeta.
  rewrite !now_clearTimeout. by destruct (activeHotspot _).
Qed.

Lemma now_showTooltip h e s : now (state_of (showTooltip h e s)) = now s.
Proof.
  destruct (showTooltip_cases h e s)
    as [-> | [[msg ->] | [[_ ->] | [(t & t1 & _ & _ & _ & _ & _ & ->) | (t' & pos & _ & ->)]]]];
    reflexivity.
Qed.

Lemma now_fire t s : now (fire t s) = now s.
Proof.
  destruct (fire_cases t s) as [->| ->]; [done|].
  destruct (cb t); cbn [run_callback state_of].
  - by rewrite now_showTooltip.
  - by rewrite now_hideTooltip.
  - by rewrite state_of_update_none, now_clearTimeout.
Qed.

Lemma now_fire_all ready s : now (fire_all ready s) = now s.
Proof.
  revert s. induction ready as [|t ready IH]; intros s; [done|].
  cbn. by rewrite IH, now_fire.
Qed.

Lemma now_tick s : now (tick s) = S (now s).
Proof. unfold tick. cbn zeta. by rewrite now_fire_all. Qed.

Lemma now_frame s : now (frame s) = now s.
Proof. unfold frame. destruct (rafQueue s); [done|]. by destruct (tooltip s). Qed.

Lemma now_run_idle tr s : idle tr → now (run tr s) = now s + elapsed tr.
Proof.
  intros Hidle. revert s.
  induction Hidle as [|i tr [->| ->] _ IH]; intros s; cbn [run step elapsed].
  - lia.
  - rewrite IH, now_tick. lia.
  - by rewrite IH, now_frame.
Qed.

(** A property the clock does not touch, kept by every tick before the
    deadline [D] and by every frame, holds throughout an idle stretch that
    ends before [D]. *)
Lemma run_idle_before (P : state → Prop) (D : nat) tr s :
  (∀ s, P s → S (now s) < D → P (tick s)) →
  (∀ s, P s → P (frame s)) →
  idle tr → P s → now s + elapsed tr < D → P (run tr s).
Proof.
  intros Htick Hframe Hidle. revert s.
  induction Hidle as [|i tr [->| ->] _ IH]; intros s Hs Hlt;
    cbn [run step elapsed] in *.
  - done.
  - apply IH; [apply Htick; [done|lia]|]. rewrite now_tick. lia.
  - apply IH; [by apply Hframe|]. by rewrite now_frame.
Qed.

Lemma run_idle_always (P : state → Prop) tr s :
  (∀ s, P s → P (tick s)) →
  (∀ s, P s → P (frame s)) →
  idle tr → P s → P (run tr s).
Proof.
  intros Htick Hframe Hidle. revert s.
  induction Hidle as [|i tr [->| ->] _ IH]; intros s Hs; cbn [run step]; auto.
Qed.

Lemma filter_none {A} (P : A → Prop) `{∀ x, Decision (P x)} (l : list A) :
  Forall (λ x, ¬ P x) l → filter P l = [].
Proof.
  induction 1 as [|x l Hx _ IH]; [done|].
  by rewrite filter_cons_False.
Qed.

Lemma timers_are_cancel Φ ids s : timers_are Φ s → timers_are Φ (cancel ids s).
Proof.
  intros H t Hin. apply H. unfold cancel in Hin. cbn in Hin.
  by apply list_elem_of_filter in Hin as [_ Hin].
Qed.

Lemma timers_are_impl (Φ Ψ : timer → Prop) s :
  (∀ t, Φ t → Ψ t) → timers_are Φ s → timers_are Ψ s.
Proof. intros HΦ H t Hin. destruct (H t Hin); auto. Qed.

(** Before the deadline [D] of the timers that are not debounced resizes, a
    tick keeps whatever cancelling timers and moving the clock keep. *)
Lemma tick_before (P : state → Prop) (D : nat) s :
  (∀ s ids, P s → P (cancel ids s)) →
  (∀ s k, P s → P (set_now k s)) →
  timers_are (λ t, D ≤ due t) s →
  S (now s) < D → P s → P (tick s).
Proof.
  intros Hcancel Hnow Hshape Hlt Hs.
  apply (tick_inv P (λ t, cb t = LaterCb)).
  - intros t Hin Hdue. destruct (Hshape t Hin) as [?|?]; [done|lia].
  - intros t s' Hcb Hs'. destruct (fire_later t s' Hcb) as (ids & -> & _).
    by apply Hcancel.
  - by apply Hnow.
Qed.

Lemma visible_frame s : visible s = true → visible (frame s) = true.
Proof.
  unfold frame, visible. destruct (rafQueue s); [done|].
  destruct (tooltip s) as [t|]; [|done]. cbn. apply contains_add_mono.
Qed.

Lemma PendingHide_frame h n D s : PendingHide h n D s → PendingHide h n D (frame s).
Proof.
  intros (Hv & Ha & Hh & Ht). split; [by apply visible_frame|].
  unfold frame. destruct (rafQueue s); [done|]. by destruct (tooltip s).
Qed.

Lemma handleMouseLeave_PendingHide e h s :
  visible s = true → activeHotspot s = Some h → no_delay_pending s →
  PendingHide h (nextTimer s) (now s + hideDelay) (handleMouseLeave e h s).
Proof.
  intros Hv Ha Ht. unfold handleMouseLeave.
  rewrite clearTimeout_cancel. cbn. repeat split; try done.
  intros t [Hin|Hin]%elem_of_app.
  - left. apply Ht. by apply list_elem_of_filter in Hin as [_ Hin].
  - apply list_elem_of_singleton in Hin as ->. right. cbn. lia.
Qed.

Lemma visible_class pos : ClassList.contains "visible" ["tooltip"; "visible"; pos] = true.
Proof. apply bool_decide_eq_true. set_solver. Qed.

(** A debounced resize or a show request for [h] that fires keeps whatever
    cancelling timers, logging, and showing [h] keep, in visible states. *)
Lemma fire_while_visible (P : state → Prop) h t s :
  cb t = LaterCb ∨ (∃ e, cb t = ShowCb h e) →
  (∀ s ids, P s → P (cancel ids s)) →
  (∀ s msg, P s → P (console_log msg s)) →
  (∀ s t', P s → ClassList.contains "visible" (className t') = true → P (shown h t' s)) →
  (∀ s t t1, P s → tooltip s = Some t → className t1 = className t →
             P (set_tooltip (Some t1) (set_activeHotspot (Some h) s))) →
  (∀ s, P s → visible s = true) →
  P s → P (fire t s).
Proof.
  intros Hcb Hcancel Hlog Hshown Hthrown Hvis HP.
  destruct Hcb as [Hcb|[e Hcb]].
  { destruct (fire_later t s Hcb) as (ids & -> & _). by apply Hcancel. }
  destruct (fire_cases t s) as [-> | ->]; [done|].
  rewrite Hcb, clearTimeout_cancel. cbn [run_callback].
  specialize (Hcancel s (option_list (Some (tid t))) HP).
  revert Hcancel. generalize (cancel (option_list (Some (tid t))) s). clear HP.
  intros s1 HP.
  destruct (showTooltip_cases h e s1)
    as [-> | [[msg ->] | [[Hnone _] | [(t0 & t1 & Ht0 & Hc & _ & _ & _ & ->)
                                      | (t' & pos & Hc & ->)]]]].
  - done.
  - by apply Hlog.
  - apply Hvis in HP. unfold visible in HP. by rewrite Hnone in HP.
  - by apply (Hthrown s1 t0 t1).
  - apply Hshown; [done|]. rewrite Hc. apply visible_class.
Qed.

Lemma VisibleFor_fire h t s :
  cb t = LaterCb ∨ (∃ e, cb t = ShowCb h e) → VisibleFor h s → VisibleFor h (fire t s).
Proof.
  intros Hcb. apply (fire_while_visible (VisibleFor h) h); [done|..].
  - intros s' ids (Hv & Ha & Ht). repeat split; try done. by apply timers_are_cancel.
  - by intros s' msg (Hv & Ha & Ht).
  - by intros s' t' (Hv & Ha & Ht) Hc.
  - intros s' t0 t1 (Hv & Ha & Ht) Htip Hc. split; [|done].
    unfold visible in *. rewrite Htip in Hv. cbn. by rewrite Hc.
  - by intros s' (Hv & _).
Qed.

Lemma VisibleFor_tick h s : VisibleFor h s → VisibleFor h (tick s).
Proof.
  intros HP.
  apply (tick_inv (VisibleFor h) (λ t, cb t = LaterCb ∨ ∃ e, cb t = ShowCb h e)).
  - intros t Hin _. destruct HP as (_ & _ & Ht). by apply Ht.
  - intros t s'. apply VisibleFor_fire.
  - done.
Qed.

Lemma VisibleFor_frame h s : VisibleFor h s → VisibleFor h (frame s).
Proof.
  intros (Hv & Ha & Ht). split; [by apply visible_frame|].
  unfold frame. destruct (rafQueue s); [done|]. by destruct (tooltip s).
Qed.

Lemma Leaving_fire h n D t s :
  cb t = LaterCb ∨ (∃ e, cb t = ShowCb h e) → Leaving h n D s → Leaving h n D (fire t s).
Proof.
  intros Hcb. apply (fire_while_visible (Leaving h n D) h); [done|..].
  - intros s' ids (Hv & Ha & Hh & Ht). repeat split; try done.
    by apply timers_are_cancel.
  - by intros s' msg (Hv & Ha & Hh & Ht).
  - by intros s' t' (Hv & Ha & Hh & Ht) Hc.
  - intros s' t0 t1 (Hv & Ha & Hh & Ht) Htip Hc. split; [|done].
    unfold visible in *. rewrite Htip in Hv. cbn. by rewrite Hc.
  - by intros s' (Hv & _).
Qed.

Lemma Leaving_tick h n D s : Leaving h n D s → S (now s) < D → Leaving h n D (tick s).
Proof.
  intros HP Hlt.
  apply (tick_inv (Leaving h n D) (λ t, cb t = LaterCb ∨ ∃ e, cb t = ShowCb h e)).
  - intros t Hin Hdue. destruct HP as (_ & _ & _ & Ht).
    destruct (Ht t Hin) as [?|[?|[_ ?]]]; [by left|by right|lia].
  - intros t s'. apply Leaving_fire.
  - done.
Qed.

Lemma Leaving_frame h n D s : Leaving h n D s → Leaving h n D (frame s).
Proof.
  intros (Hv & Ha & Hh & Ht). split; [by apply visible_frame|].
  unfold frame. destruct (rafQueue s); [done|]. by destruct (tooltip s).
Qed.

Lemma handleMouseLeave_Leaving e h s :
  VisibleFor h s →
  Leaving h (nextTimer s) (now s + hideDelay) (handleMouseLeave e h s).
Proof.
  intros (Hv & Ha & Ht). unfold handleMouseLeave.
  rewrite clearTimeout_cancel. cbn. repeat split; try done.
  intros t [Hin|Hin]%elem_of_app.
  - apply list_elem_of_filter in Hin as [_ Hin].
    destruct (Ht t Hin) as [?|?]; [by left|by right; left].
  - apply list_elem_of_singleton in Hin as ->. right; right. cbn. lia.
Qed.

Lemma handleMouseEnter_VisibleFor e h n D s :
  Leaving h n D s →
  VisibleFor h (handleMouseEnter e h s)
  ∧ outstanding_of hide_delay (handleMouseEnter e h s) = [].
Proof.
  intros (Hv & Ha & Hh & Ht).
  assert (Hshape : ∀ t, t ∈ timers (handleMouseEnter e h s) →
                        cb t = LaterCb ∨ ∃ e', cb t = ShowCb h e').
  { unfold handleMouseEnter. rewrite Hh. cbn.
    intros t [Hin|Hin]%elem_of_app.
    - apply list_elem_of_filter in Hin as [Hne Hin].
      destruct (Ht t Hin) as [?|[?|[? _]]]; [by left | by right | done].
    - apply list_elem_of_singleton in Hin as ->. right. by exists e. }
  split.
  - split; [|split].
    + unfold handleMouseEnter. by destruct (hideTimeout s).
    + unfold handleMouseEnter. by destruct (hideTimeout s).
    + exact Hshape.
  - unfold outstanding_of. apply filter_none. apply Forall_forall.
    intros t Hin. unfold is_kind. by destruct (Hshape t Hin) as [-> | [e' ->]].
Qed.

Lemma idle_ticks n : idle (ticks n).
Proof. apply Forall_forall. intros i Hin. left. by apply elem_of_replicate in Hin as [-> _]. Qed.

Lemma elapsed_ticks n : elapsed (ticks n) = n.
Proof.
  unfold ticks. induction n as [|n IH]; [done|].
  cbn [replicate elapsed]. by rewrite IH.
Qed.

Lemma sample_shown_visible : VisibleFor 0 sample_shown ∧ no_delay_pending sample_shown.
Proof.
  split; [split; [|split]|]; try (vm_compute; reflexivity).
  - intros t Hin. vm_compute in Hin. by apply elem_of_nil in Hin.
  - intros t Hin. vm_compute in Hin. by apply elem_of_nil in Hin.
Qed.

Lemma sample_state_hidden :
  Hidden sample_state ∧ handles_fresh sample_state ∧ has_content_slots sample_state.
Proof.
  split; [|split].
  - split; [by eexists|]. split; [vm_compute; reflexivity|].
    split; [vm_compute; reflexivity|].
    intros t Hin. vm_compute in Hin. by apply elem_of_nil in Hin.
  - split.
    + intros t Hin. vm_compute in Hin. by apply elem_of_nil in Hin.
    + intros id Hid. vm_compute in Hid. discriminate.
  - exists sample_tooltip. split; [vm_compute; reflexivity|]. by repeat split.
Qed.

(** ** Leaving and re-entering the active hotspot *)

(** C6.  Let the tooltip be visible for hotspot [h], with no hide delay
    pending.  After a pointer-leave of [h], an idle stretch of less than
    150 ms and a pointer-enter of [h], the hide timer is cancelled: no
    hide-delay timer is outstanding.  The tooltip is visible with [h]
    associated at every moment of the stretch before the re-enter, and
    after the re-enter for as long as nothing else happens: the state is
    again visible for [h]. *)
Theorem reenter_keeps_visible (s : state) (h : nat) (e1 e2 : dom_event)
    (tr1 tr2 : list input) :
  VisibleFor h s →
  idle tr1 → elapsed tr1 < hideDelay → idle tr2 →
  visible (run tr1 (handleMouseLeave e1 h s)) = true
  ∧ activeHotspot (run tr1 (handleMouseLeave e1 h s)) = Some h
  ∧ outstanding_of hide_delay
      (handleMouseEnter e2 h (run tr1 (handleMouseLeave e1 h s))) = []
  ∧ visible (run tr2 (handleMouseEnter e2 h (run tr1 (handleMouseLeave e1 h s)))) = true
  ∧ activeHotspot (run tr2 (handleMouseEnter e2 h (run tr1 (handleMouseLeave e1 h s))))
    = Some h
  ∧ VisibleFor h (run tr2 (handleMouseEnter e2 h (run tr1 (handleMouseLeave e1 h s)))).
Proof.
  intros Hvis Hi1 Hlt Hi2.
  pose proof (handleMouseLeave_Leaving e1 h s Hvis) as H0.
  assert (H1 : Leaving h (nextTimer s) (now s + hideDelay)
                 (run tr1 (handleMouseLeave e1 h s))).
  { apply (run_idle_before _ (now s + hideDelay)); try done.
    - intros s'. apply Leaving_tick.
    - intros s'. apply Leaving_frame.
    - replace (now (handleMouseLeave e1 h s)) with (now s); [lia|].
      unfold handleMouseLeave. by destruct (showTimeout s). }
  destruct (handleMouseEnter_VisibleFor e2 h _ _ _ H1) as [H2 Hnone].
  assert (H3 : VisibleFor h
                 (run tr2 (handleMouseEnter e2 h (run tr1 (handleMouseLeave e1 h s))))).
  { apply run_idle_always; try done.
    - intros s'. apply VisibleFor_tick.
    - intros s'. apply VisibleFor_frame. }
  destruct H1 as (? & ? & _). pose proof H3 as (? & ? & _). done.
Qed.

Lemma reenter_keeps_visible_witness :
  visible (run (ticks 1000)
             (handleMouseEnter no_event 0
                (run (ticks 149) (handleMouseLeave no_event 0 sample_shown)))) = true.
Proof.
  refine (proj1 (proj2 (proj2 (proj2
            (reenter_keeps_visible sample_shown 0 no_event no_event (ticks 149) (ticks 1000)
               (proj1 sample_shown_visible) (idle_ticks 149) _ (idle_ticks 1000)))))).
  rewrite elapsed_ticks. unfold hideDelay. lia.
Defined.

Lemma quiet_run (P : state → Prop) (D : nat) tr s :
  (∀ s ids, P s → P (cancel ids s)) →
  (∀ s k, P s → P (set_now k s)) →
  (∀ s, P s → P (frame s)) →
  (∀ s, P s → timers_are (λ t, D ≤ due t) s) →
  idle tr → P s → now s + elapsed tr < D → P (run tr s).
Proof.
  intros Hcancel Hnow Hframe Hshape. apply run_idle_before; [|done].
  intros s' Hs' Hlt. apply (tick_before P D); auto.
Qed.

Lemma content_frame s : content (frame s) = content s.
Proof.
  unfold frame. destruct (rafQueue s); [done|].
  unfold content. destruct (tooltip s) as [t|] eqn:E; cbn; [done|by rewrite E].
Qed.

Lemma activeHotspot_frame s : activeHotspot (frame s) = activeHotspot s.
Proof. unfold frame. destruct (rafQueue s); [done|]. by destruct (tooltip s). Qed.

Lemma timers_frame s : timers (frame s) = timers s.
Proof. unfold frame. destruct (rafQueue s); [done|]. by destruct (tooltip s). Qed.

Lemma Lingering_run a c D tr s :
  idle tr → Lingering a c D s → now s + elapsed tr < D → Lingering a c D (run tr s).
Proof.
  apply (quiet_run (Lingering a c D) D).
  - intros s' ids (Hv & Ha & Hc & Ht). repeat split; try done.
    by apply timers_are_cancel.
  - by intros s' k (Hv & Ha & Hc & Ht).
  - intros s' (Hv & Ha & Hc & Ht). split; [by apply visible_frame|].
    rewrite activeHotspot_frame, content_frame. repeat split; try done.
    intros t. rewrite timers_frame. apply Ht.
  - by intros s' (_ & _ & _ & Ht).
Qed.

Lemma PendingHide_run h n D c tr s :
  idle tr → PendingHide h n D s ∧ content s = c → now s + elapsed tr < D →
  PendingHide h n D (run tr s) ∧ content (run tr s) = c.
Proof.
  apply (quiet_run (λ s, PendingHide h n D s ∧ content s = c) D).
  - intros s' ids [(Hv & Ha & Hh & Ht) Hc]. repeat split; try done.
    by apply timers_are_cancel.
  - by intros s' k [(Hv & Ha & Hh & Ht) Hc].
  - intros s' [HP Hc]. split; [by apply PendingHide_frame|]. by rewrite content_frame.
  - intros s' [(_ & _ & _ & Ht) _]. eapply timers_are_impl; [|exact Ht]. by intros t [_ ?].
Qed.

Lemma now_handleMouseLeave e h s : now (handleMouseLeave e h s) = now s.
Proof. unfold handleMouseLeave. by destruct (showTimeout s). Qed.

Lemma now_handleMouseEnter e h s : now (handleMouseEnter e h s) = now s.
Proof. unfold handleMouseEnter. by destruct (hideTimeout s). Qed.

Lemma content_handleMouseLeave e h s : content (handleMouseLeave e h s) = content s.
Proof. unfold handleMouseLeave. by destruct (showTimeout s). Qed.

Lemma handleMouseEnter_Lingering e a b n D c s :
  PendingHide a n D s → content s = c →
  Lingering a c (now s + showDelay) (handleMouseEnter e b s)
  ∧ outstanding_of hide_delay (handleMouseEnter e b s) = [].
Proof.
  intros (Hv & Ha & Hh & Ht) Hc.
  assert (Hshape : ∀ t, t ∈ timers (handleMouseEnter e b s) →
                        cb t = LaterCb ∨ (cb t = ShowCb b e ∧ due t = now s + showDelay)).
  { unfold handleMouseEnter. rewrite Hh. cbn.
    intros t [Hin|Hin]%elem_of_app.
    - apply list_elem_of_filter in Hin as [Hne Hin].
      destruct (Ht t Hin) as [?|[? _]]; [by left | done].
    - apply list_elem_of_singleton in Hin as ->. by right. }
  split.
  - unfold Lingering.
    replace (visible (handleMouseEnter e b s)) with (visible s)
      by (unfold handleMouseEnter; by destruct (hideTimeout s)).
    replace (activeHotspot (handleMouseEnter e b s)) with (activeHotspot s)
      by (unfold handleMouseEnter; by destruct (hideTimeout s)).
    replace (content (handleMouseEnter e b s)) with (content s)
      by (unfold handleMouseEnter; by destruct (hideTimeout s)).
    repeat split; try done.
    intros t Hin. destruct (Hshape t Hin) as [?|[_ ->]]; [by left|by right].
  - unfold outstanding_of. apply filter_none. apply Forall_forall.
    intros t Hin. unfold is_kind. by destruct (Hshape t Hin) as [-> | [-> _]].
Qed.

(** ** Moving on to another hotspot *)

(** C10.  Let the tooltip be visible for hotspot [a] with no delay pending.
    After a pointer-leave of [a], an idle stretch of less than 150 ms and a
    pointer-enter of any hotspot [b], no hide-delay timer is outstanding:
    the enter cancelled the one the leave of [a] had started.  For the next
    300 ms, as long as nothing else happens, the tooltip stays visible,
    [a] stays the associated hotspot, and the tooltip displays what it
    displayed for [a]. *)
Theorem enter_other_keeps_previous (s : state) (a b : nat) (e1 e2 : dom_event)
    (tr1 tr2 : list input) :
  VisibleFor a s → no_delay_pending s →
  idle tr1 → elapsed tr1 < hideDelay →
  idle tr2 → elapsed tr2 < showDelay →
  outstanding_of hide_delay
    (handleMouseEnter e2 b (run tr1 (handleMouseLeave e1 a s))) = []
  ∧ visible (run tr2 (handleMouseEnter e2 b (run tr1 (handleMouseLeave e1 a s)))) = true
  ∧ activeHotspot (run tr2 (handleMouseEnter e2 b (run tr1 (handleMouseLeave e1 a s))))
    = Some a
  ∧ content (run tr2 (handleMouseEnter e2 b (run tr1 (handleMouseLeave e1 a s))))
    = content s.
Proof.
  intros (Hv & Ha & _) Hnone0 Hi1 Hlt1 Hi2 Hlt2.
  pose proof (handleMouseLeave_PendingHide e1 a s Hv Ha Hnone0) as H0.
  destruct (PendingHide_run a (nextTimer s) (now s + hideDelay) (content s) tr1
              (handleMouseLeave e1 a s) Hi1) as [H1 Hc1].
  { split; [done|]. apply content_handleMouseLeave. }
  { rewrite now_handleMouseLeave. lia. }
  destruct (handleMouseEnter_Lingering e2 a b _ _ _ _ H1 Hc1) as [H2 Hnone].
  split; [done|].
  eapply (Lingering_run _ _ _ tr2) in H2; [|done|].
  - by destruct H2 as (? & ? & ? & _).
  - rewrite now_handleMouseEnter. lia.
Qed.

Lemma enter_other_keeps_previous_witness :
  activeHotspot (run (ticks 299)
                   (handleMouseEnter no_event 1
                      (run (ticks 100) (handleMouseLeave no_event 0 sample_shown))))
  = Some 0.
Proof.
  refine (proj1 (proj2 (proj2
            (enter_other_keeps_previous sample_shown 0 1 no_event no_event
               (ticks 100) (ticks 299)
               (proj1 sample_shown_visible) (proj2 sample_shown_visible)
               (idle_ticks 100) _ (idle_ticks 299) _)))).
  - rewrite elapsed_ticks. unfold hideDelay. lia.
  - rewrite elapsed_ticks. unfold showDelay. lia.
Defined.

Lemma frame_idle s : rafQueue s = 0 → frame s = s.
Proof. intros H. unfold frame. by rewrite H. Qed.

Lemma PendingShow_run n D tr s :
  idle tr → PendingShow n D s → now s + elapsed tr < D → PendingShow n D (run tr s).
Proof.
  apply (quiet_run (PendingShow n D) D).
  - intros s' ids (Hv & Hr & Hs & Ht). repeat split; try done.
    by apply timers_are_cancel.
  - by intros s' k (Hv & Hr & Hs & Ht).
  - intros s' HP. rewrite frame_idle; [done|]. by destruct HP as (_ & ? & _).
  - intros s' (_ & _ & _ & Ht). eapply timers_are_impl; [|exact Ht]. by intros t [_ ?].
Qed.

Lemma handleMouseEnter_PendingShow e h s :
  Hidden s → PendingShow (nextTimer s) (now s + showDelay) (handleMouseEnter e h s).
Proof.
  intros (_ & Hv & Hr & Ht). unfold handleMouseEnter.
  rewrite clearTimeout_cancel. cbn. repeat split; try done.
  intros t [Hin|Hin]%elem_of_app.
  - left. apply Ht. by apply list_elem_of_filter in Hin as [_ Hin].
  - apply list_elem_of_singleton in Hin as ->. right. cbn. lia.
Qed.

Lemma handleMouseLeave_StayingHidden e h n D s :
  PendingShow n D s →
  StayingHidden (handleMouseLeave e h s)
  ∧ outstanding_of show_delay (handleMouseLeave e h s) = [].
Proof.
  intros (Hv & Hr & Hs & Ht).
  assert (Hshape : ∀ t, t ∈ timers (handleMouseLeave e h s) →
                        cb t = LaterCb ∨ cb t = HideCb).
  { unfold handleMouseLeave. rewrite Hs. cbn.
    intros t [Hin|Hin]%elem_of_app.
    - apply list_elem_of_filter in Hin as [Hne Hin].
      destruct (Ht t Hin) as [?|[? _]]; [by left | done].
    - apply list_elem_of_singleton in Hin as ->. by right. }
  split.
  - unfold StayingHidden.
    replace (visible (handleMouseLeave e h s)) with (visible s)
      by (unfold handleMouseLeave; by destruct (showTimeout s)).
    replace (rafQueue (handleMouseLeave e h s)) with (rafQueue s)
      by (unfold handleMouseLeave; by destruct (showTimeout s)).
    done.
  - unfold outstanding_of. apply filter_none. apply Forall_forall.
    intros t Hin. unfold is_kind. by destruct (Hshape t Hin) as [-> | ->].
Qed.

Lemma hideTooltip_cases s :
  (tooltip s = None ∧ hideTooltip s = s) ∨ (∃ t, tooltip s = Some t ∧ hideTooltip s = hidden t s).
Proof.
  destruct (tooltip s) as [t|] eqn:Ht.
  - right. exists t. split; [done|]. by apply hideTooltip_spec.
  - left. split; [done|]. unfold hideTooltip. by rewrite Ht.
Qed.

Lemma timers_hidden t s x : x ∈ timers (hidden t s) → x ∈ timers s.
Proof.
  unfold hidden. cbn zeta. rewrite !clearTimeout_cancel. cbn.
  intros [_ [_ Hin]%list_elem_of_filter]%list_elem_of_filter.
  by destruct (activeHotspot _).
Qed.

Lemma rafQueue_hidden t s : rafQueue (hidden t s) = rafQueue s.
Proof.
  unfold hidden. cbn zeta. rewrite !clearTimeout_cancel. cbn.
  by destruct (activeHotspot _).
Qed.

Lemma StayingHidden_fire t s :
  cb t = LaterCb ∨ cb t = HideCb → StayingHidden s → StayingHidden (fire t s).
Proof.
  intros Hcb HP.
  assert (Hc : ∀ ids, StayingHidden (cancel ids s)).
  { intros ids. destruct HP as (Hv & Hr & Ht). repeat split; try done.
    by apply timers_are_cancel. }
  destruct Hcb as [Hcb|Hcb].
  { destruct (fire_later t s Hcb) as (ids & -> & _). apply Hc. }
  destruct (fire_cases t s) as [-> | ->]; [done|].
  rewrite Hcb, clearTimeout_cancel. cbn [run_callback state_of].
  specialize (Hc (option_list (Some (tid t)))).
  revert Hc. generalize (cancel (option_list (Some (tid t))) s). clear HP.
  intros s1 (Hv & Hr & Ht).
  destruct (hideTooltip_cases s1) as [[_ ->] | (t0 & _ & ->)]; [done|].
  split; [apply visible_hidden|]. split; [by rewrite rafQueue_hidden|].
  intros x Hin. apply Ht. by eapply timers_hidden.
Qed.

Lemma StayingHidden_run tr s : idle tr → StayingHidden s → StayingHidden (run tr s).
Proof.
  apply run_idle_always.
  - intros s' HP.
    apply (tick_inv StayingHidden (λ t, cb t = LaterCb ∨ cb t = HideCb)).
    + intros t Hin _. destruct HP as (_ & _ & Ht). by apply Ht.
    + intros t s''. apply StayingHidden_fire.
    + done.
  - intros s' HP. rewrite frame_idle; [done|]. by destruct HP as (_ & ? & _).
Qed.

Lemma fire_all_app l1 l2 s : fire_all (l1 ++ l2) s = fire_all l2 (fire_all l1 s).
Proof. revert s. induction l1 as [|t l1 IH]; intros s; [done|]. cbn. apply IH. Qed.

Lemma has_content_slots_frame s : has_content_slots s → has_content_slots (frame s).
Proof.
  intros (t & Ht & Hs). unfold frame. destruct (rafQueue s); [by exists t|].
  rewrite Ht. by eexists.
Qed.

Lemma shows_frame info s : shows info s → shows info (frame s).
Proof.
  intros (t & Ht & Hs). unfold frame. destruct (rafQueue s); [by exists t|].
  rewrite Ht. by eexists.
Qed.

Lemma shrinks_refl s : shrinks s s.
Proof. by repeat split. Qed.

Lemma shrinks_trans s1 s2 s3 : shrinks s1 s2 → shrinks s2 s3 → shrinks s1 s3.
Proof.
  intros (A1 & A2 & A3 & A4 & A5 & A6 & A7 & A8) (B1 & B2 & B3 & B4 & B5 & B6 & B7 & B8).
  repeat split; try congruence; [auto|]. by etrans.
Qed.

Lemma shrinks_cancel ids s : shrinks s (cancel ids s).
Proof. repeat split; try done. apply sublist_filter. Qed.

Lemma shrinks_clearTimeout h s : shrinks s (clearTimeout h s).
Proof. rewrite clearTimeout_cancel. apply shrinks_cancel. Qed.

Lemma shrinks_showTooltip h e s : shrinks s (state_of (showTooltip h e s)).
Proof.
  destruct (showTooltip_cases h e s)
    as [-> | [[msg ->] | [[Hnone ->] | [(t & t1 & _ & _ & _ & _ & _ & ->)
                                       | (t' & pos & _ & ->)]]]].
  - apply shrinks_refl.
  - by repeat split.
  - by repeat split.
  - by repeat split.
  - repeat split; try done. cbn. by rewrite length_alter.
Qed.

Lemma shrinks_hideTooltip s : shrinks s (hideTooltip s).
Proof.
  destruct (hideTooltip_cases s) as [[_ ->] | (t & _ & ->)]; [apply shrinks_refl|].
  unfold hidden. cbn zeta.
  eapply shrinks_trans; [|apply shrinks_clearTimeout].
  eapply shrinks_trans; [|apply shrinks_clearTimeout].
  destruct (activeHotspot _); repeat split; try done.
  cbn. by rewrite length_alter.
Qed.

Lemma shrinks_updateTooltipPosition ev s :
  shrinks s (state_of (updateTooltipPosition ev s)).
Proof.
  unfold updateTooltipPosition. destruct (activeHotspot s); [|apply shrinks_refl].
  destruct (tooltip s) as [t|] eqn:Ht; [|apply shrinks_refl].
  destruct (negb _); [apply shrinks_refl|].
  destruct ev as [e|]; [|apply shrinks_refl].
  destruct (negb _); [|apply shrinks_refl].
  destruct (follow_position _ _ _). by repeat split.
Qed.

Lemma shrinks_handleMouseMove e h s : shrinks s (state_of (handleMouseMove e h s)).
Proof.
  unfold handleMouseMove. destruct (active_and_visible h s) as [[|]|];
    [apply shrinks_updateTooltipPosition | apply shrinks_refl | apply shrinks_refl].
Qed.

Lemma shrinks_handleClick e h s : shrinks s (state_of (handleClick e h s)).
Proof.
  unfold handleClick. destruct (active_and_visible h s) as [[|]|];
    [apply shrinks_hideTooltip | apply shrinks_showTooltip | apply shrinks_refl].
Qed.

Lemma shrinks_handleDocumentClick e s : shrinks s (state_of (handleDocumentClick e s)).
Proof.
  unfold handleDocumentClick. destruct (tooltip s); [|apply shrinks_refl].
  destruct (_ && _); [apply shrinks_hideTooltip | apply shrinks_refl].
Qed.

Lemma shrinks_fire t s : shrinks s (fire t s).
Proof.
  destruct (fire_cases t s) as [-> | ->]; [apply shrinks_refl|].
  eapply shrinks_trans; [apply shrinks_clearTimeout|].
  destruct (cb t); cbn [run_callback state_of].
  - apply shrinks_showTooltip.
  - apply shrinks_hideTooltip.
  - eapply shrinks_trans; [apply shrinks_clearTimeout|].
    apply shrinks_updateTooltipPosition.
Qed.

Lemma shrinks_tick s : shrinks s (tick s).
Proof.
  unfold tick. cbn zeta. generalize (filter (λ t, due t ≤ now (set_now (S (now s)) s))
                                       (timers (set_now (S (now s)) s))).
  intros ready. eapply shrinks_trans with (set_now (S (now s)) s); [by repeat split|].
  generalize (set_now (S (now s)) s). induction ready as [|t ready IH]; intros s'.
  - apply shrinks_refl.
  - cbn. eapply shrinks_trans; [apply shrinks_fire|apply IH].
Qed.

Lemma shrinks_frame s : shrinks s (frame s).
Proof.
  unfold frame. destruct (rafQueue s); [apply shrinks_refl|].
  destruct (tooltip s) eqn:Ht; by repeat split.
Qed.

(** *** The listener table after [bindEvents] *)

Lemma bodies_for_add tg ty tg' ty' b s :
  bodies_for tg ty (listeners (addEventListener tg' ty' b s))
  = bodies_for tg ty (listeners s)
    ++ (if bool_decide (tg' = tg ∧ ty' = ty) then [b] else []).
Proof.
  unfold bodies_for, addEventListener. cbn [listeners set_listeners].
  rewrite filter_app, omap_app. f_equal.
  case_bool_decide as H.
  - by rewrite filter_cons_True.
  - by rewrite filter_cons_False.
Qed.

Lemma arrows_add tg ty b s :
  Forall is_arrow (listeners s) → Forall is_arrow (listeners (addEventListener tg ty b s)).
Proof.
  intros H. unfold addEventListener. cbn. apply Forall_app. split; [done|].
  apply Forall_singleton. by eexists _, _.
Qed.

Lemma bodies_for_bind_hotspot tg ty k s :
  bodies_for tg ty (listeners (bind_hotspot s k))
  = bodies_for tg ty (listeners s)
    ++ (if bool_decide (tg = Hotspot k) then
          match ty with
          | mouseenter => [CallMouseEnter k]
          | mouseleave => [CallMouseLeave k]
          | mousemove => [CallMouseMove k]
          | touchstart => [CallTouchStart k]
          | click => [CallClick k]
          | _ => []
          end
        else []).
Proof.
  unfold bind_hotspot. cbn zeta. rewrite !bodies_for_add, <- !app_assoc. f_equal.
  destruct (decide (tg = Hotspot k)) as [->|Hne].
  - rewrite (bool_decide_eq_true_2 (Hotspot k = Hotspot k)) by done.
    destruct ty; repeat case_bool_decide; naive_solver.
  - rewrite (bool_decide_eq_false_2 (tg = Hotspot k)) by done.
    repeat case_bool_decide; naive_solver.
Qed.

Lemma arrows_bind_hotspot k s :
  Forall is_arrow (listeners s) → Forall is_arrow (listeners (bind_hotspot s k)).
Proof. intros H. unfold bind_hotspot. cbn zeta. by repeat apply arrows_add. Qed.

Lemma bind_hotspots_spec n s :
  Forall is_arrow (listeners s) →
  Forall is_arrow (listeners (fold_left bind_hotspot (seq 0 n) s))
  ∧ ∀ tg ty, bodies_for tg ty (listeners (fold_left bind_hotspot (seq 0 n) s))
             = bodies_for tg ty (listeners s) ++ hotspot_bodies n tg ty.
Proof.
  intros Harr. induction n as [|n [IHa IHb]].
  - split; [done|]. intros tg ty. cbn. destruct tg; by rewrite ?app_nil_r.
  - rewrite seq_S, fold_left_app. cbn [fold_left Nat.add]. split.
    + by apply arrows_bind_hotspot.
    + intros tg ty. rewrite bodies_for_bind_hotspot, IHb, <- app_assoc. f_equal.
      unfold hotspot_bodies. destruct tg as [h| |].
      * destruct (decide (h = n)) as [->|Hne];
          destruct ty; repeat case_bool_decide; simplify_eq; try lia; done.
      * by rewrite bool_decide_eq_false_2.
      * by rewrite bool_decide_eq_false_2.
Qed.

Lemma bindEvents_wired s :
  listeners s = [] → wired (length (hotspots s)) (bindEvents s).
Proof.
  intros Hnil. unfold bindEvents. cbn zeta.
  destruct (bind_hotspots_spec (length (hotspots s)) s) as [Ha Hb];
    [by rewrite Hnil|].
  split.
  - by repeat apply arrows_add.
  - intros tg ty. rewrite !bodies_for_add, Hb, Hnil.
    change (bodies_for tg ty []) with (@nil arrow_body). cbn [app].
    rewrite <- !app_assoc. f_equal.
    destruct tg, ty; done.
Qed.

Lemma call_all_bodies ls e s :
  Forall is_arrow ls → call_all ls e s = call_bodies (omap body_of ls) e s.
Proof.
  intros Harr. revert s. induction Harr as [|l ls (i & b & Hfn) _ IH]; intros s; [done|].
  cbn. unfold body_of at 1. rewrite Hfn. cbn. rewrite IH.
  by destruct b.
Qed.

Lemma dispatch_wired n tg ty e s :
  wired n s →
  dispatch tg ty e s = call_bodies (hotspot_bodies n tg ty ++ global_bodies tg ty) e s.
Proof.
  intros [Harr Hb]. unfold dispatch, listeners_for.
  rewrite call_all_bodies.
  - by rewrite <- Hb.
  - apply Forall_forall. intros l [_ Hin]%list_elem_of_filter.
    by apply (proj1 (Forall_forall _ _) Harr).
Qed.

(** *** The invariant of alternating runs *)

Lemma none_of_sub k s s' :
  timers s' `sublist_of` timers s → none_of k s → none_of k s'.
Proof. intros Hsub H t Hin. apply H. by eapply elem_of_sublist. Qed.

Lemma Inv_shrinks n p s s' : Inv n p s → shrinks s s' → Inv n p s'.
Proof.
  intros ([Harr Hw] & Hlen & Htr & Hnd & Hfr & Hph)
         (A1 & A2 & A3 & A4 & A5 & A6 & A7 & A8).
  split; [|split; [|split; [|split; [|split]]]].
  - unfold wired. by rewrite A5.
  - congruence.
  - intros t Hin. rewrite A1, A2. apply Htr. by eapply elem_of_sublist.
  - eapply sublist_NoDup; [exact Hnd|]. by apply fmap_sublist.
  - intros t Hin. rewrite A3. apply Hfr. by eapply elem_of_sublist.
  - destruct p; cbn in *; [destruct Hph; split|..]; by eapply none_of_sub.
Qed.

Lemma shrinks_call_benign i b e s : benign b → shrinks s (state_of (call (Arrow i b) e s)).
Proof.
  destruct b; cbn; try done; intros _.
  - apply shrinks_handleMouseMove.
  - apply shrinks_showTooltip.
  - apply shrinks_handleClick.
  - apply shrinks_handleDocumentClick.
  - apply shrinks_hideTooltip.
Qed.

Lemma shrinks_call_bodies bs e s : Forall benign bs → shrinks s (call_bodies bs e s).
Proof.
  intros Hb. revert s. induction Hb as [|b bs Hb _ IH]; intros s; [apply shrinks_refl|].
  cbn [call_bodies]. eapply shrinks_trans; [by apply shrinks_call_benign|apply IH].
Qed.

Lemma wired_shrinks n s s' : wired n s → shrinks s s' → wired n s'.
Proof. intros Hw (_ & _ & _ & _ & Hl & _). unfold wired. by rewrite Hl. Qed.

Lemma benign_bodies n tg ty :
  ty ≠ mouseenter → ty ≠ mouseleave → ty ≠ resize →
  Forall benign (hotspot_bodies n tg ty ++ global_bodies tg ty).
Proof.
  intros H1 H2 H3. apply Forall_app. split.
  - unfold hotspot_bodies. destruct tg; [|done..].
    case_bool_decide; [|done]. destruct ty; by repeat constructor.
  - destruct tg, ty; by repeat constructor.
Qed.

Lemma shrinks_dispatch n tg ty e s :
  wired n s → ty ≠ mouseenter → ty ≠ mouseleave → ty ≠ resize →
  shrinks s (dispatch tg ty e s).
Proof.
  intros Hw H1 H2 H3. rewrite (dispatch_wired n) by done.
  apply shrinks_call_bodies. by apply benign_bodies.
Qed.

Lemma shrinks_dispatch_click n h e s : wired n s → shrinks s (dispatch_click h e s).
Proof.
  intros Hw. unfold dispatch_click. cbn zeta.
  assert (Hs : shrinks s (call_all (listeners_for (Hotspot h) click s) e s)).
  { apply (shrinks_dispatch n (Hotspot h) click e s); done. }
  destruct (existsb _ _); [done|].
  eapply shrinks_trans; [exact Hs|].
  apply (shrinks_dispatch n); try done. by eapply wired_shrinks.
Qed.

Lemma shrinks_destroy n s : wired n s → shrinks s (destroy s).
Proof. intros [Harr _]. rewrite destroy_removes_nothing by done. apply shrinks_hideTooltip. Qed.

Lemma tracked_at_most_one s :
  tracked s → NoDup (tid <$> timers s) → at_most_one_per_kind s.
Proof.
  intros Htr Hnd k. unfold outstanding_of.
  assert (Hsub : filter (λ t, is_kind k t = true) (timers s) `sublist_of` timers s)
    by apply sublist_filter.
  assert (Hnd' : NoDup (tid <$> filter (λ t, is_kind k t = true) (timers s))).
  { eapply sublist_NoDup; [exact Hnd|]. by apply fmap_sublist. }
  assert (Hall : ∀ t, t ∈ filter (λ t, is_kind k t = true) (timers s) →
                      match k with
                      | show_delay => showTimeout s
                      | hide_delay => hideTimeout s
                      end = Some (tid t)).
  { intros t [Hk Hin]%list_elem_of_filter. destruct (Htr t Hin) as [Hs Hh].
    destruct k; auto. }
  destruct (filter _ (timers s)) as [|a [|b l]]; cbn; [lia|lia|].
  exfalso.
  assert (Ha := Hall a ltac:(set_solver)). assert (Hb := Hall b ltac:(set_solver)).
  rewrite Ha in Hb. injection Hb as Hab.
  cbn in Hnd'. rewrite Hab in Hnd'. apply NoDup_cons in Hnd' as [Hnin _].
  apply Hnin. set_solver.
Qed.

Lemma Inv_enter n p e h s :
  p ≠ Inside → Inv n p s → Inv n Inside (handleMouseEnter e h s).
Proof.
  intros Hp (Hw & Hlen & Htr & Hnd & Hfr & Hph).
  assert (Hnoshow : none_of show_delay s) by (destruct p; cbn in Hph; tauto).
  unfold handleMouseEnter. rewrite clearTimeout_cancel.
  split; [|split; [|split; [|split; [|split]]]]; cbn.
  - exact Hw.
  - exact Hlen.
  - intros t [[Hnin Hin]%list_elem_of_filter | ->%list_elem_of_singleton]%elem_of_app.
    + split.
      * intros Hk. by rewrite (Hnoshow t Hin) in Hk.
      * intros Hk. destruct (Htr t Hin) as [_ Hh]. exfalso. apply Hnin.
        rewrite (Hh Hk). cbn. set_solver.
    + by split.
  - rewrite fmap_app. apply NoDup_app. split; [|split].
    + eapply sublist_NoDup; [exact Hnd|]. apply fmap_sublist, sublist_filter.
    + intros x Hx Hx'. cbn in Hx'. apply list_elem_of_singleton in Hx' as ->.
      apply list_elem_of_fmap in Hx as (t & Heq & [_ Hin]%list_elem_of_filter).
      specialize (Hfr t Hin). lia.
    + cbn. apply NoDup_singleton.
  - intros t [[_ Hin]%list_elem_of_filter | ->%list_elem_of_singleton]%elem_of_app.
    + specialize (Hfr t Hin). lia.
    + cbn. lia.
  - intros t [[Hnin Hin]%list_elem_of_filter | ->%list_elem_of_singleton]%elem_of_app.
    + destruct (is_kind hide_delay t) eqn:Hk; [|done].
      destruct (Htr t Hin) as [_ Hh]. exfalso. apply Hnin.
      rewrite (Hh Hk). cbn. set_solver.
    + done.
Qed.

Lemma Inv_leave n p e h s :
  p ≠ Outside → Inv n p s → Inv n Outside (handleMouseLeave e h s).
Proof.
  intros Hp (Hw & Hlen & Htr & Hnd & Hfr & Hph).
  assert (Hnohide : none_of hide_delay s) by (destruct p; cbn in Hph; tauto).
  unfold handleMouseLeave. rewrite clearTimeout_cancel.
  split; [|split; [|split; [|split; [|split]]]]; cbn.
  - exact Hw.
  - exact Hlen.
  - intros t [[Hnin Hin]%list_elem_of_filter | ->%list_elem_of_singleton]%elem_of_app.
    + split.
      * intros Hk. destruct (Htr t Hin) as [Hs _]. exfalso. apply Hnin.
        rewrite (Hs Hk). cbn. set_solver.
      * intros Hk. by rewrite (Hnohide t Hin) in Hk.
    + by split.
  - rewrite fmap_app. apply NoDup_app. split; [|split].
    + eapply sublist_NoDup; [exact Hnd|]. apply fmap_sublist, sublist_filter.
    + intros x Hx Hx'. cbn in Hx'. apply list_elem_of_singleton in Hx' as ->.
      apply list_elem_of_fmap in Hx as (t & Heq & [_ Hin]%list_elem_of_filter).
      specialize (Hfr t Hin). lia.
    + cbn. apply NoDup_singleton.
  - intros t [[_ Hin]%list_elem_of_filter | ->%list_elem_of_singleton]%elem_of_app.
    + specialize (Hfr t Hin). lia.
    + cbn. lia.
  - intros t [[Hnin Hin]%list_elem_of_filter | ->%list_elem_of_singleton]%elem_of_app.
    + destruct (is_kind show_delay t) eqn:Hk; [|done].
      destruct (Htr t Hin) as [Hs _]. exfalso. apply Hnin.
      rewrite (Hs Hk). cbn. set_solver.
    + done.
Qed.

Lemma Inv_resize n p s : Inv n p s → Inv n p (debounced_call s).
Proof.
  intros (Hw & Hlen & Htr & Hnd & Hfr & Hph).
  unfold debounced_call. rewrite clearTimeout_cancel.
  assert (Hnone : ∀ k, none_of k s →
            none_of k (set_debounceTimeout (Some (nextTimer s))
              (set_timers
                 (timers (cancel (option_list (debounceTimeout s)) s)
                  ++ [Timer (nextTimer s) (now s + 250) LaterCb])
                 (S (nextTimer s)) (cancel (option_list (debounceTimeout s)) s)))).
  { intros k Hk t. cbn.
    intros [[_ Hin]%list_elem_of_filter | ->%list_elem_of_singleton]%elem_of_app.
    - by apply Hk.
    - by destruct k. }
  split; [|split; [|split; [|split; [|split]]]]; cbn.
  - exact Hw.
  - exact Hlen.
  - intros t [[Hnin Hin]%list_elem_of_filter | ->%list_elem_of_singleton]%elem_of_app.
    + by apply Htr.
    + by split.
  - rewrite fmap_app. apply NoDup_app. split; [|split].
    + eapply sublist_NoDup; [exact Hnd|]. apply fmap_sublist, sublist_filter.
    + intros x Hx Hx'. cbn in Hx'. apply list_elem_of_singleton in Hx' as ->.
      apply list_elem_of_fmap in Hx as (t & Heq & [_ Hin]%list_elem_of_filter).
      specialize (Hfr t Hin). lia.
    + cbn. apply NoDup_singleton.
  - intros t [[_ Hin]%list_elem_of_filter | ->%list_elem_of_singleton]%elem_of_app.
    + specialize (Hfr t Hin). lia.
    + cbn. lia.
  - destruct p; cbn in Hph |- *; [destruct Hph; split|..]; by apply Hnone.
Qed.

Lemma step_Inv n p i tr s :
  Inv n p s → alternates n p (i :: tr) = true →
  ∃ p', Inv n p' (step i s) ∧ alternates n p' tr = true.
Proof.
  intros HI Halt. pose proof HI as (Hw & _).
  destruct i; cbn [alternates step] in *.
  - assert (Hp : p ≠ Inside) by (by intros ->).
    assert (Hh : bool_decide (hotspot < n) = true ∧ alternates n Inside tr = true)
      by (destruct p; try done; by apply andb_true_iff).
    destruct Hh as [Hh Halt']. exists Inside. split; [|done].
    rewrite (dispatch_wired n) by done. unfold hotspot_bodies. rewrite Hh.
    cbn [global_bodies app call_bodies call state_of]. by apply (Inv_enter n p).
  - assert (Hp : p ≠ Outside) by (by intros ->).
    assert (Hh : bool_decide (hotspot < n) = true ∧ alternates n Outside tr = true)
      by (destruct p; try done; by apply andb_true_iff).
    destruct Hh as [Hh Halt']. exists Outside. split; [|done].
    rewrite (dispatch_wired n) by done. unfold hotspot_bodies. rewrite Hh.
    cbn [global_bodies app call_bodies call state_of]. by apply (Inv_leave n p).
  - exists p. split; [|done]. eapply Inv_shrinks; [done|]. by apply (shrinks_dispatch n).
  - exists p. split; [|done]. eapply Inv_shrinks; [done|]. by apply (shrinks_dispatch n).
  - exists p. split; [|done]. eapply Inv_shrinks; [done|]. by apply (shrinks_dispatch_click n).
  - exists p. split; [|done]. eapply Inv_shrinks; [done|]. by apply (shrinks_dispatch n).
  - exists p. split; [|done]. eapply Inv_shrinks; [done|]. by apply (shrinks_dispatch n).
  - exists p. split; [|done]. rewrite (dispatch_wired n) by done.
    cbn [hotspot_bodies global_bodies app call_bodies call state_of].
    by apply Inv_resize.
  - exists p. split; [|done]. eapply Inv_shrinks; [done|]. apply shrinks_tick.
  - exists p. split; [|done]. eapply Inv_shrinks; [done|]. apply shrinks_frame.
  - exists p. split; [|done]. eapply Inv_shrinks; [done|]. by repeat split.
  - exists p. split; [|done]. eapply Inv_shrinks; [done|]. by apply (shrinks_destroy n).
Qed.

Lemma run_Inv n tr p s :
  Inv n p s → alternates n p tr = true → ∃ p', Inv n p' (run tr s).
Proof.
  revert p s. induction tr as [|i tr IH]; intros p s HI Halt; [by exists p|].
  destruct (step_Inv n p i tr s HI Halt) as (p' & HI' & Halt').
  cbn [run]. by apply (IH p').
Qed.

Lemma bindEvents_only_listeners s :
  ∃ ls k, bindEvents s = set_listeners ls k s.
Proof.
  unfold bindEvents. cbn zeta.
  assert (H : ∀ l s0, ∃ ls k, fold_left bind_hotspot l s0 = set_listeners ls k s0).
  { induction l as [|i l IH]; intros s0.
    - exists (listeners s0), (nextFn s0). cbn. by destruct s0.
    - cbn [fold_left]. destruct (IH (bind_hotspot s0 i)) as (ls & k & ->).
      by exists ls, k. }
  destruct (H (seq 0 (length (hotspots s))) s) as (ls & k & ->).
  by eexists _, _.
Qed.

Lemma Inv_new tip hs data l :
  Inv (length hs) Unknown (new_TooltipManager (Some tip) hs data l).
Proof.
  unfold new_TooltipManager, init. cbn [tooltip set_hotspots set_tooltip].
  set (s0 := set_hotspots hs (set_tooltip (Some tip)
               (State None [] None None None [] 0 [] 1 0 0 None [] data l))).
  pose proof (bindEvents_wired s0 eq_refl) as Hw.
  destruct (bindEvents_only_listeners s0) as (ls & k & Hb). rewrite Hb in *.
  split; [|split; [|split; [|split; [|split]]]].
  - exact Hw.
  - done.
  - intros t Hin. by apply elem_of_nil in Hin.
  - cbn. apply NoDup_nil_2.
  - intros t Hin. by apply elem_of_nil in Hin.
  - split; intros t Hin; by apply elem_of_nil in Hin.
Qed.

(** Without a tooltip element nothing is bound and nothing ever happens. *)
Lemma step_inert i s :
  listeners s = [] → timers s = [] →
  listeners (step i s) = [] ∧ timers (step i s) = [].
Proof.
  intros Hl Ht.
  assert (Hsh : ∀ s', shrinks s s' → listeners s' = [] ∧ timers s' = []).
  { intros s' (_ & _ & _ & _ & Hl' & _ & _ & Hsub). rewrite Hl', Hl. split; [done|].
    rewrite Ht in Hsub. by apply sublist_nil_r. }
  assert (Hd : ∀ tg ty e, dispatch tg ty e s = s).
  { intros tg ty e. unfold dispatch, listeners_for. by rewrite Hl. }
  destruct i; cbn [step]; rewrite ?Hd; try done.
  - unfold dispatch_click, listeners_for. rewrite Hl. cbn. by rewrite Hd.
  - apply Hsh, shrinks_tick.
  - apply Hsh, shrinks_frame.
  - apply Hsh. rewrite destroy_removes_nothing by (by rewrite Hl).
    apply shrinks_hideTooltip.
Qed.

Lemma run_inert tr s :
  listeners s = [] → timers s = [] → timers (run tr s) = [].
Proof.
  revert s. induction tr as [|i tr IH]; intros s Hl Ht; [done|].
  cbn [run]. destruct (step_inert i s Hl Ht). by apply IH.
Qed.

(** ** One timer of each kind *)

(** C3 (as the code has it).  A handler that starts a timer cancels the
    timer of the other kind whose handle the manager holds (pointer-enter
    the hide delay, pointer-leave the show delay), not a timer of its own
    kind.  So, from construction on, along every sequence of inputs in
    which pointer-enter and pointer-leave take turns on hotspots of the
    page, whatever else happens in between, at most one show-delay timer
    and at most one hide-delay timer is outstanding. *)
Theorem alternating_at_most_one (tip : option tooltip_el) (hs : list hotspot_el)
    (data : gmap string ProjectInfo) (l : layout) (tr : list input) :
  alternates (length hs) Unknown tr = true →
  at_most_one_per_kind (run tr (new_TooltipManager tip hs data l)).
Proof.
  intros Halt. destruct tip as [tip|].
  - destruct (run_Inv (length hs) tr Unknown _ (Inv_new tip hs data l) Halt)
      as (p' & _ & _ & Htr & Hnd & _).
    by apply tracked_at_most_one.
  - intros k. unfold outstanding_of. rewrite run_inert; [cbn; lia|done|done].
Qed.

Lemma alternating_at_most_one_witness :
  at_most_one_per_kind
    (run ([MouseEnter 0 no_event; MouseLeave 0 no_event; MouseEnter 1 no_event]
          ++ ticks 300
          ++ [Click 1 no_event; MouseLeave 1 no_event; Resize; MouseEnter 0 no_event;
              Scroll; MouseLeave 0 no_event; Destroy; MouseEnter 2 no_event])
       sample_state).
Proof.
  refine (alternating_at_most_one (Some sample_tooltip) sample_hotspots main_projectData
            sample_layout _ _).
  vm_compute. reflexivity.
Defined.

(** C3 (as stated) fails: two pointer-enters in a row, as on a hotspot
    nested in another, leave two show-delay timers outstanding; the second
    [handleMouseEnter] cancelled only the hide delay. *)
Lemma two_show_timers_outstanding :
  ¬ at_most_one_per_kind
      (run [MouseEnter 0 no_event; MouseEnter 1 no_event] sample_state).
Proof. intros H. specialize (H show_delay). vm_compute in H. lia. Qed.

Lemma fresh_shrinks s s' : handles_fresh s → shrinks s s' → handles_fresh s'.
Proof.
  intros [Hf Hd] (_ & _ & A3 & A4 & _ & _ & _ & A8). split.
  - intros t Hin. rewrite A3. apply Hf. by eapply elem_of_sublist.
  - intros id. rewrite A3, A4. apply Hd.
Qed.

Lemma fresh_setTimeout c d s :
  handles_fresh s → handles_fresh (setTimeout c d s).2.
Proof.
  intros [Hf Hd]. split; cbn.
  - intros t [Hin | ->%list_elem_of_singleton]%elem_of_app; [|cbn; lia].
    specialize (Hf t Hin). lia.
  - intros id Hid. specialize (Hd id Hid). lia.
Qed.

Lemma fresh_handleMouseEnter e h s :
  handles_fresh s → handles_fresh (handleMouseEnter e h s).
Proof.
  intros H.
  destruct (fresh_setTimeout (ShowCb h e) showDelay (clearTimeout (hideTimeout s) s))
    as [Hf Hd]; [eapply fresh_shrinks; [exact H|apply shrinks_clearTimeout]|].
  split; [exact Hf|exact Hd].
Qed.

Lemma fresh_handleMouseLeave e h s :
  handles_fresh s → handles_fresh (handleMouseLeave e h s).
Proof.
  intros H.
  destruct (fresh_setTimeout HideCb hideDelay (clearTimeout (showTimeout s) s))
    as [Hf Hd]; [eapply fresh_shrinks; [exact H|apply shrinks_clearTimeout]|].
  split; [exact Hf|exact Hd].
Qed.

Lemma fresh_debounced_call s : handles_fresh s → handles_fresh (debounced_call s).
Proof.
  intros H.
  destruct (fresh_setTimeout LaterCb 250 (clearTimeout (debounceTimeout s) s))
    as [Hf Hd]; [eapply fresh_shrinks; [exact H|apply shrinks_clearTimeout]|].
  split; [exact Hf|].
  intros id. unfold debounced_call. cbn. intros [= <-].
  destruct (debounceTimeout s); cbn; lia.
Qed.

Lemma fresh_call f e s : handles_fresh s → handles_fresh (state_of (call f e s)).
Proof.
  intros H. destruct f as [i b|m]; [|done].
  destruct b; try (eapply fresh_shrinks; [done|by apply shrinks_call_benign]);
    cbn [call state_of].
  - by apply fresh_handleMouseEnter.
  - by apply fresh_handleMouseLeave.
  - by apply fresh_debounced_call.
Qed.

Lemma fresh_call_all ls e s : handles_fresh s → handles_fresh (call_all ls e s).
Proof.
  revert s. induction ls as [|l ls IH]; intros s H; [done|].
  cbn. by apply IH, fresh_call.
Qed.

Lemma fresh_removeEventListener tg ty f s :
  handles_fresh s → handles_fresh (removeEventListener tg ty f s).
Proof. by intros [? ?]. Qed.

Lemma fresh_destroy s : handles_fresh s → handles_fresh (destroy s).
Proof.
  intros H0. unfold destroy. cbn zeta.
  assert (H : handles_fresh (hideTooltip s))
    by (eapply fresh_shrinks; [exact H0|apply shrinks_hideTooltip]).
  repeat apply fresh_removeEventListener.
  generalize (seq 0 (length (hotspots (hideTooltip s)))). revert H.
  generalize (hideTooltip s). intros s' H l. revert s' H.
  induction l as [|i l IH]; intros s' H; [done|].
  cbn [fold_left]. apply IH. unfold unbind_hotspot. cbn zeta.
  by repeat apply fresh_removeEventListener.
Qed.

(** The handles stay fresh whatever happens. *)
Lemma fresh_step i s : handles_fresh s → handles_fresh (step i s).
Proof.
  intros H. destruct i; cbn [step]; try by apply fresh_call_all.
  - unfold dispatch_click. cbn zeta. destruct (existsb _ _); repeat apply fresh_call_all; done.
  - eapply fresh_shrinks; [done|apply shrinks_tick].
  - eapply fresh_shrinks; [done|apply shrinks_frame].
  - by destruct H.
  - by apply fresh_destroy.
Qed.

Lemma fresh_run tr s : handles_fresh s → handles_fresh (run tr s).
Proof.
  revert s. induction tr as [|i tr IH]; intros s H; [done|].
  cbn [run]. by apply IH, fresh_step.
Qed.

Lemma fresh_new tip hs data l : handles_fresh (new_TooltipManager tip hs data l).
Proof.
  unfold new_TooltipManager, init. cbn [tooltip set_hotspots set_tooltip].
  destruct tip as [tip|].
  - match goal with |- context [bindEvents ?s] =>
      destruct (bindEvents_only_listeners s) as (ls & k & ->) end.
    split; [intros t Hin; by apply elem_of_nil in Hin | done].
  - split; [intros t Hin; by apply elem_of_nil in Hin | done].
Qed.

(** Every state the manager can be in has fresh handles. *)
Lemma reachable_handles_fresh tip hs data l tr :
  handles_fresh (run tr (new_TooltipManager tip hs data l)).
Proof. apply fresh_run, fresh_new. Qed.

Lemma step_wired n i s : wired n s → wired n (step i s).
Proof.
  intros Hw. pose proof Hw as [Harr _].
  assert (Hl : listeners (step i s) = listeners s); [|unfold wired; by rewrite Hl].
  assert (Hcall : ∀ f e s', listeners (state_of (call f e s')) = listeners s').
  { intros [j b|m] e s'; [|done].
    destruct b; try (by apply shrinks_call_benign); cbn.
    - unfold handleMouseEnter. by destruct (hideTimeout s').
    - unfold handleMouseLeave. by destruct (showTimeout s').
    - unfold debounced_call. by destruct (debounceTimeout s'). }
  assert (Hall : ∀ ls e s', listeners (call_all ls e s') = listeners s').
  { induction ls as [|l0 ls IH]; intros e s'; [done|]. cbn. by rewrite IH, Hcall. }
  destruct i; cbn [step]; unfold dispatch; rewrite ?Hall; try done.
  - unfold dispatch_click, dispatch. cbn zeta. destruct (existsb _ _); by rewrite ?Hall.
  - apply shrinks_tick.
  - apply shrinks_frame.
  - by apply (shrinks_destroy n).
Qed.

(** A manager constructed with a tooltip element stays wired, teardown
    included. *)
Lemma reachable_wired tip hs data l tr :
  wired (length hs) (run tr (new_TooltipManager (Some tip) hs data l)).
Proof.
  pose proof (Inv_new tip hs data l) as (Hw & _). revert Hw.
  generalize (new_TooltipManager (Some tip) hs data l).
  induction tr as [|i tr IH]; intros s Hw; [done|].
  cbn [run]. by apply IH, step_wired.
Qed.

(** For a wired manager the scroll event is a call of [hideTooltip], and a
    pointer-enter or pointer-leave on a hotspot of the page a call of the
    handler. *)
Lemma step_Scroll_wired n s : wired n s → step Scroll s = hideTooltip s.
Proof. intros Hw. cbn [step]. by rewrite (dispatch_wired n). Qed.

Lemma step_MouseEnter_wired n h e s :
  wired n s → h < n → step (MouseEnter h e) s = handleMouseEnter e h s.
Proof.
  intros Hw Hh. cbn [step]. rewrite (dispatch_wired n) by done.
  unfold hotspot_bodies. by rewrite bool_decide_eq_true_2.
Qed.

Lemma step_MouseLeave_wired n h e s :
  wired n s → h < n → step (MouseLeave h e) s = handleMouseLeave e h s.
Proof.
  intros Hw Hh. cbn [step]. rewrite (dispatch_wired n) by done.
  unfold hotspot_bodies. by rewrite bool_decide_eq_true_2.
Qed.

(** ** Hovering *)

Lemma handleMouseMove_cases e h s :
  state_of (handleMouseMove e h s) = s
  ∨ ∃ t st, tooltip s = Some t
            ∧ ClassList.contains "visible" (className t) = true
            ∧ state_of (handleMouseMove e h s)
              = set_tooltip (Some (restyle (className t) st t)) s.
Proof.
  unfold handleMouseMove, active_and_visible.
  case_bool_decide as Ha; [|by left].
  destruct (tooltip s) as [t|] eqn:Ht; [|by left].
  destruct (ClassList.contains "visible" (className t)) eqn:Hv; [|by left].
  unfold updateTooltipPosition. rewrite Ha, Ht, Hv. cbn [negb].
  destruct (negb (isTouchDevice (page s))); [|by left].
  destruct (follow_position _ _ _) as [l0 t0]. right. by eexists t, _.
Qed.

Lemma handleMouseMove_hidden e h s :
  visible s = false → state_of (handleMouseMove e h s) = s.
Proof.
  intros Hv. destruct (handleMouseMove_cases e h s) as [->|(t & st & Ht & Hc & _)]; [done|].
  unfold visible in Hv. rewrite Ht in Hv. congruence.
Qed.

Lemma now_handleMouseMove e h s : now (state_of (handleMouseMove e h s)) = now s.
Proof. by destruct (handleMouseMove_cases e h s) as [->|(t & st & _ & _ & ->)]. Qed.

Lemma now_debounced_call s : now (debounced_call s) = now s.
Proof. unfold debounced_call. by destruct (debounceTimeout s). Qed.

Lemma run_wired n tr s : wired n s → wired n (run tr s).
Proof.
  revert s. induction tr as [|i tr IH]; intros s Hw; [done|].
  cbn [run]. by apply IH, step_wired.
Qed.

Lemma wired_listeners n s s' : listeners s' = listeners s → wired n s → wired n s'.
Proof. intros Hl. unfold wired. by rewrite Hl. Qed.

Lemma calm_ticks n : calm (ticks n).
Proof. apply Forall_forall. intros i Hin. by apply elem_of_replicate in Hin as [-> _]. Qed.

(** What a step of a calm stretch is, on a wired page. *)
Lemma step_calm n i s :
  wired n s → calm_input i →
  (i = Tick ∧ step i s = tick s)
  ∨ (i ≠ Tick
     ∧ (step i s = s ∨ step i s = frame s
        ∨ (∃ h e, step i s = state_of (handleMouseMove e h s))
        ∨ step i s = debounced_call s
        ∨ ∃ l, step i s = set_page l s)).
Proof.
  intros Hw Hc. destruct i; try done; cbn [step].
  - right. split; [done|]. rewrite (dispatch_wired n) by done.
    unfold hotspot_bodies. case_bool_decide; cbn; [|by left].
    right; right; left. by eexists _, _.
  - right. split; [done|]. rewrite (dispatch_wired n) by done. cbn. tauto.
  - by left.
  - right. split; [done|]. tauto.
  - right. split; [done|]. right; right; right; right. by eexists.
Qed.

(** A property kept by every tick before the deadline [D] and by whatever
    else a calm stretch brings holds throughout a calm stretch that ends
    before [D]. *)
Lemma run_calm_before (P : state → Prop) (D n : nat) tr s :
  (∀ s, P s → S (now s) < D → P (tick s)) →
  (∀ s, P s → P (frame s)) →
  (∀ s h e, P s → P (state_of (handleMouseMove e h s))) →
  (∀ s, P s → P (debounced_call s)) →
  (∀ s l, P s → P (set_page l s)) →
  calm tr → wired n s → P s → now s + elapsed tr < D → P (run tr s).
Proof.
  intros Htick Hframe Hmove Hresize Hlayout Hcalm. revert s.
  induction Hcalm as [|i tr Hi _ IH]; intros s Hw Hs Hlt; [done|].
  cbn [run]. pose proof (step_wired n i s Hw) as Hw'.
  destruct (step_calm n i s Hw Hi)
    as [[-> Hst] | [Hne [Hst | [Hst | [(h & e & Hst) | [Hst | [l Hst]]]]]]];
    rewrite Hst in *.
  { cbn [elapsed] in Hlt. apply IH; [done|apply Htick; [done|lia]|].
    rewrite now_tick. lia. }
  all: assert (He : elapsed (i :: tr) = elapsed tr) by by destruct i.
  all: rewrite He in Hlt; apply IH; [done| |].
  - done.
  - done.
  - by apply Hframe.
  - by rewrite now_frame.
  - by apply Hmove.
  - by rewrite now_handleMouseMove.
  - by apply Hresize.
  - by rewrite now_debounced_call.
  - by apply Hlayout.
  - done.
Qed.

Lemma run_calm_always (P : state → Prop) (n : nat) tr s :
  (∀ s, P s → P (tick s)) →
  (∀ s, P s → P (frame s)) →
  (∀ s h e, P s → P (state_of (handleMouseMove e h s))) →
  (∀ s, P s → P (debounced_call s)) →
  (∀ s l, P s → P (set_page l s)) →
  calm tr → wired n s → P s → P (run tr s).
Proof.
  intros Htick Hframe Hmove Hresize Hlayout Hcalm Hw Hs.
  apply (run_calm_before P (S (now s + elapsed tr)) n); auto. 
Qed.

Lemma timers_debounced_call s :
  timers (debounced_call s)
  = filter (λ t, tid t ∉ option_list (debounceTimeout s)) (timers s)
    ++ [Timer (nextTimer s) (now s + 250) LaterCb].
Proof. unfold debounced_call. rewrite clearTimeout_cancel. reflexivity. Qed.

Lemma PendingShow_calm n0 n D tr s :
  calm tr → wired n0 s → PendingShow n D s → now s + elapsed tr < D →
  PendingShow n D (run tr s).
Proof.
  apply (run_calm_before (PendingShow n D) D n0).
  - intros s' HP Hlt. apply (tick_before (PendingShow n D) D); [| | |exact Hlt|exact HP].
    + intros s1 ids (Hv & Hr & Hs & Ht). repeat split; try done.
      by apply timers_are_cancel.
    + by intros s1 k (Hv & Hr & Hs & Ht).
    + destruct HP as (_ & _ & _ & Ht). eapply timers_are_impl; [|exact Ht].
      by intros t [_ ?].
  - intros s' HP. rewrite frame_idle; [done|]. by destruct HP as (_ & ? & _).
  - intros s' h e HP. rewrite handleMouseMove_hidden; [done|]. by destruct HP.
  - intros s' (Hv & Hr & Hs & Ht). split; [|split; [|split]].
    + unfold debounced_call. by destruct (debounceTimeout s').
    + unfold debounced_call. by destruct (debounceTimeout s').
    + unfold debounced_call. by destruct (debounceTimeout s').
    + intros t. rewrite timers_debounced_call.
      intros [[_ Hin]%list_elem_of_filter | ->%list_elem_of_singleton]%elem_of_app;
        [by apply Ht|by left].
  - by intros s' l (Hv & Hr & Hs & Ht).
Qed.

Lemma StayingHidden_calm n0 tr s :
  calm tr → wired n0 s → StayingHidden s → StayingHidden (run tr s).
Proof.
  apply (run_calm_always StayingHidden n0).
  - intros s' HP.
    apply (tick_inv StayingHidden (λ t, cb t = LaterCb ∨ cb t = HideCb)).
    + intros t Hin _. destruct HP as (_ & _ & Ht). by apply Ht.
    + intros t s''. apply StayingHidden_fire.
    + done.
  - intros s' HP. rewrite frame_idle; [done|]. by destruct HP as (_ & ? & _).
  - intros s' h e HP. rewrite handleMouseMove_hidden; [done|]. by destruct HP.
  - intros s' (Hv & Hr & Ht). split; [|split].
    + unfold debounced_call. by destruct (debounceTimeout s').
    + unfold debounced_call. by destruct (debounceTimeout s').
    + intros t. rewrite timers_debounced_call.
      intros [[_ Hin]%list_elem_of_filter | ->%list_elem_of_singleton]%elem_of_app;
        [by apply Ht|by left].
  - by intros s' l (Hv & Hr & Ht).
Qed.

Lemma ShownFor_fire h info t s :
  cb t = LaterCb → ShownFor h info s → ShownFor h info (fire t s).
Proof.
  intros Hcb (Hv & Ha & Hs & Ht).
  destruct (fire_later t s Hcb) as (ids & -> & _).
  repeat split; try done.
  intros x Hin. apply Ht. unfold cancel in Hin. cbn in Hin.
  by apply list_elem_of_filter in Hin as [_ Hin].
Qed.

Lemma ShownFor_calm n0 h info tr s :
  calm tr → wired n0 s → ShownFor h info s → ShownFor h info (run tr s).
Proof.
  apply (run_calm_always (ShownFor h info) n0).
  - intros s' HP. apply (tick_inv (ShownFor h info) (λ t, cb t = LaterCb)).
    + intros t Hin _. destruct HP as (_ & _ & _ & Ht). by apply Ht.
    + intros t s''. apply ShownFor_fire.
    + done.
  - intros s' (Hv & Ha & Hs & Ht). split; [by apply visible_frame|].
    rewrite activeHotspot_frame. split; [done|]. split; [by apply shows_frame|].
    intros x. rewrite timers_frame. apply Ht.
  - intros s' h' e HP.
    destruct (handleMouseMove_cases e h' s') as [->|(t & st & Htip & Hc & ->)]; [done|].
    destruct HP as (Hv & Ha & (t0 & Ht0 & Hs) & Ht).
    rewrite Htip in Ht0. injection Ht0 as <-.
    split; [|split; [done|split; [|done]]].
    + unfold visible. cbn. exact Hc.
    + by eexists.
  - intros s' (Hv & Ha & Hs & Ht). split; [|split; [|split]].
    + unfold debounced_call. by destruct (debounceTimeout s').
    + unfold debounced_call. by destruct (debounceTimeout s').
    + unfold debounced_call. by destruct (debounceTimeout s').
    + intros t. rewrite timers_debounced_call.
      intros [[_ Hin]%list_elem_of_filter | ->%list_elem_of_singleton]%elem_of_app;
        [by apply Ht|done].
  - by intros s' l (Hv & Ha & Hs & Ht).
Qed.

Lemma Armed_cancel h e n D info ids s :
  n ∉ ids → Armed h e n D info s → Armed h e n D info (cancel ids s).
Proof.
  intros Hn ((ts1 & ts2 & Hts & Hall) & Hrest).
  split; [|done].
  exists (filter (λ t, tid t ∉ ids) ts1), (filter (λ t, tid t ∉ ids) ts2). split.
  - unfold cancel. cbn. rewrite Hts, filter_app, filter_cons_True by done. done.
  - rewrite <- filter_app. apply Forall_forall. intros t [_ Hin]%list_elem_of_filter.
    by apply (proj1 (Forall_forall _ _) Hall).
Qed.

Lemma Armed_fire h e n D info t s :
  cb t = LaterCb ∧ tid t ≠ n → Armed h e n D info s → Armed h e n D info (fire t s).
Proof.
  intros [Hcb Hne] HP. destruct (fire_later t s Hcb) as (ids & -> & Hids).
  apply Armed_cancel; [|done].
  intros Hin. destruct (Hids n Hin) as [->|Hd]; [done|].
  by destruct HP as (_ & _ & Hdn & _).
Qed.

Lemma Armed_frame h e n D info s : Armed h e n D info s → Armed h e n D info (frame s).
Proof.
  intros (Hts & Hn & Hd & Hreg & Hslots).
  split; [by rewrite timers_frame|].
  split; [|split; [|split; [|by apply has_content_slots_frame]]];
    unfold frame; destruct (rafQueue s); try done; by destruct (tooltip s).
Qed.

Lemma Armed_others h e n D info s t :
  Armed h e n D info s → t ∈ timers s →
  t = Timer n D (ShowCb h e) ∨ (cb t = LaterCb ∧ tid t ≠ n).
Proof.
  intros ((ts1 & ts2 & Hts & Hall) & _) Hin. rewrite Hts in Hin.
  apply elem_of_app in Hin as [Hin|Hin].
  - right. apply (proj1 (Forall_forall _ _) Hall). set_solver.
  - apply elem_of_cons in Hin as [->|Hin]; [by left|].
    right. apply (proj1 (Forall_forall _ _) Hall). set_solver.
Qed.

Lemma Armed_tick_before h e n D info s :
  Armed h e n D info s → S (now s) < D → Armed h e n D info (tick s).
Proof.
  intros HP Hlt.
  apply (tick_inv (Armed h e n D info) (λ t, cb t = LaterCb ∧ tid t ≠ n)).
  - intros t Hin Hdue. destruct (Armed_others _ _ _ _ _ _ _ HP Hin) as [->|?]; [|done].
    cbn in Hdue. lia.
  - intros t s'. apply Armed_fire.
  - done.
Qed.

Lemma Armed_fire_show h e n D info s :
  Armed h e n D info s → ShownFor h info (fire (Timer n D (ShowCb h e)) s).
Proof.
  intros ((ts1 & ts2 & Hts & Hall) & Hn & Hd & (el & Hel & Hinfo)
          & (t & Ht & Hti & Hde & Hte)).
  unfold fire. cbn [tid cb].
  assert (Hout : outstanding n s = true).
  { apply bool_decide_eq_true. rewrite Hts, map_app. set_solver. }
  rewrite Hout, clearTimeout_cancel. cbn [run_callback].
  change (option_list (Some n)) with [n].
  destruct (showTooltip_registered (cancel [n] s) h e el info t Hel Hinfo Ht)
    as (pos & st & ->).
  cbn [state_of]. split; [apply visible_class|]. split; [done|]. split.
  - eexists. split; [reflexivity|]. cbn.
    destruct Hti as [? ->], Hde as [? ->], Hte as [? ->]. done.
  - intros x. cbn. rewrite Hts, filter_app.
    rewrite filter_cons_False by (cbn; set_solver). rewrite <- filter_app.
    intros [_ Hin]%list_elem_of_filter.
    by apply (proj1 (Forall_forall _ _) Hall).
Qed.

Lemma Armed_tick_due h e n D info s :
  Armed h e n D info s → D ≤ S (now s) → ShownFor h info (tick s).
Proof.
  intros HP Hdue. unfold tick. cbn zeta.
  pose proof HP as ((ts1 & ts2 & Hts & Hall) & _).
  cbn [timers set_now now]. rewrite Hts, filter_app.
  rewrite filter_cons_True by done. rewrite fire_all_app. cbn [fire_all].
  apply Forall_app in Hall as [Hall1 Hall2].
  apply (fire_all_inv (ShownFor h info) (λ t, cb t = LaterCb)).
  - apply Forall_forall. intros t [_ Hin]%list_elem_of_filter.
    by apply (proj1 (Forall_forall _ _) Hall2).
  - intros t s'. apply ShownFor_fire.
  - apply Armed_fire_show.
    apply (fire_all_inv (Armed h e n D info) (λ t, cb t = LaterCb ∧ tid t ≠ n)).
    + apply Forall_forall. intros t [_ Hin]%list_elem_of_filter.
      by apply (proj1 (Forall_forall _ _) Hall1).
    + intros t s'. apply Armed_fire.
    + destruct HP as (_ & HP). split; [|exact HP]. exists ts1, ts2.
      split; [done|]. by apply Forall_app.
Qed.

Lemma Armed_mousemove h e n D info h' e' s :
  Armed h e n D info s → Armed h e n D info (state_of (handleMouseMove e' h' s)).
Proof.
  intros HP.
  destruct (handleMouseMove_cases e' h' s) as [->|(t & st & Htip & Hc & ->)]; [done|].
  destruct HP as (Hts & Hn & Hd & Hreg & (t0 & Ht0 & Hs)).
  rewrite Htip in Ht0. injection Ht0 as <-.
  repeat split; try done. by eexists.
Qed.

Lemma Armed_resize h e n D info s :
  Armed h e n D info s → Armed h e n D info (debounced_call s).
Proof.
  intros HP.
  assert (Hc : Armed h e n D info (cancel (option_list (debounceTimeout s)) s)).
  { apply Armed_cancel; [|done]. destruct HP as (_ & _ & Hd & _).
    destruct (debounceTimeout s) as [d|]; cbn; set_solver. }
  destruct Hc as ((ts1 & ts2 & Hts & Hall) & Hn & Hd & Hreg & Hslots).
  unfold debounced_call. rewrite clearTimeout_cancel.
  split; [|split; [|split; [|split]]].
  - exists ts1, (ts2 ++ [Timer (nextTimer s) (now s + 250) LaterCb]).
    cbn. cbn in Hts. rewrite Hts. split.
    + by rewrite <- app_assoc.
    + rewrite app_assoc. apply Forall_app. split; [done|].
      apply Forall_singleton. cbn. cbn in Hn. split; [done|lia].
  - cbn. cbn in Hn. lia.
  - cbn. cbn in Hn. intros [= Heq]. lia.
  - exact Hreg.
  - exact Hslots.
Qed.

Lemma Armed_calm_run n0 h e n D info tr s :
  calm tr → wired n0 s → Armed h e n D info s → now s < D → D ≤ now s + elapsed tr →
  ShownFor h info (run tr s).
Proof.
  intros Hcalm. revert s.
  induction Hcalm as [|i tr Hi Hcalm IH]; intros s Hw HP Hlt Hge.
  { cbn in Hge. lia. }
  cbn [run]. pose proof (step_wired n0 i s Hw) as Hw'.
  destruct (step_calm n0 i s Hw Hi)
    as [[-> Hst] | [Hne [Hst | [Hst | [(h' & e' & Hst) | [Hst | [l Hst]]]]]]];
    rewrite Hst in *.
  { cbn [elapsed] in Hge. destruct (decide (S (now s) < D)) as [Hb|Hb].
    - apply IH; [done|by apply Armed_tick_before| |]; rewrite now_tick; lia.
    - apply (ShownFor_calm n0); [done|done|].
      apply (Armed_tick_due h e n D); [done|lia]. }
  all: assert (He : elapsed (i :: tr) = elapsed tr) by by destruct i.
  all: rewrite He in Hge; apply IH; [done| | |].
  - done.
  - done.
  - done.
  - by apply Armed_frame.
  - by rewrite now_frame.
  - by rewrite now_frame.
  - by apply Armed_mousemove.
  - by rewrite now_handleMouseMove.
  - by rewrite now_handleMouseMove.
  - by apply Armed_resize.
  - by rewrite now_debounced_call.
  - by rewrite now_debounced_call.
  - destruct HP as (? & ? & ? & ? & ?). by repeat split.
  - done.
  - done.
Qed.

Lemma handleMouseEnter_Armed e h el info s :
  Hidden s → handles_fresh s → has_content_slots s →
  hotspots s !! h = Some el → projectData s !! project_key el = Some info →
  Armed h e (nextTimer s) (now s + showDelay) info (handleMouseEnter e h s).
Proof.
  intros (_ & _ & _ & Ht) [Hfresh Hdeb] Hslots Hel Hinfo.
  unfold handleMouseEnter. rewrite clearTimeout_cancel. cbn.
  split; [|split; [|split; [|split]]].
  - eexists _, []. split; [reflexivity|]. rewrite app_nil_r.
    apply Forall_forall. intros t [_ Hin]%list_elem_of_filter.
    split; [by apply Ht|]. specialize (Hfresh t Hin). lia.
  - cbn. lia.
  - intros Heq. specialize (Hdeb _ Heq). lia.
  - by exists el.
  - done.
Qed.

Lemma listeners_handleMouseEnter e h s : listeners (handleMouseEnter e h s) = listeners s.
Proof. unfold handleMouseEnter. by destruct (hideTimeout s). Qed.

Lemma listeners_handleMouseLeave e h s : listeners (handleMouseLeave e h s) = listeners s.
Proof. unfold handleMouseLeave. by destruct (showTimeout s). Qed.

(** C5 (as the code has it).  Let the manager be hidden (a tooltip with its
    three content children, not visible, nothing pending) on a page wired
    by [bindEvents], and let hotspot [h] be registered with [info].  After a
    pointer-enter of [h] and a calm stretch of at least 300 ms (pointer
    moves, resizes and frames, nothing else), the tooltip is visible, [h]
    is the associated hotspot, and title, description and technology tags
    are those of [info].  After a pointer-enter of [h], a calm stretch of
    less than 300 ms and a pointer-leave, the tooltip was not visible at
    any moment of the stretch, the show timer is cancelled (no show-delay
    timer is outstanding), and the tooltip stays hidden for as long as the
    stretch that follows is calm. *)
Theorem hover_delay (s : state) (n : nat) (h : nat) (e : dom_event) (el : hotspot_el)
    (info : ProjectInfo) :
  wired n s →
  Hidden s → handles_fresh s → has_content_slots s →
  hotspots s !! h = Some el →
  projectData s !! project_key el = Some info →
  (∀ tr, calm tr → showDelay ≤ elapsed tr →
         visible (run tr (handleMouseEnter e h s)) = true
         ∧ activeHotspot (run tr (handleMouseEnter e h s)) = Some h
         ∧ shows info (run tr (handleMouseEnter e h s)))
  ∧ (∀ tr1 e' tr2, calm tr1 → elapsed tr1 < showDelay → calm tr2 →
         visible (run tr1 (handleMouseEnter e h s)) = false
         ∧ outstanding_of show_delay
             (handleMouseLeave e' h (run tr1 (handleMouseEnter e h s))) = []
         ∧ visible (run tr2 (handleMouseLeave e' h (run tr1 (handleMouseEnter e h s))))
           = false).
Proof.
  intros Hw Hhid Hfresh Hslots Hel Hinfo.
  assert (Hw1 : wired n (handleMouseEnter e h s))
    by (eapply wired_listeners; [apply listeners_handleMouseEnter|done]).
  split.
  - intros tr Hcalm Hge.
    destruct (Armed_calm_run n h e (nextTimer s) (now s + showDelay) info tr
                (handleMouseEnter e h s)) as (? & ? & ? & _); try done.
    + by apply (handleMouseEnter_Armed e h el).
    + rewrite now_handleMouseEnter. unfold showDelay. lia.
    + rewrite now_handleMouseEnter. lia.
  - intros tr1 e' tr2 Hc1 Hlt Hc2.
    pose proof (handleMouseEnter_PendingShow e h s Hhid) as H0.
    apply (PendingShow_calm n _ _ tr1) in H0;
      [|done|done|rewrite now_handleMouseEnter; lia].
    destruct (handleMouseLeave_StayingHidden e' h _ _ _ H0) as [H1 Hnone].
    apply (StayingHidden_calm n tr2) in H1; [|done|].
    2: { eapply wired_listeners; [apply listeners_handleMouseLeave|].
         by apply run_wired. }
    destruct H0 as (? & _). destruct H1 as (? & _). done.
Qed.

Lemma hover_delay_witness :
  visible (run (ticks 150 ++ [MouseMove 0 (pointer_at 120 140); Resize] ++ ticks 150)
             (handleMouseEnter no_event 0 sample_state)) = true
  ∧ shows project1
      (run (ticks 150 ++ [MouseMove 0 (pointer_at 120 140); Resize] ++ ticks 150)
         (handleMouseEnter no_event 0 sample_state))
  ∧ visible (run (ticks 5000)
               (handleMouseLeave no_event 0
                  (run (ticks 299) (handleMouseEnter no_event 0 sample_state)))) = false.
Proof.
  destruct (hover_delay sample_state 3 0 no_event
              (HotspotEl (Some "project1") ["project-hotspot"]) project1
              (reachable_wired sample_tooltip sample_hotspots main_projectData
                 sample_layout [])
              (proj1 sample_state_hidden) (proj1 (proj2 sample_state_hidden))
              (proj2 (proj2 sample_state_hidden)))
    as [Hshow Hleave].
  - vm_compute. reflexivity.
  - vm_compute. reflexivity.
  - destruct (Hshow (ticks 150 ++ [MouseMove 0 (pointer_at 120 140); Resize] ++ ticks 150))
      as (Hv & _ & Hs).
    { apply Forall_app. split; [apply calm_ticks|].
      apply Forall_cons. split; [exact I|]. apply Forall_cons. split; [exact I|].
      apply calm_ticks. }
    { vm_compute. lia. }
    destruct (Hleave (ticks 299) no_event (ticks 5000) (calm_ticks 299)) as (_ & _ & Hh).
    { rewrite elapsed_ticks. unfold showDelay. lia. }
    { apply calm_ticks. }
    exact (conj Hv (conj Hs Hh)).
Defined.

(** C5 (as stated) fails: a scroll during the delay cancels the show.  On
    the sample page the pointer enters hotspot 0, registered as project1; the
    window is scrolled 100 ms later; no pointer-leave follows; 300 ms after
    the scroll, 400 ms after the pointer-enter, the tooltip is not visible. *)
Lemma scroll_cancels_hover :
  step (MouseEnter 0 no_event) sample_state = handleMouseEnter no_event 0 sample_state
  ∧ elapsed (ticks 100 ++ [Scroll] ++ ticks 300) = 400
  ∧ visible (run (ticks 100 ++ [Scroll] ++ ticks 300)
               (handleMouseEnter no_event 0 sample_state)) = false.
Proof. repeat split; vm_compute; reflexivity. Qed.

(** ** Scroll *)

(** What the scroll listener, [() => this.hideTooltip()], does at once
    whenever there is a tooltip: the tooltip is not visible, no hotspot is
    associated, the hotspot that was associated does not carry [active], and
    the show-delay and hide-delay timers whose handles the manager holds are
    cancelled.  The frame queue is as it was. *)
Lemma hideTooltip_effect (s : state) :
  is_Some (tooltip s) →
  visible (hideTooltip s) = false
  ∧ activeHotspot (hideTooltip s) = None
  ∧ (∀ h, activeHotspot s = Some h → is_active h (hideTooltip s) = false)
  ∧ (∀ t, t ∈ timers (hideTooltip s) →
          t ∈ timers s ∧ showTimeout s ≠ Some (tid t) ∧ hideTimeout s ≠ Some (tid t))
  ∧ rafQueue (hideTooltip s) = rafQueue s.
Proof.
  intros [t Ht]. rewrite (hideTooltip_spec s t Ht).
  assert (Htimers : ∀ x, x ∈ timers (hidden t s) →
            x ∈ timers s ∧ showTimeout s ≠ Some (tid x) ∧ hideTimeout s ≠ Some (tid x)).
  { intros x. unfold hidden. cbn zeta. rewrite !clearTimeout_cancel. cbn.
    intros [Hh [Hs Hin]%list_elem_of_filter]%list_elem_of_filter.
    destruct (activeHotspot s); cbn in *.
    - repeat split; [done| |]; intros Heq; [apply Hs|apply Hh]; rewrite Heq; set_solver.
    - repeat split; [done| |]; intros Heq; [apply Hs|apply Hh]; rewrite Heq; set_solver. }
  split; [apply visible_hidden|].
  split; [|split; [|split; [exact Htimers|apply rafQueue_hidden]]].
  - unfold hidden. cbn zeta. rewrite !clearTimeout_cancel. cbn.
    by destruct (activeHotspot s) eqn:E.
  - intros h Hh. unfold is_active, hidden. cbn zeta. rewrite !clearTimeout_cancel. cbn.
    rewrite Hh. cbn. rewrite list_lookup_alter_eq.
    destruct (hotspots s !! h); cbn; [apply contains_remove|done].
Qed.

Lemma run_app tr1 tr2 s : run (tr1 ++ tr2) s = run tr2 (run tr1 s).
Proof. revert s. induction tr1 as [|i tr1 IH]; intros s; [done|]. cbn. apply IH. Qed.

Lemma no_delay_pending_nil s : timers s = [] → no_delay_pending s.
Proof. intros Ht t Hin. rewrite Ht in Hin. by apply elem_of_nil in Hin. Qed.

(** Visible with no timer outstanding: so it stays, for as long as nothing
    happens. *)
Lemma visible_for_good tr s :
  idle tr → visible s = true → timers s = [] → visible (run tr s) = true.
Proof.
  intros Hidle Hv Ht.
  refine (proj1 (run_idle_always (λ s, visible s = true ∧ timers s = []) tr s
                   _ _ Hidle (conj Hv Ht))).
  - intros s' [Hv' Ht']. unfold tick. cbn zeta. cbn [timers set_now]. by rewrite Ht'.
  - intros s' [Hv' Ht']. split; [by apply visible_frame|by rewrite timers_frame].
Qed.

(** C7 (what the code does).  On the sample page the pointer enters hotspot
    0 and rests; 300 ms later the show timer fires: the tooltip is shown and
    the callback that adds [visible] is queued for the next animation frame.
    The window is scrolled before that frame.  The scroll listener hides the
    tooltip and clears the association, but the frame callback stays
    queued, so the manager is not Hidden; the frame makes the tooltip
    visible again, with no hotspot associated and no timer outstanding, and
    visible it stays for as long as nothing else happens. *)
Theorem scroll_then_frame_reshows :
  alternates 3 Unknown (sample_hover ++ [Scroll; Frame]) = true
  ∧ visible (run sample_hover sample_state) = true
  ∧ activeHotspot (run sample_hover sample_state) = Some 0
  ∧ step Scroll (run sample_hover sample_state)
    = hideTooltip (run sample_hover sample_state)
  ∧ visible (run (sample_hover ++ [Scroll]) sample_state) = false
  ∧ rafQueue (run (sample_hover ++ [Scroll]) sample_state) = 1
  ∧ ¬ Hidden (run (sample_hover ++ [Scroll]) sample_state)
  ∧ visible (run (sample_hover ++ [Scroll; Frame]) sample_state) = true
  ∧ activeHotspot (run (sample_hover ++ [Scroll; Frame]) sample_state) = None
  ∧ no_delay_pending (run (sample_hover ++ [Scroll; Frame]) sample_state)
  ∧ ∀ tr, idle tr →
      visible (run (sample_hover ++ [Scroll; Frame] ++ tr) sample_state) = true.
Proof.
  assert (Hv : visible (run (sample_hover ++ [Scroll; Frame]) sample_state) = true)
    by (vm_compute; reflexivity).
  assert (Ht : timers (run (sample_hover ++ [Scroll; Frame]) sample_state) = [])
    by (vm_compute; reflexivity).
  do 6 (split; [vm_compute; reflexivity|]).
  split. { intros (_ & _ & Hr & _). vm_compute in Hr. discriminate Hr. }
  split; [exact Hv|]. split; [vm_compute; reflexivity|].
  split; [exact (no_delay_pending_nil _ Ht)|].
  intros tr Hidle. rewrite app_assoc, run_app.
  exact (visible_for_good tr _ Hidle Hv Ht).
Qed.

(** ** Further properties of the coordinator *)

Lemma Inert_step hs i s : Inert hs s → Inert hs (step i s).
Proof.
  intros (Htip & Hl & Ht & Hr & Ha & Hh & Hc).
  assert (Hd : ∀ tg ty e, dispatch tg ty e s = s).
  { intros tg ty e. unfold dispatch, listeners_for. by rewrite Hl. }
  assert (Hhide : hideTooltip s = s) by (unfold hideTooltip; by rewrite Htip).
  destruct i; cbn [step]; rewrite ?Hd; try done.
  - unfold dispatch_click, listeners_for. rewrite Hl. cbn. by rewrite Hd.
  - unfold tick. cbn. rewrite Ht. cbn. done.
  - by rewrite frame_idle.
  - rewrite destroy_removes_nothing by (by rewrite Hl). by rewrite Hhide.
Qed.

(** X1. [init] without a tooltip element ([querySelector] found nothing):
    the constructor logs "Tooltip element not found" and returns before
    [bindEvents], and after any inputs whatever no listener is registered,
    no timer is outstanding, the tooltip is not visible, no hotspot is
    associated, the hotspots are as they were and nothing more is logged. *)
Theorem missing_tooltip_inert (hs : list hotspot_el) (data : gmap string ProjectInfo)
    (l : layout) (tr : list input) :
  console (new_TooltipManager None hs data l) = ["Tooltip element not found"]
  ∧ listeners (run tr (new_TooltipManager None hs data l)) = []
  ∧ timers (run tr (new_TooltipManager None hs data l)) = []
  ∧ visible (run tr (new_TooltipManager None hs data l)) = false
  ∧ activeHotspot (run tr (new_TooltipManager None hs data l)) = None
  ∧ hotspots (run tr (new_TooltipManager None hs data l)) = hs
  ∧ console (run tr (new_TooltipManager None hs data l)) = ["Tooltip element not found"].
Proof.
  assert (H0 : Inert hs (new_TooltipManager None hs data l)) by by repeat split.
  split; [done|]. revert H0. generalize (new_TooltipManager None hs data l).
  induction tr as [|i tr IH]; intros s Hs.
  - destruct Hs as (Htip & Hl & Ht & Hr & Ha & Hh & Hc).
    assert (Hv : visible s = false) by (unfold visible; by rewrite Htip).
    done.
  - cbn [run]. by apply IH, Inert_step.
Qed.

Lemma listeners_call f e s : listeners (state_of (call f e s)) = listeners s.
Proof.
  destruct f as [j b|m]; [|done].
  destruct b; try (by apply shrinks_call_benign); cbn.
  - unfold handleMouseEnter. by destruct (hideTimeout s).
  - unfold handleMouseLeave. by destruct (showTimeout s).
  - unfold debounced_call. by destruct (debounceTimeout s).
Qed.

Lemma listeners_call_all ls e s : listeners (call_all ls e s) = listeners s.
Proof.
  revert s. induction ls as [|l0 ls IH]; intros s; [done|].
  cbn. by rewrite IH, listeners_call.
Qed.

Lemma listeners_step n i s : wired n s → listeners (step i s) = listeners s.
Proof.
  intros Hw.
  destruct i; cbn [step]; unfold dispatch; rewrite ?listeners_call_all; try done.
  - unfold dispatch_click, dispatch. cbn zeta.
    destruct (existsb _ _); by rewrite ?listeners_call_all.
  - apply shrinks_tick.
  - apply shrinks_frame.
  - by apply (shrinks_destroy n).
Qed.

Lemma listeners_run n tr s : wired n s → listeners (run tr s) = listeners s.
Proof.
  revert s. induction tr as [|i tr IH]; intros s Hw; [done|].
  cbn [run]. rewrite IH by by apply step_wired. by apply (listeners_step n).
Qed.

Lemma length_bind_hotspots l s :
  length (listeners (fold_left bind_hotspot l s)) = length (listeners s) + 5 * length l.
Proof.
  revert s. induction l as [|i l IH]; intros s; cbn [fold_left length]; [lia|].
  rewrite IH. unfold bind_hotspot, addEventListener. cbn.
  rewrite !length_app. cbn. lia.
Qed.

Lemma length_listeners_new tip hs data l :
  length (listeners (new_TooltipManager (Some tip) hs data l)) = 5 * length hs + 3.
Proof.
  unfold new_TooltipManager, init, bindEvents. cbn.
  rewrite !length_app, length_bind_hotspots, length_seq. cbn. lia.
Qed.

Lemma stops_bodies ls :
  Forall is_arrow ls →
  existsb (λ l, stops_propagation (l_fn l)) ls
  = existsb (λ b, match b with CallClick _ => true | _ => false end) (omap body_of ls).
Proof.
  induction 1 as [|l ls (j & b & Hfn) _ IH]; [done|].
  cbn. unfold body_of at 1. rewrite Hfn. cbn. rewrite IH. by destruct b.
Qed.

Lemma dispatch_click_wired n h e s :
  wired n s →
  dispatch_click h e s
  = if bool_decide (h < n) then state_of (handleClick e h s)
    else state_of (handleDocumentClick e s).
Proof.
  intros Hw. pose proof Hw as [Harr Hb]. unfold dispatch_click. cbn zeta.
  assert (Harr' : Forall is_arrow (listeners_for (Hotspot h) click s)).
  { apply Forall_forall. intros l0 [_ Hin]%list_elem_of_filter.
    by apply (proj1 (Forall_forall _ _) Harr). }
  rewrite stops_bodies, call_all_bodies by done.
  change (omap body_of (listeners_for (Hotspot h) click s))
    with (bodies_for (Hotspot h) click (listeners s)).
  rewrite Hb. unfold hotspot_bodies. case_bool_decide; cbn [app global_bodies existsb orb].
  - done.
  - cbn [call_bodies]. by rewrite (dispatch_wired n).
Qed.

(** X2. [bindEvents] registers five listeners per hotspot and three global
    ones, and no input adds or removes one afterwards.  In every state the
    manager reaches, an event on a hotspot of the page is exactly one call of
    its handler (a click does not reach the document listener, the hotspot
    listener stops its propagation), a click elsewhere is one call of
    [handleDocumentClick], a scroll one call of [hideTooltip] and a resize one
    call of the debounced function. *)
Theorem events_reach_their_handler (tip : tooltip_el) (hs : list hotspot_el)
    (data : gmap string ProjectInfo) (l : layout) (tr : list input) :
  listeners (run tr (new_TooltipManager (Some tip) hs data l))
  = listeners (new_TooltipManager (Some tip) hs data l)
  ∧ length (listeners (run tr (new_TooltipManager (Some tip) hs data l)))
    = 5 * length hs + 3
  ∧ (∀ h e, h < length hs →
       step (MouseEnter h e) (run tr (new_TooltipManager (Some tip) hs data l))
       = handleMouseEnter e h (run tr (new_TooltipManager (Some tip) hs data l))
       ∧ step (MouseLeave h e) (run tr (new_TooltipManager (Some tip) hs data l))
         = handleMouseLeave e h (run tr (new_TooltipManager (Some tip) hs data l))
       ∧ step (MouseMove h e) (run tr (new_TooltipManager (Some tip) hs data l))
         = state_of (handleMouseMove e h (run tr (new_TooltipManager (Some tip) hs data l)))
       ∧ step (TouchStart h e) (run tr (new_TooltipManager (Some tip) hs data l))
         = state_of (handleTouchStart e h (run tr (new_TooltipManager (Some tip) hs data l)))
       ∧ step (Click h e) (run tr (new_TooltipManager (Some tip) hs data l))
         = state_of (handleClick e h (run tr (new_TooltipManager (Some tip) hs data l))))
  ∧ (∀ e,
       step (ClickElsewhere e) (run tr (new_TooltipManager (Some tip) hs data l))
       = state_of (handleDocumentClick e (run tr (new_TooltipManager (Some tip) hs data l)))
       ∧ step Scroll (run tr (new_TooltipManager (Some tip) hs data l))
         = hideTooltip (run tr (new_TooltipManager (Some tip) hs data l))
       ∧ step Resize (run tr (new_TooltipManager (Some tip) hs data l))
         = debounced_call (run tr (new_TooltipManager (Some tip) hs data l))).
Proof.
  pose proof (reachable_wired tip hs data l tr) as Hw.
  pose proof (reachable_wired tip hs data l []) as Hw0. cbn [run] in Hw0.
  assert (Hl := listeners_run (length hs) tr _ Hw0).
  split; [exact Hl|]. split; [by rewrite Hl, length_listeners_new|].
  revert Hw. generalize (run tr (new_TooltipManager (Some tip) hs data l)).
  intros s Hw. split.
  - intros h e Hh. cbn [step].
    rewrite (dispatch_click_wired (length hs)), !(dispatch_wired (length hs)) by done.
    unfold hotspot_bodies. rewrite !bool_decide_eq_true_2 by done. done.
  - intros e. cbn [step]. by rewrite !(dispatch_wired (length hs)).
Qed.

Lemma shows_shown h info t pos st s :
  is_Some (titleEl t) → is_Some (descriptionEl t) → is_Some (techEl t) →
  shows info
    (shown h (TooltipEl ["tooltip"; "visible"; pos] st
                (titleEl t ≫= λ _, Some (title info))
                (descriptionEl t ≫= λ _, Some (description info))
                (techEl t ≫= λ _, Some (tech_html (tech info)))
                (set_link (liveUrl info) <$> liveLink t)
                (set_link (githubUrl info) <$> githubLink t)) s).
Proof.
  intros [? ->] [? ->] [? ->]. eexists. split; [reflexivity|]. done.
Qed.

(** X3. [handleTouchStart] shows the tooltip in the same turn, with no
    delay: for a hotspot whose project is registered the tooltip is visible,
    associated with the hotspot and filled with its project, the hotspot is
    active, one frame callback is queued, and the timers and both timer
    handles are as before. *)
Theorem touch_shows_at_once (s : state) (h : nat) (e : dom_event) (el : hotspot_el)
    (info : ProjectInfo) :
  has_content_slots s →
  hotspots s !! h = Some el →
  projectData s !! project_key el = Some info →
  visible (state_of (handleTouchStart e h s)) = true
  ∧ activeHotspot (state_of (handleTouchStart e h s)) = Some h
  ∧ shows info (state_of (handleTouchStart e h s))
  ∧ is_active h (state_of (handleTouchStart e h s)) = true
  ∧ timers (state_of (handleTouchStart e h s)) = timers s
  ∧ showTimeout (state_of (handleTouchStart e h s)) = showTimeout s
  ∧ hideTimeout (state_of (handleTouchStart e h s)) = hideTimeout s
  ∧ rafQueue (state_of (handleTouchStart e h s)) = S (rafQueue s).
Proof.
  intros (t & Ht & Hti & Hde & Hte) Hel Hinfo. unfold handleTouchStart.
  destruct (showTooltip_registered s h e el info t Hel Hinfo Ht) as (pos & st & ->).
  cbn [state_of]. split; [apply visible_class|]. split; [done|].
  split; [by apply shows_shown|]. split; [|done].
  apply is_active_shown. by eapply lookup_lt_Some.
Qed.

Lemma touch_shows_at_once_witness :
  visible (state_of (handleTouchStart no_event 1 sample_state)) = true
  ∧ shows project2 (state_of (handleTouchStart no_event 1 sample_state))
  ∧ timers (state_of (handleTouchStart no_event 1 sample_state)) = timers sample_state.
Proof.
  destruct (touch_shows_at_once sample_state 1 no_event
              (HotspotEl (Some "project2") ["project-hotspot"]) project2
              (proj2 (proj2 sample_state_hidden)))
    as (Hv & _ & Hs & _ & Ht & _).
  - vm_compute. reflexivity.
  - vm_compute. reflexivity.
  - exact (conj Hv (conj Hs Ht)).
Defined.

Lemma activeHotspot_hidden t s : activeHotspot (hidden t s) = None.
Proof.
  unfold hidden. cbn zeta. rewrite !clearTimeout_cancel. cbn.
  by destruct (activeHotspot s) eqn:E.
Qed.

Lemma is_active_hidden t h s :
  activeHotspot s = Some h → is_active h (hidden t s) = false.
Proof.
  intros Hh. unfold is_active, hidden. cbn zeta. rewrite !clearTimeout_cancel. cbn.
  rewrite Hh. cbn. rewrite list_lookup_alter_eq.
  destruct (hotspots s !! h); cbn; [apply contains_remove|done].
Qed.

(** X4. [handleClick] toggles.  On a hidden tooltip a click on a
    hotspot whose project is registered is [showTooltip]: the tooltip is
    visible, associated with the hotspot, the hotspot active.  A second click
    on the same hotspot is [hideTooltip]: the tooltip is hidden, no hotspot
    is associated and the hotspot is no longer active. *)
Theorem click_toggles (s : state) (h : nat) (e1 e2 : dom_event) (el : hotspot_el)
    (info : ProjectInfo) :
  is_Some (tooltip s) → visible s = false →
  hotspots s !! h = Some el →
  projectData s !! project_key el = Some info →
  handleClick e1 h s = showTooltip h e1 s
  ∧ visible (state_of (handleClick e1 h s)) = true
  ∧ activeHotspot (state_of (handleClick e1 h s)) = Some h
  ∧ is_active h (state_of (handleClick e1 h s)) = true
  ∧ handleClick e2 h (state_of (handleClick e1 h s))
    = Done (hideTooltip (state_of (handleClick e1 h s)))
  ∧ visible (state_of (handleClick e2 h (state_of (handleClick e1 h s)))) = false
  ∧ activeHotspot (state_of (handleClick e2 h (state_of (handleClick e1 h s)))) = None
  ∧ is_active h (state_of (handleClick e2 h (state_of (handleClick e1 h s)))) = false.
Proof.
  intros [t Ht] Hv Hel Hinfo.
  assert (H1 : handleClick e1 h s = showTooltip h e1 s).
  { unfold handleClick, active_and_visible. unfold visible in Hv. rewrite Ht in *.
    rewrite Hv. by case_bool_decide. }
  rewrite H1.
  destruct (showTooltip_registered s h e1 el info t Hel Hinfo Ht) as (pos & st & ->).
  cbn [state_of]. set (t' := TooltipEl _ _ _ _ _ _ _).
  assert (H2 : handleClick e2 h (shown h t' s) = Done (hideTooltip (shown h t' s))).
  { unfold handleClick, active_and_visible. cbn [activeHotspot shown set_hotspot_classList
      set_hotspots requestAnimationFrame set_rafQueue set_tooltip set_activeHotspot tooltip].
    rewrite bool_decide_eq_true_2 by done. subst t'. cbn [className].
    by rewrite visible_class. }
  split; [reflexivity|]. split; [apply visible_class|]. split; [reflexivity|].
  split; [apply is_active_shown; by eapply lookup_lt_Some|]. split; [exact H2|].
  rewrite H2. cbn [state_of].
  rewrite (hideTooltip_spec (shown h t' s) t') by reflexivity.
  split; [apply visible_hidden|]. split; [apply activeHotspot_hidden|].
  apply is_active_hidden. reflexivity.
Qed.

Lemma click_toggles_witness :
  visible (state_of (handleClick no_event 0 sample_state)) = true
  ∧ visible (state_of (handleClick no_event 0
                         (state_of (handleClick no_event 0 sample_state)))) = false.
Proof.
  destruct (click_toggles sample_state 0 no_event no_event
              (HotspotEl (Some "project1") ["project-hotspot"]) project1
              (proj1 (proj1 sample_state_hidden)))
    as (_ & Hv & _ & _ & _ & Hv' & _).
  - vm_compute. reflexivity.
  - vm_compute. reflexivity.
  - vm_compute. reflexivity.
  - exact (conj Hv Hv').
Defined.

Lemma shrinks_run_idle tr s : idle tr → shrinks s (run tr s).
Proof.
  intros Hidle. revert s.
  induction Hidle as [|i tr [->| ->] _ IH]; intros s; cbn [run step].
  - apply shrinks_refl.
  - eapply shrinks_trans; [apply shrinks_tick|apply IH].
  - eapply shrinks_trans; [apply shrinks_frame|apply IH].
Qed.

Lemma timers_hidden_eq t s :
  timers (hidden t s)
  = filter (λ x, tid x ∉ option_list (hideTimeout s))
      (filter (λ x, tid x ∉ option_list (showTimeout s)) (timers s)).
Proof.
  unfold hidden. cbn zeta. cbn [activeHotspot set_tooltip].
  destruct (activeHotspot s); by rewrite !clearTimeout_cancel.
Qed.

Lemma hideTooltip_PendingShow n D s :
  is_Some (tooltip s) → PendingShow n D s →
  StayingHidden (hideTooltip s) ∧ no_delay_pending (hideTooltip s).
Proof.
  intros [t Htip] (Hv & Hr & Hs & Ht). rewrite (hideTooltip_spec s t Htip).
  assert (Hnone : no_delay_pending (hidden t s)).
  { intros x. rewrite timers_hidden_eq, Hs.
    intros [_ [Hs' Hin]%list_elem_of_filter]%list_elem_of_filter.
    assert (Hne : tid x ≠ n) by (intros Heq; apply Hs'; cbn; set_solver).
    by destruct (Ht x Hin) as [?|[? _]]. }
  split; [|exact Hnone].
  split; [apply visible_hidden|]. split; [by rewrite rafQueue_hidden|].
  intros x Hin. left. by apply Hnone.
Qed.

(** X5. A click outside tooltip and hotspots during the show delay cancels
    it: after a pointer-enter on a hidden tooltip and less than 300 ms
    without events, [handleDocumentClick] for such a click is [hideTooltip],
    no delay is pending afterwards, and the tooltip stays hidden however
    long nothing happens. *)
Theorem click_away_cancels_pending_show (s : state) (h : nat) (e e' : dom_event)
    (tr1 tr2 : list input) :
  Hidden s →
  idle tr1 → elapsed tr1 < showDelay → idle tr2 →
  target_in_tooltip e' = false → target_in_hotspot e' = false →
  handleDocumentClick e' (run tr1 (handleMouseEnter e h s))
  = Done (hideTooltip (run tr1 (handleMouseEnter e h s)))
  ∧ no_delay_pending (hideTooltip (run tr1 (handleMouseEnter e h s)))
  ∧ visible (run tr2 (hideTooltip (run tr1 (handleMouseEnter e h s)))) = false.
Proof.
  intros Hhid Hi1 Hlt Hi2 Ht1 Ht2.
  pose proof (handleMouseEnter_PendingShow e h s Hhid) as H0.
  apply (PendingShow_run _ _ tr1) in H0; [|done|rewrite now_handleMouseEnter; lia].
  assert (Htip : is_Some (tooltip (run tr1 (handleMouseEnter e h s)))).
  { destruct (shrinks_run_idle tr1 (handleMouseEnter e h s) Hi1)
      as (_ & _ & _ & _ & _ & _ & Hk & _). apply Hk.
    destruct Hhid as (Hs & _). unfold handleMouseEnter. by destruct (hideTimeout s). }
  destruct (hideTooltip_PendingShow _ _ _ Htip H0) as [H1 Hnone].
  split; [|split; [exact Hnone|]].
  - unfold handleDocumentClick. destruct Htip as [t ->]. by rewrite Ht1, Ht2.
  - apply (StayingHidden_run tr2) in H1; [|done]. by destruct H1.
Qed.

Lemma click_away_cancels_pending_show_witness :
  visible (run (ticks 1000)
             (hideTooltip (run (ticks 200) (handleMouseEnter no_event 0 sample_state))))
  = false.
Proof.
  refine (proj2 (proj2
            (click_away_cancels_pending_show sample_state 0 no_event no_event
               (ticks 200) (ticks 1000) (proj1 sample_state_hidden)
               (idle_ticks 200) _ (idle_ticks 1000) eq_refl eq_refl))).
  rewrite elapsed_ticks. unfold showDelay. lia.
Defined.

(** X6. [populateTooltip] leaves nothing of the previous project: the
    content of the tooltip after showing hotspot [b] over hotspot [a] is the
    content after showing [b] alone (both projects registered). *)
Theorem no_stale_content (s : state) (a b : nat) (ea eb : dom_event)
    (ela elb : hotspot_el) (ia ib : ProjectInfo) :
  is_Some (tooltip s) →
  hotspots s !! a = Some ela → projectData s !! project_key ela = Some ia →
  hotspots s !! b = Some elb → projectData s !! project_key elb = Some ib →
  content (state_of (showTooltip b eb (state_of (showTooltip a ea s))))
  = content (state_of (showTooltip b eb s)).
Proof.
  intros [t Ht] Ha Hia Hb Hib.
  destruct (showTooltip_registered s a ea ela ia t Ha Hia Ht) as (pa & sa & ->).
  destruct (showTooltip_registered s b eb elb ib t Hb Hib Ht) as (pb & sb & ->).
  cbn [state_of]. set (ta := TooltipEl _ _ _ _ _ _ _).
  assert (Hb' : ∃ el', hotspots (shown a ta s) !! b = Some el'
                       ∧ project_key el' = project_key elb).
  { unfold shown, set_hotspot_classList. cbn.
    destruct (decide (a = b)) as [->|Hne].
    - rewrite list_lookup_alter_eq, Hb. cbn. by eexists.
    - rewrite list_lookup_alter_ne by done. by eexists. }
  destruct Hb' as (el' & Hel' & Hkey).
  destruct (showTooltip_registered (shown a ta s) b eb el' ib ta Hel') as (pb' & sb' & ->);
    [by rewrite Hkey | reflexivity |].
  cbn [state_of]. unfold content. cbn. subst ta. cbn.
  by destruct (titleEl t), (descriptionEl t), (techEl t), (liveLink t), (githubLink t).
Qed.

Lemma no_stale_content_witness :
  content (state_of (showTooltip 1 no_event (state_of (showTooltip 0 no_event sample_state))))
  = content (state_of (showTooltip 1 no_event sample_state)).
Proof.
  refine (no_stale_content sample_state 0 1 no_event no_event
            (HotspotEl (Some "project1") ["project-hotspot"])
            (HotspotEl (Some "project2") ["project-hotspot"]) project1 project2
            (proj1 (proj1 sample_state_hidden)) _ _ _ _); vm_compute; reflexivity.
Defined.

(** The cases of the desktop placement, with the outcome of each of the
    code's three tests. *)
Lemma desktop_placement_cases (vp : viewport_size) (tr hr : rect) :
  ∃ left_ top_ pos,
    desktop_placement vp tr hr = (left_, top_, pos)
    ∧ (pos = "top" ∨ pos = "bottom" ∨ pos = "left" ∨ pos = "right")
    ∧ (pos = "top" →
         left_ = (r_left hr + r_width hr / 2)%float
         ∧ top_ = (r_top hr - r_height tr - 15)%float
         ∧ (top_ <? 15)%float = false)
    ∧ (pos = "bottom" →
         left_ = (r_left hr + r_width hr / 2)%float
         ∧ top_ = (r_bottom hr + 15)%float
         ∧ (r_top hr - r_height tr - 15 <? 15)%float = true)
    ∧ (pos = "top" ∨ pos = "bottom" →
         (left_ - r_width tr / 2 <? 15)%float = false
         ∧ (vp_width vp - 15 <? left_ + r_width tr / 2)%float = false)
    ∧ (pos = "left" →
         left_ = (r_right hr + 15)%float
         ∧ top_ = (r_top hr + r_height hr / 2 - r_height tr / 2)%float
         ∧ (vp_width vp - 15 <? r_left hr + r_width hr / 2 + r_width tr / 2)%float = true
         ∧ (left_ - r_width tr / 2 <? 15)%float = false)
    ∧ (pos = "right" →
         left_ = (r_left hr - 15)%float
         ∧ top_ = (r_top hr + r_height hr / 2 - r_height tr / 2)%float).
Proof.
  unfold desktop_placement, spacing.
  destruct (r_top hr - r_height tr - 15 <? 15)%float eqn:E1;
  destruct (vp_width vp - 15 <? r_left hr + r_width hr / 2 + r_width tr / 2)%float
    eqn:E2; cbn beta iota zeta;
  match goal with
  | |- context [(?a - r_width tr / 2 <? 15)%float] =>
      destruct (a - r_width tr / 2 <? 15)%float eqn:E3
  end;
  eexists _, _, _; (split; [reflexivity|]);
  (split; [tauto|]);
  repeat match goal with |- _ ∧ _ => split end;
  intros Hp; try discriminate Hp;
  try (destruct Hp as [Hp|Hp]; discriminate Hp);
  repeat match goal with |- _ ∧ _ => split end;
  try reflexivity; assumption.
Qed.

(** X7. [positionTooltip] changes the tooltip element only, makes it
    visible in the same turn (its class becomes "tooltip visible <pos>"
    without waiting for the animation frame), and <pos> is one of top,
    bottom, left and right, with the horizontal centring transform for top
    and bottom and the vertical one for left and right. *)
Theorem positionTooltip_shows_and_tags (s : state) (h : nat) (e : dom_event)
    (t : tooltip_el) :
  tooltip s = Some t →
  ∃ pos st,
    positionTooltip h e s = set_tooltip (Some (restyle ["tooltip"; "visible"; pos] st t)) s
    ∧ visible (positionTooltip h e s) = true
    ∧ (pos = "top" ∨ pos = "bottom" ∨ pos = "left" ∨ pos = "right")
    ∧ (pos = "top" ∨ pos = "bottom" → st_transform st = Some translateX_minus50)
    ∧ (pos = "left" ∨ pos = "right" → st_transform st = Some translateY_minus50).
Proof.
  intros Ht. unfold positionTooltip, visible. rewrite Ht. cbn zeta.
  destruct (isTouchDevice (page s) || (_ <? _)%float).
  - eexists _, _. split; [reflexivity|]. cbn. split; [apply visible_class|].
    split; [tauto|]. split; [done|]. intros [?|?]; discriminate.
  - destruct (desktop_placement_cases (getViewportSize (page s)) (tooltipRect (page s))
                (hotspotRect (page s) h)) as (l0 & t0 & pos & -> & Hpos & _).
    eexists _, _. split; [reflexivity|]. cbn. split; [apply visible_class|].
    split; [exact Hpos|].
    destruct Hpos as [-> | [-> | [-> | ->]]]; split; intros [?|?]; try discriminate; done.
Qed.

Lemma positionTooltip_shows_and_tags_witness :
  visible (positionTooltip 1 no_event sample_state) = true.
Proof.
  destruct (positionTooltip_shows_and_tags sample_state 1 no_event sample_tooltip)
    as (pos & st & _ & Hv & _).
  - vm_compute. reflexivity.
  - exact Hv.
Defined.



(** X9. The resize listener never repositions the tooltip: neither the
    call of the debounced function nor its timer firing later changes the
    tooltip element, the hotspots or the associated hotspot, and the firing
    queues no frame callback ([updateTooltipPosition] is called without the
    event it reads). *)
Theorem resize_never_moves_tooltip (s : state) (t : timer) :
  cb t = LaterCb →
  tooltip (debounced_call s) = tooltip s
  ∧ hotspots (debounced_call s) = hotspots s
  ∧ activeHotspot (debounced_call s) = activeHotspot s
  ∧ tooltip (fire t s) = tooltip s
  ∧ hotspots (fire t s) = hotspots s
  ∧ activeHotspot (fire t s) = activeHotspot s
  ∧ rafQueue (fire t s) = rafQueue s.
Proof.
  intros Hcb. destruct (fire_later t s Hcb) as (ids & -> & _).
  unfold debounced_call. by destruct (debounceTimeout s).
Qed.

Lemma resize_never_moves_tooltip_witness :
  tooltip (fire (Timer 1 250 LaterCb) (debounced_call sample_shown))
  = tooltip (debounced_call sample_shown).
Proof.
  exact (proj1 (proj2 (proj2 (proj2
           (resize_never_moves_tooltip (debounced_call sample_shown) (Timer 1 250 LaterCb)
              eq_refl))))).
Defined.

Lemma Tidy_shrinks s s' : Tidy s → shrinks s s' → Tidy s'.
Proof.
  intros (Hnd & Hfr & Hd) (_ & _ & A3 & A4 & _ & _ & _ & A8).
  split; [|split].
  - eapply sublist_NoDup; [exact Hnd|]. by apply fmap_sublist.
  - intros t Hin. rewrite A3. apply Hfr. by eapply elem_of_sublist.
  - intros t Hin. rewrite A4. apply Hd. by eapply elem_of_sublist.
Qed.

Lemma Tidy_setTimeout c d s :
  Tidy s → is_later (Timer (nextTimer s) (now s + d) c) = false →
  Tidy (setTimeout c d s).2.
Proof.
  intros (Hnd & Hfr & Hd) Hc. split; [|split]; cbn.
  - rewrite fmap_app. apply NoDup_app. split; [done|]. split; [|apply NoDup_singleton].
    intros x Hx Hx'. apply list_elem_of_singleton in Hx' as ->.
    apply list_elem_of_fmap in Hx as (t & Heq & Hin). specialize (Hfr t Hin). cbn in Heq. lia.
  - intros t [Hin | ->%list_elem_of_singleton]%elem_of_app; [|cbn; lia].
    specialize (Hfr t Hin). lia.
  - intros t [Hin | ->%list_elem_of_singleton]%elem_of_app; [by apply Hd|].
    intros Hl. by rewrite Hl in Hc.
Qed.

Lemma Tidy_handleMouseEnter e h s : Tidy s → Tidy (handleMouseEnter e h s).
Proof.
  intros H.
  destruct (Tidy_setTimeout (ShowCb h e) showDelay (clearTimeout (hideTimeout s) s))
    as (A & B & C); [eapply Tidy_shrinks; [exact H|apply shrinks_clearTimeout]|done|].
  split; [exact A|]. split; [exact B|exact C].
Qed.

Lemma Tidy_handleMouseLeave e h s : Tidy s → Tidy (handleMouseLeave e h s).
Proof.
  intros H.
  destruct (Tidy_setTimeout HideCb hideDelay (clearTimeout (showTimeout s) s))
    as (A & B & C); [eapply Tidy_shrinks; [exact H|apply shrinks_clearTimeout]|done|].
  split; [exact A|]. split; [exact B|exact C].
Qed.

Lemma Tidy_debounced_call s : Tidy s → Tidy (debounced_call s).
Proof.
  intros (Hnd & Hfr & Hd). unfold debounced_call. rewrite clearTimeout_cancel.
  split; [|split]; cbn.
  - rewrite fmap_app. apply NoDup_app. split; [|split; [|apply NoDup_singleton]].
    + eapply sublist_NoDup; [exact Hnd|]. apply fmap_sublist, sublist_filter.
    + intros x Hx Hx'. apply list_elem_of_singleton in Hx' as ->.
      apply list_elem_of_fmap in Hx as (t & Heq & [_ Hin]%list_elem_of_filter).
      specialize (Hfr t Hin). cbn in Heq. lia.
  - intros t [[_ Hin]%list_elem_of_filter | ->%list_elem_of_singleton]%elem_of_app.
    + specialize (Hfr t Hin). lia.
    + cbn. lia.
  - intros t [[Hnin Hin]%list_elem_of_filter | ->%list_elem_of_singleton]%elem_of_app.
    + intros Hl. exfalso. apply Hnin. rewrite (Hd t Hin Hl). cbn. set_solver.
    + done.
Qed.

Lemma Tidy_call f e s : Tidy s → Tidy (state_of (call f e s)).
Proof.
  intros H. destruct f as [i b|m]; [|done].
  destruct b; try (eapply Tidy_shrinks; [done|by apply shrinks_call_benign]);
    cbn [call state_of].
  - by apply Tidy_handleMouseEnter.
  - by apply Tidy_handleMouseLeave.
  - by apply Tidy_debounced_call.
Qed.

Lemma Tidy_call_all ls e s : Tidy s → Tidy (call_all ls e s).
Proof.
  revert s. induction ls as [|l ls IH]; intros s H; [done|].
  cbn. by apply IH, Tidy_call.
Qed.

Lemma Tidy_removeEventListener tg ty f s : Tidy s → Tidy (removeEventListener tg ty f s).
Proof. by intros (? & ? & ?). Qed.

Lemma Tidy_destroy s : Tidy s → Tidy (destroy s).
Proof.
  intros H0. unfold destroy. cbn zeta.
  assert (H : Tidy (hideTooltip s))
    by (eapply Tidy_shrinks; [exact H0|apply shrinks_hideTooltip]).
  repeat apply Tidy_removeEventListener.
  generalize (seq 0 (length (hotspots (hideTooltip s)))). revert H.
  generalize (hideTooltip s). intros s' H l. revert s' H.
  induction l as [|i l IH]; intros s' H; [done|].
  cbn [fold_left]. apply IH. unfold unbind_hotspot. cbn zeta.
  by repeat apply Tidy_removeEventListener.
Qed.

Lemma Tidy_step i s : Tidy s → Tidy (step i s).
Proof.
  intros H. destruct i; cbn [step]; try by apply Tidy_call_all.
  - unfold dispatch_click. cbn zeta. destruct (existsb _ _); repeat apply Tidy_call_all; done.
  - eapply Tidy_shrinks; [done|apply shrinks_tick].
  - eapply Tidy_shrinks; [done|apply shrinks_frame].
  - by destruct H as (? & ? & ?).
  - by apply Tidy_destroy.
Qed.

Lemma Tidy_new tip hs data l : Tidy (new_TooltipManager tip hs data l).
Proof.
  unfold new_TooltipManager, init. cbn [tooltip set_hotspots set_tooltip].
  assert (H0 : ∀ s, timers s = [] → Tidy s).
  { intros s Hs. unfold Tidy. rewrite Hs. split; [apply NoDup_nil_2|].
    split; intros t Hin; by apply elem_of_nil in Hin. }
  destruct tip as [tip|]; [|by apply H0].
  match goal with |- context [bindEvents ?s] =>
    destruct (bindEvents_only_listeners s) as (ls & k & ->) end.
  by apply H0.
Qed.

(** X10. [utils.debounce] as [bindEvents] uses it: in every state the
    manager reaches, whatever the inputs, at most one debounce timer is
    outstanding. *)
Theorem one_debounce_timer (tip : option tooltip_el) (hs : list hotspot_el)
    (data : gmap string ProjectInfo) (l : layout) (tr : list input) :
  length (filter (λ t, is_later t = true)
            (timers (run tr (new_TooltipManager tip hs data l)))) ≤ 1.
Proof.
  assert (H : Tidy (run tr (new_TooltipManager tip hs data l))).
  { generalize (Tidy_new tip hs data l). generalize (new_TooltipManager tip hs data l).
    induction tr as [|i tr IH]; intros s Hs; [done|]. cbn [run]. by apply IH, Tidy_step. }
  revert H. generalize (run tr (new_TooltipManager tip hs data l)).
  intros s (Hnd & _ & Hd).
  assert (Hnd' : NoDup (tid <$> filter (λ t, is_later t = true) (timers s))).
  { eapply sublist_NoDup; [exact Hnd|]. apply fmap_sublist, sublist_filter. }
  assert (Hall : ∀ t, t ∈ filter (λ t, is_later t = true) (timers s) →
                      debounceTimeout s = Some (tid t)).
  { intros t [Hk Hin]%list_elem_of_filter. by apply Hd. }
  destruct (filter _ (timers s)) as [|a [|b k]]; cbn; [lia|lia|].
  exfalso.
  assert (Ha := Hall a ltac:(set_solver)). assert (Hb := Hall b ltac:(set_solver)).
  rewrite Ha in Hb. injection Hb as Hab.
  cbn in Hnd'. rewrite Hab in Hnd'. apply NoDup_cons in Hnd' as [Hnin _].
  apply Hnin. set_solver.
Qed.

Lemma restyle_same (t : tooltip_el) : restyle (className t) (tstyle t) t = t.
Proof. by destruct t. Qed.

(** X11. [handleMouseMove] only restyles: content, visibility and class of
    the tooltip, the hotspots, the associated hotspot and the timers are as
    before, and it does nothing at all unless the hotspot is the associated
    one, the tooltip is visible and the device has no touch. *)
Theorem mousemove_only_restyles (s : state) (h : nat) (e : dom_event) :
  content (state_of (handleMouseMove e h s)) = content s
  ∧ visible (state_of (handleMouseMove e h s)) = visible s
  ∧ (className <$> tooltip (state_of (handleMouseMove e h s))) = (className <$> tooltip s)
  ∧ hotspots (state_of (handleMouseMove e h s)) = hotspots s
  ∧ activeHotspot (state_of (handleMouseMove e h s)) = activeHotspot s
  ∧ timers (state_of (handleMouseMove e h s)) = timers s
  ∧ (activeHotspot s ≠ Some h ∨ visible s = false ∨ isTouchDevice (page s) = true →
     state_of (handleMouseMove e h s) = s).
Proof.
  unfold handleMouseMove, active_and_visible, visible.
  case_bool_decide as Ha.
  2: { cbn. repeat split; done. }
  destruct (tooltip s) as [t|] eqn:Ht.
  2: { cbn. rewrite Ht. repeat split; done. }
  destruct (ClassList.contains "visible" (className t)) eqn:Hv.
  2: { cbn. rewrite Ht, Hv. repeat split; done. }
  unfold updateTooltipPosition. rewrite Ha, Ht, Hv. cbn [negb].
  destruct (isTouchDevice (page s)) eqn:Htouch; cbn [negb].
  { cbn. rewrite Ht, Hv. repeat split; done. }
  destruct (follow_position _ _ _) as [l0 t0]. cbn. unfold content. rewrite Ht, Hv. cbn.
  repeat split; try done.
  intros [?|[?|?]]; done.
Qed.

Lemma hidden_fields (t : tooltip_el) (s : state) :
  hidden t s
  = State (Some (restyle (ClassList.remove "visible" (className t)) (tstyle t) t))
      (match activeHotspot s with
       | Some h => alter (λ el, HotspotEl (dataset_project el)
                                  (ClassList.remove "active" (classList el))) h (hotspots s)
       | None => hotspots s
       end)
      None
      (hideTimeout s) (showTimeout s) (listeners s) (nextFn s)
      (filter (λ x, tid x ∉ option_list (hideTimeout s))
         (filter (λ x, tid x ∉ option_list (showTimeout s)) (timers s)))
      (nextTimer s) (now s) (rafQueue s) (debounceTimeout s) (console s)
      (projectData s) (page s).
Proof.
  unfold hidden. cbn zeta. rewrite !clearTimeout_cancel.
  destruct s as [tip hs act hid sh ls nf ts nt nw rq db cons pd pg].
  by destruct act.
Qed.

Lemma filter_filter_same {A} (P : A → Prop) `{∀ x, Decision (P x)} (l : list A) :
  filter P (filter P l) = filter P l.
Proof.
  apply filter_keeps_all. apply Forall_forall. by intros x [? _]%list_elem_of_filter.
Qed.

(** X12. [hideTooltip] is idempotent: a second call in a row changes
    nothing. *)
Theorem hideTooltip_idempotent (s : state) :
  hideTooltip (hideTooltip s) = hideTooltip s.
Proof.
  destruct (hideTooltip_cases s) as [[Hnone ->] | (t & Ht & ->)].
  - unfold hideTooltip. by rewrite Hnone.
  - rewrite (hidden_fields t s).
    erewrite hideTooltip_spec by reflexivity.
    rewrite hidden_fields.
    cbn [tooltip hotspots activeHotspot hideTimeout showTimeout listeners nextFn timers
         nextTimer now rafQueue debounceTimeout console projectData page].
    assert (Hc : ClassList.remove "visible" (ClassList.remove "visible" (className t))
                 = ClassList.remove "visible" (className t))
      by apply filter_filter_same.
    assert (Hf : filter (λ x, tid x ∉ option_list (hideTimeout s))
                   (filter (λ x, tid x ∉ option_list (showTimeout s))
                      (filter (λ x, tid x ∉ option_list (hideTimeout s))
                         (filter (λ x, tid x ∉ option_list (showTimeout s)) (timers s))))
                 = filter (λ x, tid x ∉ option_list (hideTimeout s))
                     (filter (λ x, tid x ∉ option_list (showTimeout s)) (timers s))).
    { rewrite !list_filter_filter. apply list_filter_iff. intros x. tauto. }
    rewrite Hf. destruct t as [c st ti de te li gi].
    unfold restyle. cbn [className tstyle titleEl descriptionEl techEl liveLink githubLink]
      in *. by rewrite Hc.
Qed.

Lemma hotspots_frame s : hotspots (frame s) = hotspots s.
Proof. unfold frame. destruct (rafQueue s); [done|]. by destruct (tooltip s). Qed.

Lemma frame_queued_visible s n :
  rafQueue s = S n → is_Some (tooltip s) → visible (frame s) = true.
Proof.
  intros Hr [t Ht]. unfold frame, visible. rewrite Hr, Ht. cbn. apply contains_add.
Qed.

(** X13. The frame callback of [showTooltip] is never cancelled: when the
    tooltip is hidden again before the animation frame (both projects and
    tooltip present), the tooltip is hidden and unassociated at first, and
    the frame then makes it visible again, still with no associated hotspot
    and with the hotspot not active. *)
Theorem frame_after_hide_shows_again (s : state) (h : nat) (e : dom_event)
    (el : hotspot_el) (info : ProjectInfo) :
  is_Some (tooltip s) →
  hotspots s !! h = Some el →
  projectData s !! project_key el = Some info →
  visible (hideTooltip (state_of (showTooltip h e s))) = false
  ∧ activeHotspot (hideTooltip (state_of (showTooltip h e s))) = None
  ∧ visible (frame (hideTooltip (state_of (showTooltip h e s)))) = true
  ∧ activeHotspot (frame (hideTooltip (state_of (showTooltip h e s)))) = None
  ∧ is_active h (frame (hideTooltip (state_of (showTooltip h e s)))) = false.
Proof.
  intros [t Ht] Hel Hinfo.
  destruct (showTooltip_registered s h e el info t Hel Hinfo Ht) as (pos & st & ->).
  cbn [state_of]. set (t' := TooltipEl _ _ _ _ _ _ _).
  rewrite (hideTooltip_spec (shown h t' s) t') by reflexivity.
  assert (Hr : rafQueue (hidden t' (shown h t' s)) = S (rafQueue s))
    by by rewrite rafQueue_hidden.
  assert (Htip : is_Some (tooltip (hidden t' (shown h t' s)))).
  { rewrite hidden_fields. by eexists. }
  assert (Ha : activeHotspot (hidden t' (shown h t' s)) = None)
    by apply activeHotspot_hidden.
  assert (Hact : is_active h (hidden t' (shown h t' s)) = false)
    by (apply is_active_hidden; reflexivity).
  assert (Hv : visible (hidden t' (shown h t' s)) = false) by apply visible_hidden.
  generalize dependent (hidden t' (shown h t' s)). intros s1 Hr Htip Ha Hact Hv.
  split; [exact Hv|]. split; [exact Ha|].
  split; [by eapply frame_queued_visible|].
  split; [by rewrite activeHotspot_frame|].
  unfold is_active. rewrite hotspots_frame. exact Hact.
Qed.

Lemma frame_after_hide_shows_again_witness :
  visible (run [Click 0 no_event; Scroll] sample_state) = false
  ∧ visible (frame (hideTooltip (state_of (showTooltip 0 no_event sample_state)))) = true.
Proof.
  split; [vm_compute; reflexivity|].
  refine (proj1 (proj2 (proj2
            (frame_after_hide_shows_again sample_state 0 no_event
               (HotspotEl (Some "project1") ["project-hotspot"]) project1
               (proj1 (proj1 sample_state_hidden)) _ _)))); vm_compute; reflexivity.
Defined.

(** X14. [utils.getViewportSize] reads a missing width as 0, and
    [positionTooltip] then takes the mobile branch: with neither
    [clientWidth] nor [innerWidth] known the viewport width is 0 and the
    tooltip becomes the bottom sheet, touch device or not. *)
Theorem unknown_width_is_mobile (s : state) (h : nat) (e : dom_event) (t : tooltip_el) :
  tooltip s = Some t →
  clientWidth (page s) = None → innerWidth (page s) = None →
  vp_width (getViewportSize (page s)) = 0%float
  ∧ tooltip (positionTooltip h e s) = Some (bottom_sheet t).
Proof.
  intros Ht Hc Hi.
  assert (Hw : vp_width (getViewportSize (page s)) = 0%float).
  { unfold getViewportSize. by rewrite Hc, Hi. }
  split; [exact Hw|].
  unfold positionTooltip. rewrite Ht. cbn zeta. rewrite Hw.
  by destruct (isTouchDevice (page s)).
Qed.

Lemma tooltip_shrinks s s' : shrinks s s' → is_Some (tooltip s) → is_Some (tooltip s').
Proof. intros (_ & _ & _ & _ & _ & _ & H & _). exact H. Qed.

Lemma tooltip_call f e s : is_Some (tooltip s) → is_Some (tooltip (state_of (call f e s))).
Proof.
  intros H. destruct f as [i b|m]; [|done].
  destruct b;
    try (apply (tooltip_shrinks s); [|exact H];
         match goal with
         | |- context [call (Arrow ?i ?b) _ _] => apply (shrinks_call_benign i b e s I)
         end);
    cbn [call state_of].
  - unfold handleMouseEnter. destruct (hideTimeout s); exact H.
  - unfold handleMouseLeave. destruct (showTimeout s); exact H.
  - unfold debounced_call. destruct (debounceTimeout s); exact H.
Qed.

Lemma tooltip_call_all ls e s : is_Some (tooltip s) → is_Some (tooltip (call_all ls e s)).
Proof.
  revert s. induction ls as [|l ls IH]; intros s H; [done|].
  cbn. by apply IH, tooltip_call.
Qed.

Lemma tooltip_step n i s :
  wired n s → is_Some (tooltip s) → is_Some (tooltip (step i s)).
Proof.
  intros Hw H. destruct i; cbn [step]; try by apply tooltip_call_all.
  - unfold dispatch_click. cbn zeta. destruct (existsb _ _); repeat apply tooltip_call_all; done.
  - by apply shrinks_tick.
  - by apply shrinks_frame.
  - done.
  - by apply (shrinks_destroy n).
Qed.

Lemma reachable_tooltip tip hs data l tr :
  is_Some (tooltip (run tr (new_TooltipManager (Some tip) hs data l))).
Proof.
  pose proof (reachable_wired tip hs data l []) as Hw. cbn [run] in Hw.
  assert (H0 : is_Some (tooltip (new_TooltipManager (Some tip) hs data l))).
  { unfold new_TooltipManager, init. cbn [tooltip set_hotspots set_tooltip].
    match goal with |- context [bindEvents ?s] =>
      destruct (bindEvents_only_listeners s) as (ls & k & ->) end. by eexists. }
  revert Hw H0. generalize (new_TooltipManager (Some tip) hs data l).
  induction tr as [|i tr IH]; intros s Hw H; [done|].
  cbn [run]. apply IH; [by apply step_wired|by apply (tooltip_step (length hs))].
Qed.

(** X15. What [destroy] does in a state the manager reaches: exactly what
    [hideTooltip] does.  The tooltip is hidden, no hotspot is associated, the
    timers whose handles the manager held are cancelled, and the listeners
    are those of construction. *)
Theorem destroy_only_hides (tip : tooltip_el) (hs : list hotspot_el)
    (data : gmap string ProjectInfo) (l : layout) (tr : list input) :
  destroy (run tr (new_TooltipManager (Some tip) hs data l))
  = hideTooltip (run tr (new_TooltipManager (Some tip) hs data l))
  ∧ visible (destroy (run tr (new_TooltipManager (Some tip) hs data l))) = false
  ∧ activeHotspot (destroy (run tr (new_TooltipManager (Some tip) hs data l))) = None
  ∧ listeners (destroy (run tr (new_TooltipManager (Some tip) hs data l)))
    = listeners (new_TooltipManager (Some tip) hs data l)
  ∧ (∀ t, t ∈ timers (destroy (run tr (new_TooltipManager (Some tip) hs data l))) →
       showTimeout (run tr (new_TooltipManager (Some tip) hs data l)) ≠ Some (tid t)
       ∧ hideTimeout (run tr (new_TooltipManager (Some tip) hs data l)) ≠ Some (tid t)).
Proof.
  pose proof (reachable_wired tip hs data l tr) as Hw.
  pose proof (reachable_wired tip hs data l []) as Hw0. cbn [run] in Hw0.
  pose proof (listeners_run (length hs) tr _ Hw0) as Hl.
  pose proof (reachable_tooltip tip hs data l tr) as [t Ht].
  revert Hw Hl Ht. generalize (run tr (new_TooltipManager (Some tip) hs data l)).
  intros s [Harr _] Hl Ht.
  rewrite (destroy_removes_nothing s Harr), (hideTooltip_spec s t Ht).
  split; [reflexivity|]. split; [apply visible_hidden|].
  split; [apply activeHotspot_hidden|]. split.
  - rewrite <- Hl, <- (hideTooltip_spec s t Ht). apply listeners_hideTooltip.
  - intros x. rewrite timers_hidden_eq.
    intros [Hh [Hs _]%list_elem_of_filter]%list_elem_of_filter.
    split; intros Heq; [apply Hs|apply Hh]; rewrite Heq; cbn; set_solver.
Qed.

Lemma ArmedHide_cancel h n D ids s :
  n ∉ ids → ArmedHide h n D s → ArmedHide h n D (cancel ids s).
Proof.
  intros Hn ((ts & Hts & Hall) & Hrest).
  split; [|exact Hrest].
  exists (filter (λ t, tid t ∉ ids) ts). split.
  - unfold cancel. cbn. rewrite Hts, filter_app, filter_cons_True by done. done.
  - apply Forall_forall. intros t [_ Hin]%list_elem_of_filter.
    by apply (proj1 (Forall_forall _ _) Hall).
Qed.

Lemma ArmedHide_fire h n D t s :
  cb t = LaterCb ∧ tid t ≠ n → ArmedHide h n D s → ArmedHide h n D (fire t s).
Proof.
  intros [Hcb Hne] HP. destruct (fire_later t s Hcb) as (ids & -> & Hids).
  apply ArmedHide_cancel; [|done].
  intros Hin. destruct (Hids n Hin) as [->|Hd]; [done|].
  by destruct HP as (_ & Hdn & _).
Qed.

Lemma ArmedHide_tick_before h n D s :
  ArmedHide h n D s → S (now s) < D → ArmedHide h n D (tick s).
Proof.
  intros HP Hlt.
  apply (tick_inv (ArmedHide h n D) (λ t, cb t = LaterCb ∧ tid t ≠ n)).
  - intros t Hin Hdue. destruct HP as ((ts & Hts & Hall) & _).
    rewrite Hts in Hin. apply elem_of_app in Hin as [Hin|Hin].
    + by apply (proj1 (Forall_forall _ _) Hall).
    + apply list_elem_of_singleton in Hin as ->. cbn in Hdue. lia.
  - intros t s'. apply ArmedHide_fire.
  - done.
Qed.

Lemma ArmedHide_fire_hide h n D s :
  ArmedHide h n D s → HiddenAfter h (fire (Timer n D HideCb) s).
Proof.
  intros ((ts & Hts & Hall) & Hd & [t Ht] & Ha & Hr).
  unfold fire. cbn [tid cb].
  assert (Hout : outstanding n s = true).
  { apply bool_decide_eq_true. rewrite Hts, map_app. set_solver. }
  rewrite Hout, clearTimeout_cancel. cbn [run_callback state_of].
  change (option_list (Some n)) with [n].
  rewrite (hideTooltip_spec (cancel [n] s) t Ht).
  split; [apply visible_hidden|]. split; [by rewrite rafQueue_hidden|].
  split; [apply activeHotspot_hidden|]. split; [by apply is_active_hidden|].
  intros x Hin. apply timers_hidden in Hin. cbn in Hin. rewrite Hts, filter_app in Hin.
  rewrite filter_cons_False in Hin by (cbn; set_solver).
  rewrite filter_nil, app_nil_r in Hin. apply list_elem_of_filter in Hin as [_ Hin].
  by apply (proj1 (Forall_forall _ _) Hall).
Qed.

Lemma ArmedHide_tick_due h n D s :
  ArmedHide h n D s → D ≤ S (now s) → HiddenAfter h (tick s).
Proof.
  intros HP Hdue. unfold tick. cbn zeta.
  destruct HP as ((ts & Hts & Hall) & HP).
  cbn [timers set_now now]. rewrite Hts, filter_app.
  rewrite filter_cons_True by done. rewrite filter_nil, fire_all_app. cbn [fire_all].
  apply ArmedHide_fire_hide.
  apply (fire_all_inv (ArmedHide h n D) (λ t, cb t = LaterCb ∧ tid t ≠ n)).
  - apply Forall_forall. intros t [_ Hin]%list_elem_of_filter.
    by apply (proj1 (Forall_forall _ _) Hall).
  - intros t s'. apply ArmedHide_fire.
  - split; [|exact HP]. by exists ts.
Qed.

Lemma HiddenAfter_run h tr s : idle tr → HiddenAfter h s → HiddenAfter h (run tr s).
Proof.
  apply run_idle_always.
  - intros s' HP. apply (tick_inv (HiddenAfter h) (λ t, cb t = LaterCb)).
    + intros t Hin _. destruct HP as (_ & _ & _ & _ & Ht). by apply Ht.
    + intros t s'' Hcb (Hv & Hr & Ha & Hact & Ht).
      destruct (fire_later t s'' Hcb) as (ids & -> & _).
      repeat split; try done.
      intros x Hin. apply Ht. unfold cancel in Hin. cbn in Hin.
      by apply list_elem_of_filter in Hin as [_ Hin].
    + done.
  - intros s' HP. rewrite frame_idle; [done|]. by destruct HP as (_ & ? & _).
Qed.

Lemma ArmedHide_run h n D tr s :
  idle tr → ArmedHide h n D s → now s < D → D ≤ now s + elapsed tr →
  HiddenAfter h (run tr s).
Proof.
  intros Hidle. revert s.
  induction Hidle as [|i tr [->| ->] Hidle IH]; intros s HP Hlt Hge;
    cbn [run step elapsed] in *.
  - lia.
  - destruct (decide (S (now s) < D)) as [Hb|Hb].
    + apply IH; [by apply ArmedHide_tick_before| |]; rewrite now_tick; lia.
    + apply HiddenAfter_run; [done|]. apply (ArmedHide_tick_due h n D); [done|lia].
  - rewrite frame_idle by (by destruct HP as (_ & _ & _ & _ & ?)).
    by apply IH.
Qed.

(** X16. The hide delay: when the tooltip is visible for hotspot [h], no
    delay is pending and no frame callback is queued, a pointer-leave
    followed by 150 ms or more without events leaves the tooltip hidden, no
    hotspot associated, [h] not active and no delay pending. *)
Theorem leave_hides_after_delay (s : state) (h : nat) (e : dom_event) (tr : list input) :
  visible s = true → activeHotspot s = Some h →
  no_delay_pending s → rafQueue s = 0 → handles_fresh s →
  idle tr → hideDelay ≤ elapsed tr →
  visible (run tr (handleMouseLeave e h s)) = false
  ∧ activeHotspot (run tr (handleMouseLeave e h s)) = None
  ∧ is_active h (run tr (handleMouseLeave e h s)) = false
  ∧ no_delay_pending (run tr (handleMouseLeave e h s)).
Proof.
  intros Hv Ha Hnone Hr [Hfresh Hdeb] Hidle Hge.
  destruct (visible_tooltip s Hv) as (t & Ht & _).
  assert (H0 : ArmedHide h (nextTimer s) (now s + hideDelay) (handleMouseLeave e h s)).
  { unfold handleMouseLeave. rewrite clearTimeout_cancel. cbn.
    split; [|split; [|split; [|split]]].
    - eexists. split; [reflexivity|].
      apply Forall_forall. intros x [_ Hin]%list_elem_of_filter.
      split; [by apply Hnone|]. specialize (Hfresh x Hin). lia.
    - intros Heq. specialize (Hdeb _ Heq). lia.
    - exists t. exact Ht.
    - done.
    - done. }
  destruct (ArmedHide_run h _ _ tr _ Hidle H0) as (? & _ & ? & ? & ?); try done.
  - rewrite now_handleMouseLeave. unfold hideDelay. lia.
  - rewrite now_handleMouseLeave. lia.
Qed.

Lemma leave_hides_after_delay_witness :
  visible (run [Click 0 no_event; Frame] sample_state) = true
  ∧ visible (run (ticks 150)
               (handleMouseLeave no_event 0 (run [Click 0 no_event; Frame] sample_state)))
    = false.
Proof.
  assert (Ht : timers (run [Click 0 no_event; Frame] sample_state) = [])
    by (vm_compute; reflexivity).
  assert (Hd : debounceTimeout (run [Click 0 no_event; Frame] sample_state) = None)
    by (vm_compute; reflexivity).
  assert (Hv : visible (run [Click 0 no_event; Frame] sample_state) = true)
    by (vm_compute; reflexivity).
  split; [exact Hv|].
  refine (proj1 (leave_hides_after_delay (run [Click 0 no_event; Frame] sample_state) 0
                   no_event (ticks 150) Hv _ _ _ _ (idle_ticks 150) _)).
  - vm_compute; reflexivity.
  - intros t Hin. rewrite Ht in Hin. by apply elem_of_nil in Hin.
  - vm_compute; reflexivity.
  - split.
    + intros t Hin. rewrite Ht in Hin. by apply elem_of_nil in Hin.
    + intros id Hid. rewrite Hd in Hid. discriminate Hid.
  - rewrite elapsed_ticks. unfold hideDelay. lia.
Defined.

Lemma unknown_width_is_mobile_witness :
  tooltip (positionTooltip 0 no_event
             (set_page (Layout false 0 None None (Some 400%float) (Some 400%float)
                          (Rect 0 0 300 250) (λ _, Rect 100 120 40 40)) sample_state))
  = Some (bottom_sheet sample_tooltip).
Proof.
  exact (proj2 (unknown_width_is_mobile
                  (set_page (Layout false 0 None None (Some 400%float) (Some 400%float)
                               (Rect 0 0 300 250) (λ _, Rect 100 120 40 40)) sample_state)
                  0 no_event sample_tooltip eq_refl eq_refl eq_refl)).
Defined.

(** ** utils.throttle *)

Section ThrottleFacts.

Context {A : Type}.
Variable throws : A → bool.
Variable limit : Z.


Lemma throttle_Settled_call a s :
  Throttle.Settled throws limit s →
  Throttle.Settled throws limit (Throttle.call throws limit a s).
Proof.
  intros Hs. unfold Throttle.call.
  case_eq (Throttle.inThrottle s); intros Hin; [exact Hs|].
  destruct Hs as (Hoff & Hon & Hle).
  destruct (Hoff Hin) as [Hres Hold].
  destruct (throws a) eqn:Hth; (split; [|split]); cbn; try done.
  - intros _. split; [done|].
    intros t b [Hb|Hb]%elem_of_app Hs; [by apply (Hold t b)|].
    apply list_elem_of_singleton in Hb. injection Hb as -> ->. congruence.
  - intros t b [Hb|Hb]%elem_of_app; [by apply (Hle t b)|].
    apply list_elem_of_singleton in Hb. by injection Hb as -> ->.
  - intros _. exists (Throttle.clock s + Throttle.delay limit). rewrite Hres. cbn.
    split; [done|]. split; [lia|]. split; [lia|].
    intros t b [Hb|Hb]%elem_of_app Hs.
    + specialize (Hold t b Hb Hs). lia.
    + apply list_elem_of_singleton in Hb. by injection Hb as -> ->.
  - intros t b [Hb|Hb]%elem_of_app; [by apply (Hle t b)|].
    apply list_elem_of_singleton in Hb. by injection Hb as -> ->.
Qed.

Lemma throttle_Settled_tick s :
  Throttle.Settled throws limit s → Throttle.Settled throws limit (Throttle.tick s).
Proof.
  intros (Hoff & Hon & Hle). unfold Throttle.tick. cbn zeta.
  assert (Hle' : ∀ t a, (t, a) ∈ Throttle.ran s → t ≤ S (Throttle.clock s)).
  { intros t a Hin. specialize (Hle t a Hin). lia. }
  case_eq (Throttle.inThrottle s); intros Hin.
  - destruct (Hon Hin) as (d & Hres & Hd1 & Hd2 & Hold). rewrite Hres.
    destruct (decide (d ≤ S (Throttle.clock s))) as [Hfire|Hkeep].
    + rewrite bool_decide_eq_true_2 by (apply Exists_cons; by left).
      rewrite filter_cons_False by lia. rewrite filter_nil.
      split; [|split]; cbn; try done.
      intros _. split; [done|]. intros t a Ha Hs. specialize (Hold t a Ha Hs). lia.
    + rewrite bool_decide_eq_false_2.
      2: { intros [?| Hx]%Exists_cons; [lia|]. by apply Exists_nil in Hx. }
      rewrite filter_cons_True by lia. rewrite filter_nil.
      split; [|split]; cbn; try done.
      intros _. exists d. split; [done|]. split; [lia|]. split; [lia|]. exact Hold.
  - destruct (Hoff Hin) as [Hres Hold]. rewrite Hres.
    rewrite bool_decide_eq_false_2 by (intros Hx; by apply Exists_nil in Hx).
    rewrite filter_nil. split; [|split]; cbn; try done.
    intros _. split; [done|]. intros t a Ha Hs. specialize (Hold t a Ha Hs). lia.
Qed.

Lemma throttle_Settled_run tr s :
  Throttle.Settled throws limit s →
  Throttle.Settled throws limit (Throttle.run throws limit tr s).
Proof.
  revert s. induction tr as [|ev tr IH]; intros s Hs; [done|].
  cbn. apply IH.
  destruct ev; [by apply throttle_Settled_call|by apply throttle_Settled_tick].
Qed.





Lemma throttle_window tr s d :
  Throttle.inThrottle s = true → Throttle.resets s = [d] →
  Throttle.clock s + Throttle.elapsed tr < d →
  Throttle.ran (Throttle.run throws limit tr s) = Throttle.ran s
  ∧ Throttle.inThrottle (Throttle.run throws limit tr s) = true
  ∧ Throttle.resets (Throttle.run throws limit tr s) = [d]
  ∧ Throttle.clock (Throttle.run throws limit tr s) = Throttle.clock s + Throttle.elapsed tr.
Proof.
  revert s. induction tr as [|[a|] tr IH]; intros s Hin Hres Hlt; cbn in *.
  - repeat split; try done; lia.
  - assert (Hc : Throttle.call throws limit a s = s)
      by (unfold Throttle.call; by rewrite Hin).
    rewrite Hc. by apply IH.
  - destruct (IH (Throttle.tick s)) as (H1 & H2 & H3 & H4).
    + unfold Throttle.tick. cbn. rewrite Hres.
      rewrite bool_decide_eq_false_2; [done|].
      intros [?| Hx]%Exists_cons; [lia|]. by apply Exists_nil in Hx.
    + unfold Throttle.tick. cbn. rewrite Hres. by rewrite filter_cons_True by lia.
    + cbn. lia.
    + rewrite H1, H2, H3, H4. cbn. repeat split; try done; lia.
Qed.

Lemma throttle_stays_open k s :
  Throttle.inThrottle s = false → Throttle.resets s = [] →
  Throttle.inThrottle (Throttle.run throws limit (replicate k Throttle.Tick) s) = false
  ∧ Throttle.resets (Throttle.run throws limit (replicate k Throttle.Tick) s) = []
  ∧ Throttle.ran (Throttle.run throws limit (replicate k Throttle.Tick) s) = Throttle.ran s
  ∧ Throttle.clock (Throttle.run throws limit (replicate k Throttle.Tick) s)
    = Throttle.clock s + k.
Proof.
  revert s. induction k as [|k IHk]; intros s H1 H2;
    cbn [replicate Throttle.run Throttle.step].
  - repeat split; try done; lia.
  - destruct (IHk (Throttle.tick s)) as (B1 & B2 & B3 & B4).
    + unfold Throttle.tick. cbn. rewrite H2, H1.
      by rewrite bool_decide_eq_false_2 by (intros Hx; by apply Exists_nil in Hx).
    + unfold Throttle.tick. cbn. by rewrite H2.
    + rewrite B1, B2, B3, B4. cbn. repeat split; try done; lia.
Qed.

Lemma throttle_expires m s d :
  Throttle.inThrottle s = true → Throttle.resets s = [d] →
  d ≤ Throttle.clock s + m → 0 < m →
  Throttle.inThrottle (Throttle.run throws limit (replicate m Throttle.Tick) s) = false
  ∧ Throttle.resets (Throttle.run throws limit (replicate m Throttle.Tick) s) = []
  ∧ Throttle.ran (Throttle.run throws limit (replicate m Throttle.Tick) s) = Throttle.ran s
  ∧ Throttle.clock (Throttle.run throws limit (replicate m Throttle.Tick) s)
    = Throttle.clock s + m.
Proof.
  revert s. induction m as [|m IH]; intros s Hin Hres Hd Hm; [lia|].
  cbn [replicate Throttle.run Throttle.step].
  destruct (decide (d ≤ S (Throttle.clock s))) as [Hfire|Hkeep].
  - destruct (throttle_stays_open m (Throttle.tick s)) as (B1 & B2 & B3 & B4).
    + unfold Throttle.tick. cbn. rewrite Hres.
      by rewrite bool_decide_eq_true_2 by (apply Exists_cons; by left).
    + unfold Throttle.tick. cbn. rewrite Hres. by rewrite filter_cons_False by lia.
    + rewrite B1, B2, B3, B4. cbn. repeat split; try done; lia.
  - destruct (IH (Throttle.tick s)) as (B1 & B2 & B3 & B4).
    + unfold Throttle.tick. cbn. rewrite Hres.
      rewrite bool_decide_eq_false_2; [done|].
      intros [?| Hx]%Exists_cons; [lia|]. by apply Exists_nil in Hx.
    + unfold Throttle.tick. cbn. rewrite Hres. by rewrite filter_cons_True by lia.
    + cbn. lia.
    + lia.
    + rewrite B1, B2, B3, B4. cbn. repeat split; try done; lia.
Qed.

Lemma throttle_run_app tr1 tr2 s :
  Throttle.run throws limit (tr1 ++ tr2) s
  = Throttle.run throws limit tr2 (Throttle.run throws limit tr1 s).
Proof. revert s. induction tr1 as [|ev tr1 IH]; intros s; [done|]. cbn. apply IH. Qed.

(** X18. [utils.throttle] drops, it does not defer: after a call that ran
    [func], the calls made before the delay of the reset timer is over
    ([limit] ms when [0 <= limit < 2^31]) run nothing, then or later; the
    first call after the delay runs [func] at once with its own
    arguments. *)
Theorem throttle_drops_then_runs (s : Throttle.closure (A := A)) (a b : A)
    (tr : list Throttle.event) (m : nat) :
  Throttle.inThrottle s = false → Throttle.resets s = [] →
  throws a = false →
  Throttle.elapsed tr < Throttle.delay limit →
  Throttle.delay limit ≤ Throttle.elapsed tr + m → 0 < m →
  Throttle.ran (Throttle.run throws limit tr (Throttle.call throws limit a s))
  = Throttle.ran s ++ [(Throttle.clock s, a)]
  ∧ Throttle.ran
      (Throttle.run throws limit (tr ++ replicate m Throttle.Tick ++ [Throttle.Call b])
         (Throttle.call throws limit a s))
    = Throttle.ran s
      ++ [(Throttle.clock s, a); (Throttle.clock s + Throttle.elapsed tr + m, b)].
Proof.
  intros Hin Hres Ha Hlt Hge Hm.
  assert (Hc : Throttle.call throws limit a s
               = Throttle.Closure true [Throttle.clock s + Throttle.delay limit] (Throttle.clock s)
                   (Throttle.ran s ++ [(Throttle.clock s, a)])).
  { unfold Throttle.call. by rewrite Hin, Ha, Hres. }
  destruct (throttle_window tr (Throttle.call throws limit a s)
              (Throttle.clock s + Throttle.delay limit))
    as (W1 & W2 & W3 & W4); try (rewrite Hc; cbn; done || lia).
  split; [by rewrite W1, Hc|].
  rewrite !throttle_run_app.
  destruct (throttle_expires m
              (Throttle.run throws limit tr (Throttle.call throws limit a s))
              (Throttle.clock s + Throttle.delay limit))
    as (E1 & E2 & E3 & E4); try done.
  { rewrite W4, Hc. cbn. lia. }
  cbn [Throttle.run Throttle.step]. unfold Throttle.call at 1. rewrite E1.
  destruct (throws b); cbn; rewrite E3, E4, W1, W4, Hc; cbn;
    by rewrite <- app_assoc.
Qed.

End ThrottleFacts.

Lemma throttle_drops_then_runs_witness :
  Throttle.ran
    (Throttle.run (λ _ : nat, false) 3
       ([Throttle.Call 5; Throttle.Tick; Throttle.Call 6]
        ++ replicate 2 Throttle.Tick ++ [Throttle.Call 2])
       (Throttle.call (λ _ : nat, false) 3 1 Throttle.fresh))
  = [(0, 1); (3, 2)].
Proof.
  refine (proj2 (throttle_drops_then_runs (λ _ : nat, false) 3 Throttle.fresh 1 2
                   [Throttle.Call 5; Throttle.Tick; Throttle.Call 6] 2
                   eq_refl eq_refl eq_refl _ _ _)); vm_compute; lia.
Defined.
